(** * RFD discussions app for Rocket.Chat: a shallow embedding

    The development follows the TypeScript sources of the app:
    - [lib/crypto.ts] (webhook signature check, HMAC-SHA-256 in plain
      JavaScript),
    - [lib/types.ts], [lib/DiscussionStore.ts], [lib/DiscussionManager.ts],
    - [settings.ts] and [endpoints/WebhookEndpoint.ts].

    The source tree holds several revisions of some files.  The embedding
    follows the most complete revision of each: the [crypto.ts] that
    implements [hmacSha256] and [sha256Bytes], the [DiscussionManager.ts]
    with [buildDeepLink] and [isValidDiscussionUrl], and the
    [WebhookEndpoint.ts] that consults [DiscussionStore].  The placeholder
    revision of [verifySignature] is embedded next to the implemented one.

    JavaScript strings are sequences of UTF-16 code units, numbers that
    hold integers are [Z], the one number that does not hold an integer
    ([totalLength] in [sha256Bytes]) is a [Q].  Code that can throw
    returns a [result]; code that talks to the chat platform or to the
    persistence layer runs in a state-and-exception monad whose state
    records every call made. *)

From Stdlib Require Import ZArith QArith Qround List Bool Lia String Ascii.
From stdpp Require Import gmap.
Import ListNotations.
Local Open Scope Z_scope.

(* ===================================================================== *)
(** * JavaScript values and built-ins *)
(* ===================================================================== *)

Module JS.

(** A string is a list of UTF-16 code units. *)
Definition jsstring := list Z.

Definition wf_jsstring (s : jsstring) : Prop :=
  Forall (fun c => 0 <= c < 65536) s.

(** Decoding of the UTF-8 text of a source literal into code units. *)
Fixpoint utf16_of_utf8 (bs : list Z) : jsstring :=
  match bs with
  | [] => []
  | b0 :: t0 =>
      if b0 <? 0x80 then b0 :: utf16_of_utf8 t0
      else if b0 <? 0xE0 then
        match t0 with
        | b1 :: t1 => ((b0 - 0xC0) * 64 + (b1 - 0x80)) :: utf16_of_utf8 t1
        | _ => [0xFFFD]
        end
      else if b0 <? 0xF0 then
        match t0 with
        | b1 :: b2 :: t2 =>
            ((b0 - 0xE0) * 4096 + (b1 - 0x80) * 64 + (b2 - 0x80))
              :: utf16_of_utf8 t2
        | _ => [0xFFFD]
        end
      else
        match t0 with
        | b1 :: b2 :: b3 :: t3 =>
            let cp := (b0 - 0xF0) * 262144 + (b1 - 0x80) * 4096
                      + (b2 - 0x80) * 64 + (b3 - 0x80) in
            (0xD800 + (cp - 0x10000) / 1024)
              :: (0xDC00 + (cp - 0x10000) mod 1024)
              :: utf16_of_utf8 t3
        | _ => [0xFFFD]
        end
  end.

(** [js "text"] is the JavaScript string literal ['text']. *)
Definition js (s : string) : jsstring :=
  utf16_of_utf8 (map (fun a => Z.of_N (N_of_ascii a)) (list_ascii_of_string s)).

(** Exceptions. *)
Inductive exn :=
| RangeError
| TypeError
| URIError
| Error (message : jsstring).

Inductive result (A : Type) :=
| Ok (a : A)
| Throw (e : exn).
Arguments Ok {A} a.
Arguments Throw {A} e.

Definition bind {A B} (m : result A) (k : A -> result B) : result B :=
  match m with
  | Ok a => k a
  | Throw e => Throw e
  end.

(** [try { r } catch (e) { h(e) }] for code without collaborators. *)
Definition catch {A} (r : result A) (h : exn -> result A) : result A :=
  match r with
  | Ok a => Ok a
  | Throw e => h e
  end.

(** 32-bit conversions of the bitwise operators. *)
Definition ToInt32 (x : Z) : Z := (x + 2 ^ 31) mod 2 ^ 32 - 2 ^ 31.
Definition ToUint32 (x : Z) : Z := x mod 2 ^ 32.
Definition ToUint8 (x : Z) : Z := x mod 256.

Definition js_xor (a b : Z) : Z := Z.lxor (ToInt32 a) (ToInt32 b).
Definition js_or (a b : Z) : Z := Z.lor (ToInt32 a) (ToInt32 b).
Definition js_and (a b : Z) : Z := Z.land (ToInt32 a) (ToInt32 b).
Definition js_not (a : Z) : Z := Z.lnot (ToInt32 a).
(** [a << n] *)
Definition js_shl (a n : Z) : Z := ToInt32 (Z.shiftl (ToInt32 a) (n mod 32)).
(** [a >>> n] *)
Definition js_shru (a n : Z) : Z := Z.shiftr (ToUint32 a) (n mod 32).

(** [ToIndex]: truncation towards zero, [RangeError] below zero. *)
Definition Qtrunc (q : Q) : Z :=
  if Qle_bool 0 q then Qfloor q else Qceiling q.

Definition ToIndex (q : Q) : result Z :=
  let i := Qtrunc q in
  if i <? 0 then Throw RangeError else Ok i.

Definition len {A} (l : list A) : Z := Z.of_nat (length l).

(** [!s] for a value of type [string | undefined]. *)
Definition falsy (s : option jsstring) : bool :=
  match s with
  | None => true
  | Some [] => true
  | Some (_ :: _) => false
  end.

Definition str_eqb (a b : jsstring) : bool := bool_decide (a = b).

(** [s.startsWith(p)] *)
Fixpoint startsWith (s p : jsstring) : bool :=
  match p, s with
  | [], _ => true
  | _ :: _, [] => false
  | cp :: p', cs :: s' => (cs =? cp) && startsWith s' p'
  end.

(** [s.slice(n)] for [n >= 0] *)
Definition slice (s : jsstring) (n : nat) : jsstring := skipn n s.

(** UTF-8 bytes of one code point. *)
Definition utf8_of_codepoint (cp : Z) : list Z :=
  if cp <? 0x80 then [cp]
  else if cp <? 0x800 then [0xC0 + cp / 64; 0x80 + cp mod 64]
  else if cp <? 0x10000 then
    [0xE0 + cp / 4096; 0x80 + (cp / 64) mod 64; 0x80 + cp mod 64]
  else
    [0xF0 + cp / 262144; 0x80 + (cp / 4096) mod 64;
     0x80 + (cp / 64) mod 64; 0x80 + cp mod 64].

Definition isHighSurrogate (c : Z) : bool := (0xD800 <=? c) && (c <=? 0xDBFF).
Definition isLowSurrogate (c : Z) : bool := (0xDC00 <=? c) && (c <=? 0xDFFF).
Definition pairCodePoint (hi lo : Z) : Z :=
  0x10000 + (hi - 0xD800) * 1024 + (lo - 0xDC00).

(** [new TextEncoder().encode(s)]: UTF-8, a lone surrogate is encoded
    as U+FFFD. *)
Fixpoint TextEncoder_encode (s : jsstring) : list Z :=
  match s with
  | [] => []
  | c :: t =>
      if isHighSurrogate c then
        match t with
        | d :: t' =>
            if isLowSurrogate d
            then utf8_of_codepoint (pairCodePoint c d) ++ TextEncoder_encode t'
            else utf8_of_codepoint 0xFFFD ++ TextEncoder_encode t
        | [] => utf8_of_codepoint 0xFFFD
        end
      else if isLowSurrogate c
      then utf8_of_codepoint 0xFFFD ++ TextEncoder_encode t
      else utf8_of_codepoint c ++ TextEncoder_encode t
  end.

(** [arr.join(sep)] *)
Fixpoint join (sep : jsstring) (l : list jsstring) : jsstring :=
  match l with
  | [] => []
  | [x] => x
  | x :: rest => x ++ sep ++ join sep rest
  end.

(** [arr.includes(x)] *)
Definition includes (l : list jsstring) (x : jsstring) : bool :=
  existsb (str_eqb x) l.

End JS.
Import JS.

Declare Scope result_scope.
Delimit Scope result_scope with result.
Notation "'let!' x ':=' m 'in' k" := (JS.bind m (fun x => k))
  (at level 10, x name, m at level 100, k at level 200) : result_scope.
Local Open Scope result_scope.

(* ===================================================================== *)
(** * lib/crypto.ts *)
(* ===================================================================== *)

Module Crypto.

(** [rotr(n, d)] *)
Definition rotr (n d : Z) : Z := js_or (js_shru n d) (js_shl n (32 - d)).

(** The constants [K] (a [Uint32Array]), four to a row. *)
Definition K : list Z :=
  concat
    [ [0x428a2f98; 0x71374491; 0xb5c0fbcf; 0xe9b5dba5];
      [0x3956c25b; 0x59f111f1; 0x923f82a4; 0xab1c5ed5];
      [0xd807aa98; 0x12835b01; 0x243185be; 0x550c7dc3];
      [0x72be5d74; 0x80deb1fe; 0x9bdc06a7; 0xc19bf174];
      [0xe49b69c1; 0xefbe4786; 0x0fc19dc6; 0x240ca1cc];
      [0x2de92c6f; 0x4a7484aa; 0x5cb0a9dc; 0x76f988da];
      [0x983e5152; 0xa831c66d; 0xb00327c8; 0xbf597fc7];
      [0xc6e00bf3; 0xd5a79147; 0x06ca6351; 0x14292967];
      [0x27b70a85; 0x2e1b2138; 0x4d2c6dfc; 0x53380d13];
      [0x650a7354; 0x766a0abb; 0x81c2c92e; 0x92722c85];
      [0xa2bfe8a1; 0xa81a664b; 0xc24b8b70; 0xc76c51a3];
      [0xd192e819; 0xd6990624; 0xf40e3585; 0x106aa070];
      [0x19a4c116; 0x1e376c08; 0x2748774c; 0x34b0bcb5];
      [0x391c0cb3; 0x4ed8aa4a; 0x5b9cca4f; 0x682e6ff3];
      [0x748f82ee; 0x78a5636f; 0x84c87814; 0x8cc70208];
      [0x90befffa; 0xa4506ceb; 0xbef9a3f7; 0xc67178f2] ].

(** The running hash [h0 .. h7], also the working variables [a .. h]. *)
Record regs := Regs {
  r0 : Z; r1 : Z; r2 : Z; r3 : Z; r4 : Z; r5 : Z; r6 : Z; r7 : Z
}.

Definition initialHash : regs :=
  Regs 0x6a09e667 0xbb67ae85 0x3c6ef372 0xa54ff53a
       0x510e527f 0x9b05688c 0x1f83d9ab 0x5be0cd19.

(** [view.getUint32(off, false)] on a [DataView] over the bytes [buf]:
    big-endian, [RangeError] when the four bytes are not all inside. *)
Definition getUint32 (buf : list Z) (off : Z) : result Z :=
  if (off <? 0) || (len buf <? off + 4) then Throw RangeError
  else
    let b i := nth (Z.to_nat (off + i)) buf 0 in
    Ok (b 0 * 16777216 + b 1 * 65536 + b 2 * 256 + b 3).

Definition bytesOfUint32 (v : Z) : list Z :=
  let u := ToUint32 v in
  [u / 16777216; (u / 65536) mod 256; (u / 256) mod 256; u mod 256].

(** [view.setUint32(off, v, false)] *)
Definition setUint32 (buf : list Z) (off : Z) (v : Z) : result (list Z) :=
  if (off <? 0) || (len buf <? off + 4) then Throw RangeError
  else
    Ok (firstn (Z.to_nat off) buf ++ bytesOfUint32 v
          ++ skipn (Z.to_nat off + 4) buf).

(** Pre-processing: the padded message, with the value of [totalLength]
    that the block loop later compares against. *)
Definition padMessage (data : list Z) : result (Q * list Z) :=
  let bitLength := len data * 8 in
  let paddingLength :=
    Z.rem ((448 - Z.rem (bitLength + 1) 512) + 512) 512 in
  let totalLength : Q :=
    (inject_Z (len data) + 1 + (inject_Z paddingLength / 8) + 8)%Q in
  (* new Uint8Array(totalLength) *)
  let! n := ToIndex totalLength in
  (* padded.set(data); padded[data.length] = 0x80 *)
  let padded :=
    firstn (Z.to_nat n)
      (map ToUint8 data ++ [0x80] ++ repeat 0 (Z.to_nat n)) in
  (* view.setUint32(totalLength - 4, bitLength, false) *)
  let! off := ToIndex (totalLength - 4)%Q in
  let! padded' := setUint32 padded off bitLength in
  Ok (totalLength, padded').

(** [W[0..15]] of the block at [offset]. *)
Fixpoint readWords (view : list Z) (offset : Z) (i : Z) (n : nat)
  : result (list Z) :=
  match n with
  | O => Ok []
  | S n' =>
      let! w := getUint32 view (offset + i * 4) in
      let! ws := readWords view offset (i + 1) n' in
      Ok (w :: ws)
  end.

(** [W[16..63]]: [W] grows at its end, [W[i - k]] is read from it. *)
Fixpoint extendSchedule (W : list Z) (n : nat) : list Z :=
  match n with
  | O => W
  | S n' =>
      let i := length W in
      let w k := nth (i - k) W 0 in
      let s0 :=
        js_xor (js_xor (rotr (w 15%nat) 7) (rotr (w 15%nat) 18))
               (js_shru (w 15%nat) 3) in
      let s1 :=
        js_xor (js_xor (rotr (w 2%nat) 17) (rotr (w 2%nat) 19))
               (js_shru (w 2%nat) 10) in
      extendSchedule
        (W ++ [ToUint32 (w 16%nat + s0 + w 7%nat + s1)]) n'
  end.

(** One pass of the main loop. *)
Definition round (v : regs) (k w : Z) : regs :=
  let '(Regs a b c d e f g h) := v in
  let S1 := js_xor (js_xor (rotr e 6) (rotr e 11)) (rotr e 25) in
  let ch := js_xor (js_and e f) (js_and (js_not e) g) in
  let temp1 := ToUint32 (h + S1 + ch + k + w) in
  let S0 := js_xor (js_xor (rotr a 2) (rotr a 13)) (rotr a 22) in
  let maj := js_xor (js_xor (js_and a b) (js_and a c)) (js_and b c) in
  let temp2 := ToUint32 (S0 + maj) in
  Regs (ToUint32 (temp1 + temp2)) a b c (ToUint32 (d + temp1)) e f g.

Fixpoint rounds (v : regs) (ks ws : list Z) : regs :=
  match ks, ws with
  | k :: ks', w :: ws' => rounds (round v k w) ks' ws'
  | _, _ => v
  end.

Definition addHash (H v : regs) : regs :=
  Regs (ToUint32 (r0 H + r0 v)) (ToUint32 (r1 H + r1 v))
       (ToUint32 (r2 H + r2 v)) (ToUint32 (r3 H + r3 v))
       (ToUint32 (r4 H + r4 v)) (ToUint32 (r5 H + r5 v))
       (ToUint32 (r6 H + r6 v)) (ToUint32 (r7 H + r7 v)).

(** The body of the block loop. *)
Definition processBlock (view : list Z) (offset : Z) (H : regs) : result regs :=
  let! W16 := readWords view offset 0 16 in
  let W := extendSchedule W16 48 in
  Ok (addHash H (rounds H K W)).

(** [for (let offset = 0; offset < totalLength; offset += 64) { ... }].
    [fuel] bounds the number of passes; [sha256Bytes] supplies more
    than the loop can use. *)
Fixpoint blockLoop (fuel : nat) (totalLength : Q) (view : list Z)
    (offset : Z) (H : regs) : result regs :=
  if negb (Qle_bool totalLength (inject_Z offset)) then
    match fuel with
    | O => Ok H
    | S fuel' =>
        let! H' := processBlock view offset H in
        blockLoop fuel' totalLength view (offset + 64) H'
    end
  else Ok H.

(** The final [DataView] writes. *)
Definition hashBytes (H : regs) : list Z :=
  bytesOfUint32 (r0 H) ++ bytesOfUint32 (r1 H) ++ bytesOfUint32 (r2 H)
  ++ bytesOfUint32 (r3 H) ++ bytesOfUint32 (r4 H) ++ bytesOfUint32 (r5 H)
  ++ bytesOfUint32 (r6 H) ++ bytesOfUint32 (r7 H).

(** Block loop and final hash, for a given loop bound. *)
Definition hashBlocks (totalLength : Q) (padded : list Z) : result (list Z) :=
  let! H := blockLoop (S (length padded)) totalLength padded 0 initialHash in
  Ok (hashBytes H).

(** [sha256Bytes(data)] *)
Definition sha256Bytes (data : list Z) : result (list Z) :=
  let! p := padMessage data in
  hashBlocks (fst p) (snd p).

(** [stringToBytes(str)] *)
Definition stringToBytes (str : jsstring) : list Z := TextEncoder_encode str.

Definition hexDigit (d : Z) : Z :=
  if d <? 10 then 48 + d else 97 + (d - 10).

(** [b.toString(16).padStart(2, '0')] for an element of a [Uint8Array]. *)
Definition byteToHex (b : Z) : jsstring :=
  let digits :=
    if b <? 16 then [hexDigit b] else [hexDigit (b / 16); hexDigit (b mod 16)] in
  repeat 48 (2 - length digits) ++ digits.

(** [bytesToHex(bytes)] *)
Definition bytesToHex (bytes : list Z) : jsstring :=
  flat_map byteToHex bytes.

(** [hmacSha256(message, key)] *)
Definition hmacSha256 (message key : jsstring) : result jsstring :=
  let blockSize := 64%nat in
  let keyBytes0 := stringToBytes key in
  let messageBytes := stringToBytes message in
  let! keyBytes1 := (if (length keyBytes0 <=? blockSize)%nat
                then Ok keyBytes0 else sha256Bytes keyBytes0) in
  let keyBytes :=
    if (length keyBytes1 <? blockSize)%nat
    then keyBytes1 ++ repeat 0 (blockSize - length keyBytes1)
    else keyBytes1 in
  let innerPadded :=
    map (fun i => ToUint8 (js_xor (nth i keyBytes 0) 0x36)) (seq 0 blockSize) in
  let outerPadded :=
    map (fun i => ToUint8 (js_xor (nth i keyBytes 0) 0x5c)) (seq 0 blockSize) in
  let! innerHash := sha256Bytes (innerPadded ++ messageBytes) in
  let! finalHash := sha256Bytes (outerPadded ++ innerHash) in
  Ok (bytesToHex finalHash).

(** [computeHmacSha256(message, secret)] *)
Definition computeHmacSha256 (message secret : jsstring) : result jsstring :=
  hmacSha256 message secret.

(** The loop of [timingSafeEqual], with the number of passes made. *)
Fixpoint timingSafeEqual_loop (a b : jsstring) (result : Z) (passes : nat)
  : Z * nat :=
  match a with
  | [] => (result, passes)
  | ca :: a' =>
      timingSafeEqual_loop a' (tl b)
        (js_or result (js_xor ca (hd 0 b))) (S passes)
  end.

(** [timingSafeEqual(a, b)] together with the number of character
    comparisons it made. *)
Definition timingSafeEqual_cost (a b : jsstring) : bool * nat :=
  if negb (length a =? length b)%nat then (false, 0%nat)
  else
    let '(result, passes) := timingSafeEqual_loop a b 0 0 in
    (result =? 0, passes).

Definition timingSafeEqual (a b : jsstring) : bool :=
  fst (timingSafeEqual_cost a b).



(** [verifySignature(body, signature, secret)]; the header may be
    missing, so [signature] is optional. *)
Definition verifySignature (body : jsstring) (signature : option jsstring)
    (secret : jsstring) : result bool :=
  match signature with
  | None => Ok false
  | Some sig =>
      if falsy signature || negb (startsWith sig (js "sha256="))
      then Ok false
      else
        let providedHash := slice sig 7 in
        let! expectedHash := computeHmacSha256 body secret in
        Ok (timingSafeEqual providedHash expectedHash)
  end.

End Crypto.

(** The placeholder revision of [lib/crypto.ts]. *)
Module CryptoPlaceholder.

Definition verifySignature (body : jsstring) (signature : option jsstring)
    (secret : jsstring) : result bool :=
  match signature with
  | None => Ok false
  | Some sig =>
      if falsy signature || negb (startsWith sig (js "sha256="))
      then Ok false
      else Ok true
  end.

End CryptoPlaceholder.


(* ===================================================================== *)
(** * URI built-ins and the regular expressions of the sources *)
(* ===================================================================== *)

Module URI.

Definition isDigit (c : Z) : bool := (48 <=? c) && (c <=? 57).
Definition isUpper (c : Z) : bool := (65 <=? c) && (c <=? 90).
Definition isLower (c : Z) : bool := (97 <=? c) && (c <=? 122).

(** Characters that [encodeURIComponent] leaves as they are:
    letters, digits and [- _ . ! ~ * ' ( )]. *)
Definition uriUnescaped (c : Z) : bool :=
  isUpper c || isLower c || isDigit c
  || existsb (Z.eqb c) [45; 95; 46; 33; 126; 42; 39; 40; 41].

(** Strings made only of such characters ("URL-safe"). *)
Definition urlSafe (s : jsstring) : Prop :=
  Forall (fun c => uriUnescaped c = true) s.

Definition HEXDIGIT (d : Z) : Z :=
  if d <? 10 then 48 + d else 65 + (d - 10).

Definition percentByte (b : Z) : jsstring :=
  [37; HEXDIGIT (b / 16); HEXDIGIT (b mod 16)].

(** [encodeURIComponent(s)]; a lone surrogate raises [URIError]. *)
Fixpoint encodeURIComponent (s : jsstring) : result jsstring :=
  match s with
  | [] => Ok []
  | c :: t =>
      if uriUnescaped c then
        let! r := encodeURIComponent t in Ok (c :: r)
      else if isLowSurrogate c then Throw URIError
      else if isHighSurrogate c then
        match t with
        | d :: t' =>
            if isLowSurrogate d then
              let! r := encodeURIComponent t' in
              Ok (flat_map percentByte (utf8_of_codepoint (pairCodePoint c d))
                    ++ r)
            else Throw URIError
        | [] => Throw URIError
        end
      else
        let! r := encodeURIComponent t in
        Ok (flat_map percentByte (utf8_of_codepoint c) ++ r)
  end.

Definition hexVal (c : Z) : option Z :=
  if isDigit c then Some (c - 48)
  else if (65 <=? c) && (c <=? 70) then Some (c - 55)
  else if (97 <=? c) && (c <=? 102) then Some (c - 87)
  else None.

(** The octet written [%hl]. *)
Definition escapedOctet (p h l : Z) : option Z :=
  if p =? 37 then
    match hexVal h, hexVal l with
    | Some a, Some b => Some (16 * a + b)
    | _, _ => None
    end
  else None.

(** The payload bits of a continuation octet [10xxxxxx] written [%hl]. *)
Definition continuationOctet (p h l : Z) : option Z :=
  match escapedOctet p h l with
  | Some b => if (0x80 <=? b) && (b <? 0xC0) then Some (b - 0x80) else None
  | None => None
  end.

(** [decodeURIComponent(s)]: escapes are decoded as UTF-8; a malformed
    escape or an invalid UTF-8 sequence raises [URIError]. *)
Fixpoint decodeURIComponent (s : jsstring) : result jsstring :=
  match s with
  | [] => Ok []
  | c :: t =>
      if negb (c =? 37) then
        let! r := decodeURIComponent t in Ok (c :: r)
      else
        match t with
        | h :: l :: rest =>
            match escapedOctet c h l with
            | None => Throw URIError
            | Some B =>
                if B <? 0x80 then
                  let! r := decodeURIComponent rest in Ok (B :: r)
                else if B <? 0xC0 then Throw URIError
                else if B <? 0xE0 then
                  match rest with
                  | p1 :: h1 :: l1 :: rest1 =>
                      match continuationOctet p1 h1 l1 with
                      | Some b1 =>
                          let V := (B - 0xC0) * 64 + b1 in
                          if V <? 0x80 then Throw URIError
                          else
                            let! r := decodeURIComponent rest1 in Ok (V :: r)
                      | None => Throw URIError
                      end
                  | _ => Throw URIError
                  end
                else if B <? 0xF0 then
                  match rest with
                  | p1 :: h1 :: l1 :: p2 :: h2 :: l2 :: rest2 =>
                      match continuationOctet p1 h1 l1,
                            continuationOctet p2 h2 l2 with
                      | Some b1, Some b2 =>
                          let V := (B - 0xE0) * 4096 + b1 * 64 + b2 in
                          if (V <? 0x800) || isHighSurrogate V || isLowSurrogate V
                          then Throw URIError
                          else
                            let! r := decodeURIComponent rest2 in Ok (V :: r)
                      | _, _ => Throw URIError
                      end
                  | _ => Throw URIError
                  end
                else if B <? 0xF8 then
                  match rest with
                  | p1 :: h1 :: l1 :: p2 :: h2 :: l2 :: p3 :: h3 :: l3 :: rest3 =>
                      match continuationOctet p1 h1 l1,
                            continuationOctet p2 h2 l2,
                            continuationOctet p3 h3 l3 with
                      | Some b1, Some b2, Some b3 =>
                          let V := (B - 0xF0) * 262144 + b1 * 4096
                                   + b2 * 64 + b3 in
                          if (V <? 0x10000) || (0x10FFFF <? V)
                          then Throw URIError
                          else
                            let! r := decodeURIComponent rest3 in
                            Ok ((0xD800 + (V - 0x10000) / 1024)
                                  :: (0xDC00 + (V - 0x10000) mod 1024) :: r)
                      | _, _, _ => Throw URIError
                      end
                  | _ => Throw URIError
                  end
                else Throw URIError
            end
        | _ => Throw URIError
        end
  end.

End URI.
Import URI.

Module RegExp.

(** The rest of [s] after the literal [p], when [s] starts with it. *)
Fixpoint stripPrefix (p s : jsstring) : option jsstring :=
  match p, s with
  | [], _ => Some s
  | _ :: _, [] => None
  | cp :: p', cs :: s' => if cs =? cp then stripPrefix p' s' else None
  end.

(** Case folding of the [i] flag (the patterns are ASCII). *)
Definition canonicalize (c : Z) : Z := if isLower c then c - 32 else c.

Fixpoint stripPrefixCI (p s : jsstring) : option jsstring :=
  match p, s with
  | [], _ => Some s
  | _ :: _, [] => None
  | cp :: p', cs :: s' =>
      if canonicalize cs =? canonicalize cp then stripPrefixCI p' s' else None
  end.

(** The longest prefix of characters satisfying [f] (a greedy class). *)
Fixpoint takeWhile (f : Z -> bool) (s : jsstring) : jsstring :=
  match s with
  | [] => []
  | c :: t => if f c then c :: takeWhile f t else []
  end.

Fixpoint dropWhile (f : Z -> bool) (s : jsstring) : jsstring :=
  match s with
  | [] => []
  | c :: t => if f c then dropWhile f t else s
  end.

Definition nonEmpty (s : jsstring) : option jsstring :=
  match s with
  | [] => None
  | _ :: _ => Some s
  end.

(** [s.match(re)] for a pattern without the [g] flag: the capture of
    the leftmost position at which the pattern matches. *)
Fixpoint search (matchAt : jsstring -> option jsstring) (s : jsstring)
  : option jsstring :=
  match matchAt s with
  | Some m => Some m
  | None =>
      match s with
      | [] => None
      | _ :: t => search matchAt t
      end
  end.

Definition noneOf (cs : list Z) (c : Z) : bool := negb (existsb (Z.eqb c) cs).

(** [/\/group\/([^\/\?]+)/] at one position. *)
Definition directGroupAt (s : jsstring) : option jsstring :=
  match stripPrefix (js "/group/") s with
  | Some rest => nonEmpty (takeWhile (noneOf [47; 63]) rest)
  | None => None
  end.

(** [/[?&]path=group(?:%2F|\/)([^&]+)/i] at one position. *)
Definition deepLinkPathAt (s : jsstring) : option jsstring :=
  match s with
  | c :: t =>
      if (c =? 63) || (c =? 38) then
        match stripPrefixCI (js "path=group") t with
        | Some t1 =>
            match stripPrefixCI (js "%2F") t1 with
            | Some t2 => nonEmpty (takeWhile (noneOf [38]) t2)
            | None =>
                match stripPrefix (js "/") t1 with
                | Some t2 => nonEmpty (takeWhile (noneOf [38]) t2)
                | None => None
                end
            end
        | None => None
        end
      else None
  | [] => None
  end.

(** [/^(?:https?:\/\/)?([^\/\?\#]+)/]: anchored; the optional scheme is
    tried first and given up when no host character follows it. *)
Definition siteHostMatch (s : jsstring) : option jsstring :=
  let hostRun r := nonEmpty (takeWhile (noneOf [47; 63; 35]) r) in
  let afterScheme :=
    match stripPrefix (js "https://") s with
    | Some r => Some r
    | None => stripPrefix (js "http://") s
    end in
  match afterScheme with
  | Some r =>
      match hostRun r with
      | Some h => Some h
      | None => hostRun s
      end
  | None => hostRun s
  end.

(** [/<([^>]+)>/] at one position. *)
Definition angleAddressAt (s : jsstring) : option jsstring :=
  match s with
  | c :: t =>
      if c =? 60 then
        let run := takeWhile (noneOf [62]) t in
        match run, stripPrefix [62] (skipn (length run) t) with
        | _ :: _, Some _ => Some run
        | _, _ => None
        end
      else None
  | [] => None
  end.

End RegExp.

(* ===================================================================== *)
(** * lib/types.ts *)
(* ===================================================================== *)

Module Types.

Inductive RFDState :=
| prediscussion | ideation | discussion_state | published | committed | abandoned.

Record RFD := {
  id : jsstring;
  title : jsstring;
  authors : list jsstring;
  state : RFDState;
  discussion : option jsstring;
  tags : list jsstring;
  content : jsstring;
  contentMD : jsstring;
  createdAt : jsstring;
  modifiedAt : jsstring
}.

Record FieldChange (T : Type) := { old : T; new : T }.
Arguments old {T} _.
Arguments new {T} _.

Record RFDChanges := {
  ch_title : option (FieldChange jsstring);
  ch_state : option (FieldChange RFDState);
  ch_authors : option (FieldChange (list jsstring));
  ch_tags : option (FieldChange (list jsstring));
  ch_discussion : option (FieldChange jsstring);
  ch_content : option bool
}.

(** The parsed request body.  [event] and [rfd] may be missing: the
    endpoint checks for them before use. *)
Record WebhookPayload := {
  event : option jsstring;
  timestamp : jsstring;
  rfd : option RFD;
  link : jsstring;
  changes : option RFDChanges
}.

Record DiscussionRef := { ref_id : jsstring; ref_url : jsstring }.

(** [WebhookResponse], with the [message] some handlers add. *)
Record WebhookResponse := {
  success : bool;
  message : option jsstring;
  error : option jsstring;
  resp_discussion : option DiscussionRef
}.

Definition STATE_DESCRIPTIONS (s : RFDState) : jsstring :=
  match s with
  | prediscussion => js "🔒 Pre-Discussion - Not yet open for feedback"
  | ideation => js "💡 Ideation - Early idea, feedback welcome"
  | discussion_state => js "💬 Discussion - Actively seeking input"
  | published => js "📋 Published - Accepted, open for comments"
  | committed => js "✅ Committed - Implemented"
  | abandoned => js "❌ Abandoned - No longer being pursued"
  end.

End Types.
Import Types.

(* ===================================================================== *)
(** * The host: platform built-ins, chat platform, persistence *)
(* ===================================================================== *)

Module Host.

(** What [new URL(s)] exposes to the app. *)
Record URL := {
  host : jsstring;
  searchParams : list (jsstring * jsstring)
}.

(** [url.searchParams.get(name)] *)
Definition searchParams_get (u : URL) (name : jsstring) : option jsstring :=
  match List.find (fun kv => str_eqb (fst kv) name) (searchParams u) with
  | Some kv => Some (snd kv)
  | None => None
  end.

(** Built-ins of the runtime that the embedding takes as given:
    the URL parser ([None] when [new URL] throws), Unicode lower-casing,
    [trim], [JSON.stringify] of the request body and the message text
    of a built-in error. *)
Record Platform := {
  URL_parse : jsstring -> option URL;
  toLowerCase : jsstring -> jsstring;
  trim : jsstring -> jsstring;
  JSON_stringify : option WebhookPayload -> jsstring;
  builtinMessage : exn -> jsstring
}.

Record IUser := {
  username : jsstring;
  emails : option (list jsstring)
}.

Record IRoom := {
  room_id : jsstring;
  slugifiedName : jsstring;
  parentRoom : option jsstring
}.

(** [StoredDiscussion] of lib/DiscussionStore.ts *)
Record StoredDiscussion := {
  rfdId : jsstring;
  roomId : jsstring;
  roomUrl : jsstring;
  stored_createdAt : jsstring
}.

(** The calls the app makes on its collaborators.  Building and
    finishing a discussion, a room update or a message is one call. *)
Inductive Call :=
| GetRoomByName (name : jsstring)
| GetRoomById (id : jsstring)
| GetAppUser
| GetUserByUsername (name : jsstring)
| GetMembers (roomId : jsstring)
| CreateDiscussion (parent : IRoom) (displayName slug : jsstring)
    (creator : IUser)
| SetRoomDescription (roomId description : jsstring) (user : IUser)
| AddMember (roomId member : jsstring) (user : IUser)
| PostMessage (roomId : jsstring) (sender : IUser) (text : jsstring)
| ReadByAssociation (key : jsstring)
| UpdateByAssociation (key : jsstring) (data : StoredDiscussion).

(** The collaborators answer as they please: every answer is a function
    of the calls made so far.  [rejects] tells whether a call that only
    has an effect fails. *)
Record Chat := {
  getByName : list Call -> jsstring -> result (option IRoom);
  getById : list Call -> jsstring -> result (option IRoom);
  getAppUser : list Call -> result (option IUser);
  getByUsername : list Call -> jsstring -> result (option IUser);
  getMembers : list Call -> jsstring -> result (list IUser);
  finishDiscussion : list Call -> IRoom -> jsstring -> jsstring -> IUser
                     -> result jsstring;
  rejects : list Call -> Call -> option exn;
  toISOString_now : list Call -> jsstring
}.

(** State of a delivery: the persisted associations and the calls made. *)
Record World := {
  persistence : gmap jsstring StoredDiscussion;
  calls : list Call
}.

Definition M (A : Type) : Type := World -> result A * World.

Definition ret {A} (a : A) : M A := fun w => (Ok a, w).

Definition throw {A} (e : exn) : M A := fun w => (Throw e, w).

Definition mbind {A B} (m : M A) (k : A -> M B) : M B :=
  fun w =>
    match m w with
    | (Ok a, w') => k a w'
    | (Throw e, w') => (Throw e, w')
    end.

(** [try { m } catch (e) { h(e) }] *)
Definition try_catch {A} (m : M A) (h : exn -> M A) : M A :=
  fun w =>
    match m w with
    | (Ok a, w') => (Ok a, w')
    | (Throw e, w') => h e w'
    end.

Definition lift {A} (r : result A) : M A := fun w => (r, w).

Definition record (c : Call) (w : World) : World :=
  {| persistence := persistence w; calls := calls w ++ [c] |}.

(** A call with an answer. *)
Definition ask {A} (c : Call) (answer : list Call -> result A) : M A :=
  fun w => (answer (calls w), record c w).

(** A call that only has an effect. *)
Definition perform (chat : Chat) (c : Call) : M unit :=
  fun w =>
    match rejects chat (calls w) c with
    | Some e => (Throw e, record c w)
    | None => (Ok tt, record c w)
    end.

End Host.
Import Host.

Declare Scope host_scope.
Delimit Scope host_scope with host.
Notation "'let*' x ':=' m 'in' k" := (Host.mbind m (fun x => k))
  (at level 10, x name, m at level 100, k at level 200) : host_scope.
Notation "m1 ';;' m2" := (Host.mbind m1 (fun _ => m2))
  (at level 100, right associativity) : host_scope.
Local Open Scope host_scope.

(* ===================================================================== *)
(** * lib/DiscussionStore.ts *)
(* ===================================================================== *)

Module DiscussionStore.

Definition ASSOCIATION_TYPE : jsstring := js "rfd-discussion".

(** The id of the association record, [`${ASSOCIATION_TYPE}:${rfdId}`]. *)
Definition association (rfdId : jsstring) : jsstring :=
  ASSOCIATION_TYPE ++ js ":" ++ rfdId.

Section WithChat.
Variable chat : Chat.

(** [read.readByAssociation(association)]: the records stored under the
    association (at most one, the writes are upserts). *)
Definition readByAssociation (key : jsstring) : M (list StoredDiscussion) :=
  fun w =>
    match rejects chat (calls w) (ReadByAssociation key) with
    | Some e => (Throw e, record (ReadByAssociation key) w)
    | None =>
        (Ok (match persistence w !! key with Some d => [d] | None => [] end),
         record (ReadByAssociation key) w)
    end.

(** [persistence.updateByAssociation(association, data, true)] *)
Definition updateByAssociation (key : jsstring) (data : StoredDiscussion)
  : M unit :=
  fun w =>
    match rejects chat (calls w) (UpdateByAssociation key data) with
    | Some e => (Throw e, record (UpdateByAssociation key data) w)
    | None =>
        (Ok tt,
         {| persistence := <[key := data]> (persistence w);
            calls := calls w ++ [UpdateByAssociation key data] |})
    end.

(** [DiscussionStore.getDiscussion(read, rfdId)] *)
Definition getDiscussion (rfdId : jsstring) : M (option StoredDiscussion) :=
  let* results := readByAssociation (association rfdId) in
  match results with
  | d :: _ => ret (Some d)
  | [] => ret None
  end.

(** [DiscussionStore.storeDiscussion(persistence, rfdId, roomId, roomUrl)] *)
Definition storeDiscussion (rfdId roomId roomUrl : jsstring) : M unit :=
  fun w =>
    let data := {| rfdId := rfdId; roomId := roomId; roomUrl := roomUrl;
                   stored_createdAt := toISOString_now chat (calls w) |} in
    updateByAssociation (association rfdId) data w.

(** [DiscussionStore.hasDiscussion(read, rfdId)] *)
Definition hasDiscussion (rfdId : jsstring) : M bool :=
  let* discussion := getDiscussion rfdId in
  ret (match discussion with Some _ => true | None => false end).

End WithChat.
End DiscussionStore.

(* ===================================================================== *)
(** * lib/DiscussionManager.ts *)
(* ===================================================================== *)

Module DiscussionManager.

Section Manager.
Variable P : Platform.
Variable chat : Chat.

Definition nl : jsstring := [10].

Definition isSlugChar (c : Z) : bool := isLower c || isDigit c.

(** [.replace(/[^a-z0-9]+/g, '-')]; [inRun] tells that the previous
    character already belongs to the run being replaced. *)
Fixpoint replaceRuns (inRun : bool) (s : jsstring) : jsstring :=
  match s with
  | [] => []
  | c :: t =>
      if isSlugChar c then c :: replaceRuns false t
      else if inRun then replaceRuns true t
      else 45 :: replaceRuns true t
  end.

(** [.replace(/^-+|-+$/g, '')] *)
Definition trimHyphens (s : jsstring) : jsstring :=
  let isHyphen c := c =? 45 in
  rev (RegExp.dropWhile isHyphen (rev (RegExp.dropWhile isHyphen s))).

(** [slugify(text)] *)
Definition slugify (text : jsstring) : jsstring :=
  firstn 50 (trimHyphens (replaceRuns false (toLowerCase P text))).

(** [buildDescription(rfd, rfdLink)] *)
Definition buildDescription (rfd : RFD) (rfdLink : jsstring) : jsstring :=
  let joined := join (js ", ") (tags rfd) in
  STATE_DESCRIPTIONS (state rfd) ++ js " | Tags: "
    ++ (match joined with [] => js "none" | _ :: _ => joined end).

(** [extractRoomIdFromUrl(url)]; [null] is [None]. *)
Definition extractRoomIdFromUrl (url : jsstring) : result (option jsstring) :=
  match RegExp.search RegExp.directGroupAt url with
  | Some directMatch => Ok (Some directMatch)
  | None =>
      match RegExp.search RegExp.deepLinkPathAt url with
      | Some goRocketChatMatch =>
          let! decoded := decodeURIComponent goRocketChatMatch in
          Ok (Some decoded)
      | None => Ok None
      end
  end.

(** [new URL(s)] *)
Definition new_URL (s : jsstring) : result URL :=
  match URL_parse P s with
  | Some u => Ok u
  | None => Throw TypeError
  end.

(** [isValidDiscussionUrl(url, siteUrl)] *)
Definition isValidDiscussionUrl (url siteUrl : jsstring) : result bool :=
  if falsy (Some url) then Ok false
  else
    catch
      (let! parsedUrl := new_URL url in
       let! parsedSiteUrl := new_URL siteUrl in
       if str_eqb (toLowerCase P (host parsedUrl)) (js "go.rocket.chat") then
         let hostParam := searchParams_get parsedUrl (js "host") in
         match hostParam with
         | Some hp =>
             if falsy hostParam then Ok false
             else Ok (str_eqb (toLowerCase P hp)
                              (toLowerCase P (host parsedSiteUrl)))
         | None => Ok false
         end
       else if str_eqb (toLowerCase P (host parsedUrl))
                       (toLowerCase P (host parsedSiteUrl))
       then Ok true
       else Ok false)
      (fun _ => Ok false).

(** [buildDeepLink(siteUrl, path)] *)
Definition buildDeepLink (siteUrl path : jsstring) : result jsstring :=
  let! host :=
    catch
      (let! url := new_URL siteUrl in Ok (host url))
      (fun _ =>
         Ok (match RegExp.siteHostMatch siteUrl with
             | Some h => h
             | None => siteUrl
             end)) in
  let! encodedHost := encodeURIComponent host in
  let! encodedPath := encodeURIComponent path in
  Ok (js "https://go.rocket.chat/room?host=" ++ encodedHost
        ++ js "&path=" ++ encodedPath).

(** [setRoomDescription(room, description, user)] *)
Definition setRoomDescription (room : IRoom) (description : jsstring)
    (user : IUser) : M unit :=
  try_catch
    (perform chat (SetRoomDescription (room_id room) description user))
    (fun _ => ret tt).

(** [postMessage(room, sender, text)] *)
Definition postMessage (room : IRoom) (sender : IUser) (text : jsstring)
  : M unit :=
  perform chat (PostMessage (room_id room) sender text).

(** One pass of the loop of [addAuthorsToDiscussion]. *)
Definition addAuthor (discussion : IRoom) (appUser : IUser)
    (members : list IUser) (authorInput : jsstring) : M unit :=
  if falsy (Some authorInput) || falsy (Some (trim P authorInput)) then ret tt
  else
    let trimmedInput := trim P authorInput in
    let emailMatch := RegExp.search RegExp.angleAddressAt trimmedInput in
    let email :=
      match emailMatch with
      | Some m => toLowerCase P m
      | None => toLowerCase P trimmedInput
      end in
    let byEmail :=
      List.find
        (fun m =>
           match emails m with
           | Some es => existsb (fun e => str_eqb (toLowerCase P e) email) es
           | None => false
           end) members in
    let byName :=
      match byEmail with
      | Some u => Some u
      | None =>
          List.find
            (fun m =>
               str_eqb (toLowerCase P (username m)) email
               || str_eqb (toLowerCase P (username m))
                          (toLowerCase P trimmedInput)) members
      end in
    let* user :=
      match byName with
      | Some u => ret (Some u)
      | None =>
          if negb (existsb (Z.eqb 64) email) then
            try_catch
              (ask (GetUserByUsername trimmedInput)
                 (fun h => getByUsername chat h trimmedInput))
              (fun _ => ret None)
          else ret None
      end in
    match user with
    | Some u =>
        try_catch
          (perform chat (AddMember (room_id discussion) (username u) appUser))
          (fun _ => ret tt)
    | None => ret tt
    end.

Fixpoint forEach {A} (l : list A) (body : A -> M unit) : M unit :=
  match l with
  | [] => ret tt
  | x :: rest => body x ;; forEach rest body
  end.

(** [addAuthorsToDiscussion(discussion, parentRoom, authorEmails)] *)
Definition addAuthorsToDiscussion (discussion parentRoom : IRoom)
    (authorEmails : list jsstring) : M unit :=
  let* appUser := ask GetAppUser (getAppUser chat) in
  match appUser with
  | None => ret tt
  | Some appUser =>
      let* members :=
        ask (GetMembers (room_id parentRoom))
            (fun h => getMembers chat h (room_id parentRoom)) in
      forEach authorEmails (addAuthor discussion appUser members)
  end.

(** The steps of [createDiscussion] that follow the creation of the
    room [discussionId]. *)
Definition announceDiscussion (parentRoom : IRoom) (appUser : IUser)
    (discussionId : jsstring) (rfd : RFD) (rfdLink siteUrl prefix : jsstring)
  : M (option DiscussionRef) :=
  let description := buildDescription rfd rfdLink in
  let* discussion :=
    ask (GetRoomById discussionId) (fun h => getById chat h discussionId) in
  match discussion with
  | None => throw (Error (js "Discussion created but could not be retrieved"))
  | Some discussion =>
      let fullDescription :=
        description ++ nl ++ nl ++ js "📝 View ADR: " ++ rfdLink in
      setRoomDescription discussion fullDescription appUser ;;
      addAuthorsToDiscussion discussion parentRoom (authors rfd) ;;
      postMessage discussion appUser
        (js "🎉 **New " ++ prefix ++ js " Created**" ++ nl ++ nl
         ++ js "**" ++ title rfd ++ js "**" ++ nl ++ nl
         ++ STATE_DESCRIPTIONS (state rfd) ++ nl ++ nl
         ++ js "🔗 [Read the full " ++ prefix ++ js "](" ++ rfdLink ++ js ")"
         ++ nl ++ nl
         ++ js "_Authors: " ++ join (js ", ") (authors rfd) ++ js "_") ;;
      let* discussionUrl :=
        lift (buildDeepLink siteUrl (js "group/" ++ discussionId)) in
      ret (Some {| ref_id := discussionId; ref_url := discussionUrl |})
  end.

(** [createDiscussion(parentChannel, rfd, rfdLink, siteUrl, prefix)] *)
Definition createDiscussion (parentChannel : jsstring) (rfd : RFD)
    (rfdLink siteUrl prefix : jsstring) : M (option DiscussionRef) :=
  let* parentRoom :=
    ask (GetRoomByName parentChannel)
        (fun h => getByName chat h parentChannel) in
  match parentRoom with
  | None =>
      throw (Error (js "Parent channel '" ++ parentChannel ++ js "' not found"))
  | Some parentRoom =>
      let* appUser := ask GetAppUser (getAppUser chat) in
      match appUser with
      | None => throw (Error (js "App user not found"))
      | Some appUser =>
          let discussionName :=
            prefix ++ js "-" ++ id rfd ++ js ": " ++ title rfd in
          let slug :=
            slugify (toLowerCase P prefix ++ js "-" ++ id rfd ++ js "-"
                       ++ title rfd) in
          let* discussionId :=
            ask (CreateDiscussion parentRoom discussionName slug appUser)
                (fun h => finishDiscussion chat h parentRoom discussionName
                            slug appUser) in
          if falsy (Some discussionId)
          then throw (Error (js "Failed to create discussion"))
          else
            announceDiscussion parentRoom appUser discussionId rfd rfdLink
              siteUrl prefix
      end
  end.

Definition truthy {A} (o : option A) : bool :=
  match o with Some _ => true | None => false end.

(** [a.filter(x => !b.includes(x))] *)
Definition notIn (a b : list jsstring) : list jsstring :=
  List.filter (fun x => negb (includes b x)) a.

(** The steps of [updateDiscussion] that follow the three look-ups. *)
Definition applyChanges (discussion : IRoom) (appUser : IUser) (rfd : RFD)
    (rfdLink : jsstring) (changes : RFDChanges) : M unit :=
  let* parts1 :=
    match ch_state changes with
    | Some st =>
        let fullDescription :=
          buildDescription rfd rfdLink ++ nl ++ nl
            ++ js "📝 View ADR: " ++ rfdLink in
        setRoomDescription discussion fullDescription appUser ;;
        ret [js "📊 **Status changed:** " ++ STATE_DESCRIPTIONS (old st)
               ++ js " → " ++ STATE_DESCRIPTIONS (new st)]
    | None => ret []
    end in
  let parts2 :=
    match ch_title changes with
    | Some t =>
        parts1 ++ [js "📝 **Title changed:** " ++ [34] ++ old t ++ [34]
                     ++ js " → " ++ [34] ++ new t ++ [34]]
    | None => parts1
    end in
  let parts3 :=
    match ch_content changes with
    | Some true =>
        parts2 ++ [js "📄 **Content updated** - [View the latest version]("
                     ++ rfdLink ++ js ")"]
    | _ => parts2
    end in
  let* parts4 :=
    match ch_authors changes with
    | Some au =>
        let newAuthors := notIn (new au) (old au) in
        match newAuthors with
        | [] => ret parts3
        | _ :: _ =>
            let* parentRoom :=
              match parentRoom discussion with
              | Some pid => ask (GetRoomById pid) (fun h => getById chat h pid)
              | None => ret None
              end in
            match parentRoom with
            | Some pr => addAuthorsToDiscussion discussion pr newAuthors
            | None => ret tt
            end ;;
            ret (parts3 ++ [js "👤 **New authors added:** "
                              ++ join (js ", ") newAuthors])
        end
    | None => ret parts3
    end in
  let updateParts :=
    match ch_tags changes with
    | Some tg =>
        let addedTags := notIn (new tg) (old tg) in
        let removedTags := notIn (old tg) (new tg) in
        match addedTags, removedTags with
        | [], [] => parts4
        | _, _ =>
            let tagMsg0 := js "🏷️ **Tags changed:**" in
            let tagMsg1 :=
              match addedTags with
              | [] => tagMsg0
              | _ :: _ => tagMsg0 ++ js " +" ++ join (js ", +") addedTags
              end in
            let tagMsg :=
              match removedTags with
              | [] => tagMsg1
              | _ :: _ => tagMsg1 ++ js " -" ++ join (js ", -") removedTags
              end in
            parts4 ++ [tagMsg]
        end
    | None => parts4
    end in
  match updateParts with
  | [] => ret tt
  | _ :: _ =>
      postMessage discussion appUser
        (js "🔄 **ADR Updated**" ++ nl ++ nl ++ join (nl ++ nl) updateParts)
  end.

(** [updateDiscussion(discussionUrl, rfd, rfdLink, changes)] *)
Definition updateDiscussion (discussionUrl : jsstring) (rfd : RFD)
    (rfdLink : jsstring) (changes : RFDChanges) : M unit :=
  let* roomId := lift (extractRoomIdFromUrl discussionUrl) in
  if falsy roomId
  then throw (Error (js "Could not extract room ID from URL: " ++ discussionUrl))
  else
  let roomId := match roomId with Some r => r | None => [] end in
  let* discussion := ask (GetRoomById roomId) (fun h => getById chat h roomId) in
  match discussion with
  | None =>
      throw (Error (js "Discussion room with ID '" ++ roomId ++ js "' not found"))
  | Some discussion =>
  let* appUser := ask GetAppUser (getAppUser chat) in
  match appUser with
  | None => throw (Error (js "App user not found"))
  | Some appUser => applyChanges discussion appUser rfd rfdLink changes
  end end.

End Manager.
End DiscussionManager.

(* ===================================================================== *)
(** * settings.ts and endpoints/WebhookEndpoint.ts *)
(* ===================================================================== *)

Module WebhookEndpoint.

(** The values of the settings declared in settings.ts, as
    [getValueById] returns them (an unset string setting is ['']). *)
Record Settings := {
  parent_channel : jsstring;
  webhook_secret : jsstring;
  site_url : jsstring;
  prefix : jsstring;
  overwrite_invalid_discussion_url : bool;
  use_deep_links : bool
}.

Inductive HttpStatusCode :=
| OK | BAD_REQUEST | UNAUTHORIZED | INTERNAL_SERVER_ERROR.

Record IApiRequest := {
  x_rfd_signature : option jsstring;
  req_content : option WebhookPayload
}.

Record IApiResponse := {
  status : HttpStatusCode;
  resp_content : WebhookResponse
}.

(** [errorResponse(status, message)] *)
Definition errorResponse (st : HttpStatusCode) (msg : jsstring) : IApiResponse :=
  {| status := st;
     resp_content := {| success := false; message := None;
                        error := Some msg; resp_discussion := None |} |}.

(** [jsonResponse(content)] *)
Definition jsonResponse (c : WebhookResponse) : IApiResponse :=
  {| status := OK; resp_content := c |}.

Definition successWith (msg : option jsstring) (d : option DiscussionRef)
  : WebhookResponse :=
  {| success := true; message := msg; error := None; resp_discussion := d |}.

(** The endpoint's own [extractRoomIdFromUrl(url)]. *)
Definition extractRoomIdFromUrl (url : jsstring) : option jsstring :=
  RegExp.search RegExp.directGroupAt url.

Section Endpoint.
(** [verifySignature] as imported from lib/crypto. *)
Variable verifySignature :
  jsstring -> option jsstring -> jsstring -> result bool.
Variable P : Platform.
Variable chat : Chat.

(** [payload.rfd], a [TypeError] when the payload has none. *)
Definition rfdOf (payload : WebhookPayload) : M RFD :=
  match rfd payload with
  | Some r => ret r
  | None => throw TypeError
  end.

(** [handleCreated(payload, parentChannel, siteUrl, prefix, ...)] *)
Definition handleCreated (payload : WebhookPayload)
    (parentChannel siteUrl prefix : jsstring) : M IApiResponse :=
  let* r := rfdOf payload in
  let rfdId := id r in
  if negb (falsy (discussion r)) then
    let url := match discussion r with Some u => u | None => [] end in
    ret (jsonResponse
           (successWith (Some (js "Discussion already exists"))
              (Some {| ref_id := match extractRoomIdFromUrl url with
                                 | Some i => i
                                 | None => []
                                 end;
                       ref_url := url |})))
  else
  let* existingDiscussion := DiscussionStore.getDiscussion chat rfdId in
  match existingDiscussion with
  | Some existing =>
      ret (jsonResponse
             (successWith
                (Some (js "Discussion already exists (from persistence)"))
                (Some {| ref_id := roomId existing;
                         ref_url := roomUrl existing |})))
  | None =>
  let* discussion :=
    DiscussionManager.createDiscussion P chat parentChannel r (link payload)
      siteUrl prefix in
  match discussion with
  | None =>
      ret (errorResponse INTERNAL_SERVER_ERROR
             (js "Failed to create discussion"))
  | Some d =>
      DiscussionStore.storeDiscussion chat rfdId (ref_id d) (ref_url d) ;;
      ret (jsonResponse
             (successWith None
                (Some {| ref_id := ref_id d; ref_url := ref_url d |})))
  end end.

(** [handleUpdated(payload, ..., parentChannel, siteUrl, prefix, ...)] *)
Definition handleUpdated (payload : WebhookPayload)
    (parentChannel siteUrl prefix : jsstring) : M IApiResponse :=
  let* r := rfdOf payload in
  let rfdId := id r in
  let* discussionUrl :=
    if falsy (discussion r) then
      let* existingDiscussion := DiscussionStore.getDiscussion chat rfdId in
      match existingDiscussion with
      | Some existing => ret (Some (roomUrl existing))
      | None => ret (discussion r)
      end
    else ret (discussion r) in
  if falsy discussionUrl then
    let* discussion :=
      DiscussionManager.createDiscussion P chat parentChannel r (link payload)
        siteUrl prefix in
    match discussion with
    | None =>
        ret (errorResponse INTERNAL_SERVER_ERROR
               (js "Failed to create discussion"))
    | Some d =>
        DiscussionStore.storeDiscussion chat rfdId (ref_id d) (ref_url d) ;;
        ret (jsonResponse
               (successWith None
                  (Some {| ref_id := ref_id d; ref_url := ref_url d |})))
    end
  else
  let url := match discussionUrl with Some u => u | None => [] end in
  (* payload.rfd.discussion = discussionUrl *)
  let r' :=
    {| id := id r; title := title r; authors := authors r; state := state r;
       discussion := Some url; tags := tags r; content := content r;
       contentMD := contentMD r; createdAt := createdAt r;
       modifiedAt := modifiedAt r |} in
  match changes payload with
  | None =>
      ret (jsonResponse (successWith (Some (js "No changes to process")) None))
  | Some ch =>
      DiscussionManager.updateDiscussion P chat url r' (link payload) ch ;;
      ret (jsonResponse (successWith None None))
  end.

(** [error instanceof Error ? error.message : 'Internal error'] *)
Definition messageOf (e : exn) : jsstring :=
  match e with
  | Error m => m
  | _ => builtinMessage P e
  end.

(** [post(request, endpoint, read, modify, http, persis)].
    [serverSiteUrl] is the outcome of reading the server setting
    [Site_Url]. *)
Definition post (settings : Settings) (serverSiteUrl : result jsstring)
    (request : IApiRequest) : M IApiResponse :=
  try_catch
    (let webhookSecret := webhook_secret settings in
     let parentChannel := parent_channel settings in
     let siteUrlOverride := site_url settings in
     let prefix :=
       match prefix settings with [] => js "RFD" | p => p end in
     if falsy (Some webhookSecret) then
       ret (errorResponse INTERNAL_SERVER_ERROR
              (js "Webhook secret not configured"))
     else if falsy (Some parentChannel) then
       ret (errorResponse INTERNAL_SERVER_ERROR
              (js "Parent channel not configured"))
     else
     let signature := x_rfd_signature request in
     let bodyString := JSON_stringify P (req_content request) in
     let* verified := lift (verifySignature bodyString signature webhookSecret) in
     if negb verified then
       ret (errorResponse UNAUTHORIZED (js "Invalid signature"))
     else
     match req_content request with
     | None => ret (errorResponse BAD_REQUEST (js "Invalid payload"))
     | Some payload =>
     if falsy (event payload) || negb (DiscussionManager.truthy (rfd payload))
     then ret (errorResponse BAD_REQUEST (js "Invalid payload"))
     else
     let siteUrl :=
       if falsy (Some siteUrlOverride) then
         match serverSiteUrl with
         | Ok s => s
         | Throw _ => js "https://chat.example.com"
         end
       else siteUrlOverride in
     let ev := match event payload with Some e => e | None => [] end in
     if str_eqb ev (js "rfd.created") then
       handleCreated payload parentChannel siteUrl prefix
     else if str_eqb ev (js "rfd.updated") then
       handleUpdated payload parentChannel siteUrl prefix
     else
       ret (errorResponse BAD_REQUEST (js "Unknown event type: " ++ ev))
     end)
    (fun e => ret (errorResponse INTERNAL_SERVER_ERROR (messageOf e))).

End Endpoint.
End WebhookEndpoint.

(* ===================================================================== *)
(** * A sequence of deliveries, and fixtures for the host *)
(* ===================================================================== *)

Module Deliveries.

Record Delivery := {
  d_settings : WebhookEndpoint.Settings;
  d_serverSiteUrl : result jsstring;
  d_request : WebhookEndpoint.IApiRequest
}.

(** The world after the endpoint has served the requests one after the
    other. *)
Fixpoint serve (verifySignature : jsstring -> option jsstring -> jsstring
                                  -> result bool)
    (P : Platform) (chat : Chat) (ds : list Delivery) (w : World) : World :=
  match ds with
  | [] => w
  | d :: rest =>
      serve verifySignature P chat rest
        (snd (WebhookEndpoint.post verifySignature P chat (d_settings d)
                (d_serverSiteUrl d) (d_request d) w))
  end.

(** Number of calls of a given kind. *)
Definition countCalls (f : Call -> bool) (tr : list Call) : nat :=
  length (List.filter f tr).

Definition isCreateDiscussion (c : Call) : bool :=
  match c with CreateDiscussion _ _ _ _ => true | _ => false end.

Definition isUpdateByAssociation (c : Call) : bool :=
  match c with UpdateByAssociation _ _ => true | _ => false end.

(** Calls that change the chat platform or the store, as opposed to
    look-ups. *)
Definition isEffect (c : Call) : bool :=
  match c with
  | CreateDiscussion _ _ _ _ | SetRoomDescription _ _ _ | AddMember _ _ _
  | PostMessage _ _ _ | UpdateByAssociation _ _ => true
  | _ => false
  end.

(** Calls that neither create a discussion nor write to the store. *)
Definition notCreateNorStore (c : Call) : bool :=
  negb (isCreateDiscussion c || isUpdateByAssociation c).

Definition notStore (c : Call) : bool := negb (isUpdateByAssociation c).

Definition isLookup (c : Call) : bool := negb (isEffect c).

(** [m] leaves the store as it is and makes only calls accepted by
    [ok]. *)
Definition quiet {A} (ok : Call -> bool) (m : M A) : Prop :=
  forall w,
    persistence (snd (m w)) = persistence w
    /\ exists tr, calls (snd (m w)) = calls w ++ tr /\ forallb ok tr = true.

(** Every stored record carries a discussion URL. *)
Definition storedUrls (m : gmap jsstring StoredDiscussion) : Prop :=
  forall k d, m !! k = Some d -> roomUrl d <> [].

(** A ChangeSet with every field absent or false. *)
Definition emptyChangeSet (ch : RFDChanges) : bool :=
  match ch_title ch, ch_state ch, ch_authors ch, ch_tags ch,
        ch_discussion ch, ch_content ch with
  | None, None, None, None, None, (None | Some false) => true
  | _, _, _, _, _, _ => false
  end.

End Deliveries.

Module Fixtures.

Definition asciiLower (s : jsstring) : jsstring :=
  map (fun c => if isUpper c then c + 32 else c) s.

Definition isSpace (c : Z) : bool := existsb (Z.eqb c) [32; 9; 10; 13].

Definition asciiTrim (s : jsstring) : jsstring :=
  rev (RegExp.dropWhile isSpace (rev (RegExp.dropWhile isSpace s))).

Fixpoint splitOn (sep : Z) (s : jsstring) : list jsstring :=
  match s with
  | [] => [[]]
  | c :: t =>
      let r := splitOn sep t in
      if c =? sep then [] :: r
      else match r with
           | x :: xs => (c :: x) :: xs
           | [] => [[c]]
           end
  end.

(** A parser for [http(s)://host/path?name=value&...], enough for the
    examples below; it stands in for the URL parser of the runtime. *)
Definition simpleURL (s : jsstring) : option URL :=
  let afterScheme :=
    match RegExp.stripPrefix (js "https://") s with
    | Some r => Some r
    | None => RegExp.stripPrefix (js "http://") s
    end in
  match afterScheme with
  | Some r =>
      match RegExp.nonEmpty (RegExp.takeWhile (RegExp.noneOf [47; 63; 35]) r) with
      | Some h =>
          let query :=
            RegExp.takeWhile (RegExp.noneOf [35])
              (skipn 1 (RegExp.dropWhile (RegExp.noneOf [63]) r)) in
          let pair seg :=
            (RegExp.takeWhile (RegExp.noneOf [61]) seg,
             skipn 1 (RegExp.dropWhile (RegExp.noneOf [61]) seg)) in
          Some {| host := asciiLower h;
                  searchParams :=
                    match query with
                    | [] => []
                    | _ :: _ => map pair (splitOn 38 query)
                    end |}
      | None => None
      end
  | None => None
  end.

Definition platform : Platform :=
  {| URL_parse := simpleURL;
     toLowerCase := asciiLower;
     trim := asciiTrim;
     JSON_stringify := fun _ => js "{}";
     builtinMessage := fun e =>
       match e with
       | RangeError => js "Offset is outside the bounds of the DataView"
       | TypeError => js "Invalid URL"
       | URIError => js "URI malformed"
       | Error m => m
       end |}.

Definition bot : IUser :=
  {| username := js "rfd-discussions.bot"; emails := None |}.

Definition twoDigits (n : nat) : jsstring :=
  [48 + Z.of_nat (n / 10) mod 10; 48 + Z.of_nat n mod 10].

(** A chat platform on which every call succeeds; a new discussion gets
    an id made from the number of calls so far, and the clock advances
    with every call. *)
Definition chat : Chat :=
  {| getByName := fun _ name =>
       Ok (Some {| room_id := js "PARENT"; slugifiedName := name;
                   parentRoom := None |});
     getById := fun _ i =>
       Ok (Some {| room_id := i; slugifiedName := i;
                   parentRoom := Some (js "PARENT") |});
     getAppUser := fun _ => Ok (Some bot);
     getByUsername := fun _ _ => Ok None;
     getMembers := fun _ _ => Ok [];
     finishDiscussion := fun h _ _ _ _ =>
       Ok (js "ROOM" ++ twoDigits (length h));
     rejects := fun _ _ => None;
     toISOString_now := fun h =>
       js "2026-02-18T22:12:" ++ twoDigits (length h) ++ js ".000Z" |}.

Definition emptyWorld : World := {| persistence := ∅; calls := [] |}.

Definition sampleRfd (ref : option jsstring) : RFD :=
  {| id := js "0042"; title := js "Implement caching layer";
     authors := [js "alice@example.com"]; state := ideation;
     discussion := ref; tags := [js "performance"];
     content := js "<p>...</p>"; contentMD := js "# Overview";
     createdAt := js "2026-02-18T22:12:27Z";
     modifiedAt := js "2026-02-18T22:12:27Z" |}.

Definition noChanges : RFDChanges :=
  {| ch_title := None; ch_state := None; ch_authors := None;
     ch_tags := None; ch_discussion := None; ch_content := None |}.

Definition samplePayload (ev : string) (ref : option jsstring)
    (ch : option RFDChanges) : WebhookPayload :=
  {| event := Some (js ev); timestamp := js "2026-02-18T22:12:27Z";
     rfd := Some (sampleRfd ref);
     link := js "https://adrs.example.com/rfd/0042"; changes := ch |}.

Definition sampleSettings (secret : string) (overwrite : bool)
  : WebhookEndpoint.Settings :=
  {| WebhookEndpoint.parent_channel := js "adrs";
     WebhookEndpoint.webhook_secret := js secret;
     WebhookEndpoint.site_url := js "https://chat.example.com";
     WebhookEndpoint.prefix := js "RFD";
     WebhookEndpoint.overwrite_invalid_discussion_url := overwrite;
     WebhookEndpoint.use_deep_links := true |}.

Definition stateChange : RFDChanges :=
  {| ch_title := None;
     ch_state := Some {| old := ideation; new := discussion_state |};
     ch_authors := None; ch_tags := None; ch_discussion := None;
     ch_content := None |}.

Definition siteUrl : jsstring := js "https://chat.example.com".

Definition directUrl : jsstring := js "https://chat.example.com/group/ROOM123".

(** A stored record for the sample RFD. *)
Definition sampleStored : StoredDiscussion :=
  {| rfdId := js "0042"; roomId := js "ROOM123"; roomUrl := directUrl;
     stored_createdAt := js "2026-02-18T22:12:00.000Z" |}.

Definition storedWorld : World :=
  {| persistence := <[DiscussionStore.association (js "0042") := sampleStored]> ∅;
     calls := [] |}.

(** A request signed well enough for the placeholder [verifySignature]. *)
Definition sampleDelivery (ev : string) (ch : option RFDChanges)
  : Deliveries.Delivery :=
  {| Deliveries.d_settings := sampleSettings "secret" false;
     Deliveries.d_serverSiteUrl := Ok siteUrl;
     Deliveries.d_request :=
       {| WebhookEndpoint.x_rfd_signature := Some (js "sha256=00");
          WebhookEndpoint.req_content := Some (samplePayload ev None ch) |} |}.

(** The first delivery of [rfd.created] on an empty store. *)
Definition firstCreated : result WebhookEndpoint.IApiResponse * World :=
  WebhookEndpoint.handleCreated platform chat
    (samplePayload "rfd.created" None None) (js "adrs") siteUrl (js "RFD")
    emptyWorld.

Definition firstResponse : WebhookEndpoint.IApiResponse :=
  match fst firstCreated with
  | Ok resp => resp
  | Throw e =>
      WebhookEndpoint.errorResponse WebhookEndpoint.INTERNAL_SERVER_ERROR []
  end.

(** The record that the first delivery of [rfd.created] stores. *)
Definition firstStored : StoredDiscussion :=
  {| rfdId := js "0042"; roomId := js "ROOM03";
     roomUrl :=
       js "https://go.rocket.chat/room?host=chat.example.com&path=group%2FROOM03";
     stored_createdAt := js "2026-02-18T22:12:09.000Z" |}.

End Fixtures.

(* ===================================================================== *)
(** * Vocabulary of the further properties *)
(* ===================================================================== *)

Module Shapes.

(** Elements of a [Uint8Array]. *)
Definition bytes (l : list Z) : Prop := Forall (fun b => 0 <= b < 256) l.

(** The digits [0-9a-f]. *)
Definition isLowerHexDigit (c : Z) : bool :=
  isDigit c || ((97 <=? c) && (c <=? 102)).

(** The 32-bit rotation of FIPS 180-4:
    [ROTR d x = (x >> d) | (x << (32 - d))], on 32-bit words. *)
Definition ROTR (d x : Z) : Z :=
  Z.lor (Z.shiftr x d) (ToUint32 (Z.shiftl x (32 - d))).

(** The characters a slug is made of. *)
Definition isSlugOutput (c : Z) : bool :=
  DiscussionManager.isSlugChar c || (c =? 45).

(** Two hyphens in a row. *)
Fixpoint hasDoubleHyphen (s : jsstring) : bool :=
  match s with
  | [] => false
  | c :: t =>
      match t with
      | d :: _ => ((c =? 45) && (d =? 45)) || hasDoubleHyphen t
      | [] => false
      end
  end.

(** What may follow the room id in a direct URL: nothing, a further
    path segment or a query. *)
Definition endsSegment (tail : jsstring) : bool :=
  match tail with
  | [] => true
  | c :: _ => (c =? 47) || (c =? 63)
  end.

(** What may follow the host in a site URL. *)
Definition endsHost (rest : jsstring) : bool :=
  match rest with
  | [] => true
  | c :: _ => (c =? 47) || (c =? 63) || (c =? 35)
  end.

(** The characters [encodeURIComponent] writes: the unescaped ones and
    the percent sign of an escape. *)
Definition isEncodedChar (c : Z) : bool := uriUnescaped c || (c =? 37).

End Shapes.

Module Traces.
Import Deliveries WebhookEndpoint.

(** The calls [addAuthorsToDiscussion] may make. *)
Definition isAuthorCall (c : Call) : bool :=
  match c with
  | GetAppUser | GetMembers _ | GetUserByUsername _ | AddMember _ _ _ => true
  | _ => false
  end.

Definition isAddMember (c : Call) : bool :=
  match c with AddMember _ _ _ => true | _ => false end.

Definition isPostMessage (c : Call) : bool :=
  match c with PostMessage _ _ _ => true | _ => false end.

Definition isSetRoomDescription (c : Call) : bool :=
  match c with SetRoomDescription _ _ _ => true | _ => false end.

(** The calls [updateDiscussion] may make. *)
Definition isUpdateCall (c : Call) : bool :=
  match c with
  | GetRoomById _ | SetRoomDescription _ _ _ | PostMessage _ _ _ => true
  | _ => isAuthorCall c
  end.

(** [m] makes at most [n] calls of the kind [f]. *)
Definition atMost {A} (f : Call -> bool) (n : nat) (m : M A) : Prop :=
  forall w,
    exists tr, calls (snd (m w)) = calls w ++ tr
               /\ (countCalls f tr <= n)%nat.

(** [m] returns whatever the collaborators answer. *)
Definition returns {A} (m : M A) : Prop :=
  forall w, exists a, fst (m w) = Ok a.

(** The changes that [updateDiscussion] reports in its message. *)
Definition reportable (ch : RFDChanges) : bool :=
  DiscussionManager.truthy (ch_state ch)
  || DiscussionManager.truthy (ch_title ch)
  || match ch_content ch with Some true => true | _ => false end
  || match ch_authors ch with
     | Some au =>
         negb (Nat.eqb (length (DiscussionManager.notIn (new au) (old au))) 0)
     | None => false
     end
  || match ch_tags ch with
     | Some tg =>
         negb (Nat.eqb (length (DiscussionManager.notIn (new tg) (old tg))) 0)
         || negb (Nat.eqb (length (DiscussionManager.notIn (old tg) (new tg))) 0)
     | None => false
     end.

(** A response whose status and [success] flag agree. *)
Definition coherent (resp : IApiResponse) : Prop :=
  (status resp = OK <-> success (resp_content resp) = true)
  /\ (status resp = OK <-> error (resp_content resp) = None).

(** What a handler leaves behind in the store [w] it started from: when
    it throws, nothing; when it returns, a coherent response and either
    nothing or the one record of the discussion that the response
    carries. *)
Definition accounted (w : World) (out : result IApiResponse * World) : Prop :=
  match out with
  | (Ok resp, w') =>
      coherent resp
      /\ (persistence w' = persistence w
          \/ exists rfdId ref at_,
               status resp = OK
               /\ resp_discussion (resp_content resp) = Some ref
               /\ persistence w'
                  = <[DiscussionStore.association rfdId :=
                        {| rfdId := rfdId; roomId := ref_id ref;
                           roomUrl := ref_url ref;
                           stored_createdAt := at_ |}]> (persistence w))
  | (Throw _, w') => persistence w' = persistence w
  end.

(** From [w] to [w'] at most one discussion was created, and a record
    was written only if one was, and then once. *)
Definition tally (w w' : World) : Prop :=
  exists tr,
    calls w' = calls w ++ tr
    /\ (((countCalls isCreateDiscussion tr <= 1)%nat
         /\ countCalls isUpdateByAssociation tr = 0%nat)
        \/ (countCalls isCreateDiscussion tr = 1%nat
            /\ countCalls isUpdateByAssociation tr = 1%nat)).

End Traces.

Module Unreliable.

(** A chat platform that answers the look-ups but refuses every room
    update, and knows one member of the parent channel. *)
Definition alice : IUser :=
  {| username := js "alice"; emails := Some [js "alice@example.com"] |}.

Definition chat : Chat :=
  {| getByName := getByName Fixtures.chat;
     getById := getById Fixtures.chat;
     getAppUser := getAppUser Fixtures.chat;
     getByUsername := fun _ _ => Throw (Error (js "User not found"));
     getMembers := fun _ _ => Ok [alice];
     finishDiscussion := finishDiscussion Fixtures.chat;
     rejects := fun _ c =>
       match c with
       | AddMember _ _ _ | SetRoomDescription _ _ _ =>
           Some (Error (js "error-not-allowed"))
       | _ => None
       end;
     toISOString_now := toISOString_now Fixtures.chat |}.

(** A URL parser that, like the runtime's, rejects a URL with a space
    in it. *)
Definition platform : Platform :=
  {| URL_parse := fun s =>
       if existsb (Z.eqb 32) s then None else URL_parse Fixtures.platform s;
     toLowerCase := toLowerCase Fixtures.platform;
     trim := trim Fixtures.platform;
     JSON_stringify := JSON_stringify Fixtures.platform;
     builtinMessage := builtinMessage Fixtures.platform |}.

End Unreliable.

(* ===================================================================== *)
(** * Facts about lib/crypto.ts *)
(* ===================================================================== *)

(** Linear arithmetic with [/] and [mod] by constants. *)
Ltac zlia := Z.to_euclidean_division_equations; lia.

Section CryptoFacts.
Import Crypto.

Lemma len_nonneg {A} (l : list A) : 0 <= len l.
Proof. unfold len. lia. Qed.

Lemma len_app {A} (l1 l2 : list A) : len (l1 ++ l2) = len l1 + len l2.
Proof. unfold len. rewrite length_app. lia. Qed.

(** The padding arithmetic: eight times [totalLength] is seven more than
    a multiple of 512. *)
Lemma padding_bits (n : Z) :
  0 <= n ->
  let paddingLength := Z.rem ((448 - Z.rem (n * 8 + 1) 512) + 512) 512 in
  exists m, 1 <= m /\ n * 8 + 8 + paddingLength + 64 = 512 * m + 7
            /\ n + 9 <= 64 * m.
Proof.
  intros Hn paddingLength. subst paddingLength.
  rewrite (Z.rem_mod_nonneg (n * 8 + 1) 512) by lia.
  rewrite Z.rem_mod_nonneg by zlia.
  exists ((n * 8 + 72 + (448 - (n * 8 + 1) mod 512 + 512) mod 512) / 512).
  zlia.
Qed.

Lemma totalLength_value (n pl m : Z) :
  n * 8 + 8 + pl + 64 = 512 * m + 7 ->
  (inject_Z n + 1 + inject_Z pl / 8 + 8 == inject_Z (64 * m) + (7 # 8))%Q.
Proof.
  intros H. unfold Qeq, Qplus, Qdiv, Qmult, Qinv, inject_Z. simpl. lia.
Qed.

Lemma Qtrunc_comp (p q : Q) : (p == q)%Q -> Qtrunc p = Qtrunc q.
Proof.
  intros E. unfold Qtrunc.
  rewrite (Qleb_comp 0%Q 0%Q (Qeq_refl 0%Q) p q E).
  destruct (Qle_bool 0 q).
  - now apply Qfloor_comp.
  - now apply Qceiling_comp.
Qed.

Lemma Qtrunc_eighths (k : Z) (j : positive) :
  0 <= k -> (j < 8)%positive -> Qtrunc (inject_Z k + (Z.pos j # 8)) = k.
Proof.
  intros Hk Hj. unfold Qtrunc.
  assert (Qle_bool 0 (inject_Z k + (Z.pos j # 8)) = true) as ->.
  { apply Qle_bool_iff. unfold Qle, Qplus, inject_Z. simpl. lia. }
  unfold Qfloor, Qplus, inject_Z. simpl. zlia.
Qed.

(** The loop test [offset < totalLength] at a multiple of 64. *)
Lemma loop_test (tl : Q) (m j : Z) :
  (tl == inject_Z (64 * m) + (7 # 8))%Q ->
  j <= m ->
  negb (Qle_bool tl (inject_Z (64 * j))) = true.
Proof.
  intros E Hj.
  rewrite (Qleb_comp _ _ E _ _ (Qeq_refl _)).
  apply negb_true_iff, not_true_is_false. intros H.
  apply Qle_bool_iff in H.
  unfold Qle, Qplus, inject_Z in H. simpl in H. lia.
Qed.

Lemma ToIndex_eighths (q : Q) (k : Z) :
  (q == inject_Z k + (7 # 8))%Q -> 0 <= k -> ToIndex q = Ok k.
Proof.
  intros E Hk. unfold ToIndex.
  rewrite (Qtrunc_comp _ _ E), (Qtrunc_eighths k 7) by (lia || reflexivity).
  destruct (Z.ltb_spec k 0); [lia | reflexivity].
Qed.

Lemma length_bytesOfUint32 (v : Z) : length (bytesOfUint32 v) = 4%nat.
Proof. reflexivity. Qed.

Lemma setUint32_ok (buf : list Z) (off v : Z) :
  0 <= off -> off + 4 <= len buf ->
  exists buf', setUint32 buf off v = Ok buf' /\ len buf' = len buf.
Proof.
  intros H0 H1. unfold setUint32.
  destruct (Z.ltb_spec off 0); [lia |].
  destruct (Z.ltb_spec (len buf) (off + 4)); [lia |]. cbn [orb].
  eexists; split; [reflexivity |].
  unfold len in *.
  rewrite !length_app, length_firstn, length_skipn, length_bytesOfUint32. lia.
Qed.

(** Shape of the padded message: [64 * m] bytes, while [totalLength]
    is [64 * m + 7/8]. *)
Lemma padMessage_shape (data : list Z) :
  exists m tl padded,
    padMessage data = Ok (tl, padded) /\ 1 <= m
    /\ (tl == inject_Z (64 * m) + (7 # 8))%Q /\ len padded = 64 * m.
Proof.
  unfold padMessage.
  destruct (padding_bits (len data) (len_nonneg data)) as (m & Hm & Hbits & Hfit).
  pose proof (totalLength_value _ _ _ Hbits) as Htl.
  set (tl := (inject_Z (len data) + 1 + _ + 8)%Q) in *.
  rewrite (ToIndex_eighths tl (64 * m)) by (assumption || lia). cbn [JS.bind].
  assert ((tl - 4 == inject_Z (64 * m - 4) + (7 # 8))%Q) as Hoff.
  { rewrite Htl. unfold Qeq, Qminus, Qplus, Qopp, inject_Z. simpl. lia. }
  rewrite (ToIndex_eighths _ _ Hoff) by lia. cbn [JS.bind].
  set (padded := firstn _ _).
  assert (len padded = 64 * m) as Hlen.
  { unfold padded, len in *.
    rewrite length_firstn, length_app, length_map. cbn [app length].
    rewrite repeat_length. lia. }
  destruct (setUint32_ok padded (64 * m - 4) (len data * 8)) as (buf' & -> & Hlen');
    [lia | lia |]. cbn [JS.bind].
  exists m, tl, buf'. repeat split; try assumption; lia.
Qed.

Lemma readWords_ok (view : list Z) (offset : Z) (n : nat) (i : Z) :
  0 <= offset + i * 4 -> offset + (i + Z.of_nat n) * 4 <= len view ->
  exists ws, readWords view offset i n = Ok ws.
Proof.
  revert i. induction n as [| n IH]; intros i H0 H1; simpl.
  - eexists; reflexivity.
  - unfold getUint32.
    destruct (Z.ltb_spec (offset + i * 4) 0); [lia |].
    destruct (Z.ltb_spec (len view) (offset + i * 4 + 4)); [lia |].
    cbn [orb JS.bind].
    destruct (IH (i + 1)) as (ws & ->); [lia | lia |]. cbn [JS.bind].
    eexists; reflexivity.
Qed.

Lemma processBlock_ok (view : list Z) (offset : Z) (H : regs) :
  0 <= offset -> offset + 64 <= len view ->
  exists H', processBlock view offset H = Ok H'.
Proof.
  intros H0 H1. unfold processBlock.
  destruct (readWords_ok view offset 16 0) as (ws & ->); [lia | lia |].
  cbn [JS.bind]. eexists; reflexivity.
Qed.

(** A block that starts at the end of the buffer cannot be read. *)
Lemma processBlock_out_of_bounds (view : list Z) (offset : Z) (H : regs) :
  len view < offset + 4 -> processBlock view offset H = Throw RangeError.
Proof.
  intros Hoob. unfold processBlock. cbn [readWords]. unfold getUint32.
  replace (offset + 0 * 4) with offset by lia.
  destruct (Z.ltb_spec (len view) (offset + 4)); [| lia].
  rewrite orb_true_r. reflexivity.
Qed.

(** The block loop runs once more than there are blocks. *)
Lemma blockLoop_throws (tl : Q) (view : list Z) (m : Z) :
  (tl == inject_Z (64 * m) + (7 # 8))%Q -> len view = 64 * m ->
  forall (k fuel : nat) (j : Z) (H : regs),
    0 <= j -> j + Z.of_nat k = m -> (k < fuel)%nat ->
    blockLoop fuel tl view (64 * j) H = Throw RangeError.
Proof.
  intros Htl Hlen. induction k as [| k IH]; intros fuel j H Hj Hk Hfuel.
  - destruct fuel as [| fuel]; [lia |]. cbn [blockLoop].
    rewrite (loop_test tl m j Htl) by lia.
    rewrite processBlock_out_of_bounds by lia. reflexivity.
  - destruct fuel as [| fuel]; [lia |]. cbn [blockLoop].
    rewrite (loop_test tl m j Htl) by lia.
    destruct (processBlock_ok view (64 * j) H) as (H' & ->); [lia | lia |].
    cbn [JS.bind]. replace (64 * j + 64) with (64 * (j + 1)) by lia.
    apply IH; lia.
Qed.

(** [sha256Bytes] never returns: whatever the input, the pass of the
    block loop at [offset = padded.length] reads outside the buffer. *)
Lemma sha256Bytes_throws (data : list Z) :
  sha256Bytes data = Throw RangeError.
Proof.
  unfold sha256Bytes.
  destruct (padMessage_shape data) as (m & tl & padded & -> & Hm & Htl & Hlen).
  cbn [JS.bind fst snd]. unfold hashBlocks.
  rewrite (blockLoop_throws tl padded m Htl Hlen (Z.to_nat m) _ 0);
    [reflexivity | lia | lia |].
  unfold len in Hlen. lia.
Qed.

(** With the loop bounded by the length of the padded buffer, the same
    padding and the same block function give the FIPS 180-4 digests of
    the empty message and of ["abc"]. *)
Lemma hashBlocks_vectors_with_integer_bound :
  (let! p := padMessage [] in
   let! d := hashBlocks (inject_Z (len (snd p))) (snd p) in
   Ok (bytesToHex d))
  = Ok (js "e3b0c44298fc1c149afbf4c8996fb92427ae41e4649b934ca495991b7852b855")
  /\
  (let! p := padMessage (stringToBytes (js "abc")) in
   let! d := hashBlocks (inject_Z (len (snd p))) (snd p) in
   Ok (bytesToHex d))
  = Ok (js "ba7816bf8f01cfea414140de5dae2223b00361a396177a9cb410ff61f20015ad").
Proof. split; vm_compute; reflexivity. Qed.

Lemma hmacSha256_throws (message key : jsstring) :
  hmacSha256 message key = Throw RangeError.
Proof.
  unfold hmacSha256.
  destruct (_ <=? _)%nat; cbn [JS.bind]; rewrite !sha256Bytes_throws;
    reflexivity.
Qed.

(** ** [timingSafeEqual] *)



Lemma ToInt32_small (x : Z) : - 2 ^ 31 <= x < 2 ^ 31 -> ToInt32 x = x.
Proof. intros H. unfold ToInt32. zlia. Qed.

Lemma lor_16bit (x y : Z) :
  0 <= x < 65536 -> 0 <= y < 65536 -> 0 <= Z.lor x y < 65536.
Proof.
  intros Hx Hy. split; [apply Z.lor_nonneg; lia |].
  destruct (Z.eq_dec (Z.lor x y) 0) as [-> | Hne]; [lia |].
  change 65536 with (2 ^ 16). apply Z.log2_lt_pow2.
  - assert (0 <= Z.lor x y) by (apply Z.lor_nonneg; lia). lia.
  - rewrite Z.log2_lor by lia.
    assert (Z.log2 x < 16).
    { destruct (Z.eq_dec x 0) as [-> | ?]; [simpl; lia |].
      apply Z.log2_lt_pow2; [lia |]. change (2 ^ 16) with 65536. lia. }
    assert (Z.log2 y < 16).
    { destruct (Z.eq_dec y 0) as [-> | ?]; [simpl; lia |].
      apply Z.log2_lt_pow2; [lia |]. change (2 ^ 16) with 65536. lia. }
    lia.
Qed.

Lemma lxor_16bit (x y : Z) :
  0 <= x < 65536 -> 0 <= y < 65536 -> 0 <= Z.lxor x y < 65536.
Proof.
  intros Hx Hy. split; [apply Z.lxor_nonneg; lia |].
  destruct (Z.eq_dec (Z.lxor x y) 0) as [-> | Hne]; [lia |].
  change 65536 with (2 ^ 16). apply Z.log2_lt_pow2.
  - assert (0 <= Z.lxor x y) by (apply Z.lxor_nonneg; lia). lia.
  - pose proof (Z.log2_lxor x y ltac:(lia) ltac:(lia)).
    assert (Z.log2 x < 16).
    { destruct (Z.eq_dec x 0) as [-> | ?]; [simpl; lia |].
      apply Z.log2_lt_pow2; [lia |]. change (2 ^ 16) with 65536. lia. }
    assert (Z.log2 y < 16).
    { destruct (Z.eq_dec y 0) as [-> | ?]; [simpl; lia |].
      apply Z.log2_lt_pow2; [lia |]. change (2 ^ 16) with 65536. lia. }
    lia.
Qed.

Lemma js_xor_16bit (x y : Z) :
  0 <= x < 65536 -> 0 <= y < 65536 ->
  js_xor x y = Z.lxor x y /\ 0 <= js_xor x y < 65536.
Proof.
  intros Hx Hy. unfold js_xor. rewrite !ToInt32_small by lia.
  split; [reflexivity | now apply lxor_16bit].
Qed.

Lemma js_or_16bit (x y : Z) :
  0 <= x < 65536 -> 0 <= y < 65536 ->
  js_or x y = Z.lor x y /\ 0 <= js_or x y < 65536.
Proof.
  intros Hx Hy. unfold js_or. rewrite !ToInt32_small by lia.
  split; [reflexivity | now apply lor_16bit].
Qed.

Lemma timingSafeEqual_loop_zero (a b : jsstring) (r : Z) (p : nat) :
  wf_jsstring a -> wf_jsstring b -> length a = length b -> 0 <= r < 65536 ->
  fst (timingSafeEqual_loop a b r p) = 0 <-> r = 0 /\ a = b.
Proof.
  intros Ha. revert b r p.
  induction Ha as [| ca a Hca Ha IH]; intros b r p Hb Hlen Hr.
  - destruct b; [| discriminate]. simpl. intuition.
  - destruct b as [| cb b]; [discriminate |].
    inversion Hb as [| ? ? Hcb Hb']; subst.
    cbn [timingSafeEqual_loop hd tl].
    destruct (js_xor_16bit ca cb Hca Hcb) as [Ex Hx].
    destruct (js_or_16bit r (js_xor ca cb) Hr Hx) as [Eo Ho].
    rewrite IH by (auto; simpl in Hlen; lia).
    rewrite Eo, Ex, Z.lor_eq_0_iff, Z.lxor_eq_0_iff.
    split.
    + intros [[-> ->] ->]. auto.
    + intros [-> E]. inversion E. auto.
Qed.

(** On strings, [timingSafeEqual] decides equality. *)
Lemma timingSafeEqual_spec (a b : jsstring) :
  wf_jsstring a -> wf_jsstring b ->
  timingSafeEqual a b = true <-> a = b.
Proof.
  intros Ha Hb. unfold timingSafeEqual, timingSafeEqual_cost.
  destruct (Nat.eqb_spec (length a) (length b)) as [Hlen | Hlen]; cbn [negb].
  - pose proof (timingSafeEqual_loop_zero a b 0 0 Ha Hb Hlen ltac:(lia)) as Hz.
    destruct (timingSafeEqual_loop a b 0 0) as [r p]. cbn [fst] in *.
    rewrite Z.eqb_eq, Hz. intuition.
  - cbn [fst]. split; [discriminate | intros ->; contradiction].
Qed.






(** ** [verifySignature] *)

Lemma startsWith_nonempty (s p : jsstring) :
  p <> [] -> startsWith s p = true -> s <> [].
Proof. destruct p; [contradiction |]. destruct s; simpl; congruence. Qed.


Lemma verifySignature_rejects_unprefixed (body secret : jsstring)
    (signature : option jsstring) :
  match signature with
  | None => True
  | Some sig => startsWith sig (js "sha256=") = false
  end ->
  verifySignature body signature secret = Ok false.
Proof.
  destruct signature as [sig |]; [| reflexivity].
  intros H. unfold verifySignature. rewrite H, orb_true_r. reflexivity.
Qed.

Lemma verifySignature_prefixed_throws (body sig secret : jsstring) :
  startsWith sig (js "sha256=") = true ->
  verifySignature body (Some sig) secret = Throw RangeError.
Proof.
  intros H. unfold verifySignature. rewrite H.
  assert (sig <> []) as Hne by (eapply startsWith_nonempty; [| exact H]; discriminate).
  destruct sig; [contradiction |]. cbn [falsy orb negb].
  unfold computeHmacSha256. rewrite hmacSha256_throws. reflexivity.
Qed.

End CryptoFacts.

(* ===================================================================== *)
(** * Facts about discussion URLs *)
(* ===================================================================== *)

Section UrlFacts.
Import RegExp DiscussionManager.

(** Replaces every literal [js "..."] of the goal by its code units. *)
Ltac eval_js :=
  repeat match goal with
         | |- context [js ?s] =>
             let v := eval vm_compute in (js s) in
             change (js s) with v
         end.

Lemma uriUnescaped_not_reserved (c x : Z) :
  uriUnescaped c = true -> In x [47; 63; 38; 37; 58; 35] -> c <> x.
Proof.
  intros Hc Hx ->. simpl in Hx.
  repeat (destruct Hx as [<- | Hx]; [vm_compute in Hc; discriminate |]).
  contradiction.
Qed.

Lemma noneOf_unescaped (cs : list Z) (c : Z) :
  incl cs [47; 63; 38; 37; 58; 35] -> uriUnescaped c = true ->
  noneOf cs c = true.
Proof.
  intros Hincl Hc. unfold noneOf. apply negb_true_iff.
  apply not_true_is_false. intros H. apply existsb_exists in H.
  destruct H as (x & Hx & E). apply Z.eqb_eq in E. subst x.
  eapply uriUnescaped_not_reserved; eauto.
Qed.

Lemma encodeURIComponent_urlSafe (s : jsstring) :
  urlSafe s -> encodeURIComponent s = Ok s.
Proof.
  induction 1 as [| c s Hc Hs IH]; [reflexivity |].
  cbn [encodeURIComponent]. rewrite Hc, IH. reflexivity.
Qed.

Lemma decodeURIComponent_urlSafe (s : jsstring) :
  urlSafe s -> decodeURIComponent s = Ok s.
Proof.
  induction 1 as [| c s Hc Hs IH]; [reflexivity |].
  cbn [decodeURIComponent].
  destruct (Z.eqb_spec c 37) as [-> | _]; [vm_compute in Hc; discriminate |].
  cbn [negb]. rewrite IH. reflexivity.
Qed.

Lemma takeWhile_all (f : Z -> bool) (s : jsstring) :
  Forall (fun c => f c = true) s -> takeWhile f s = s.
Proof.
  induction 1 as [| c s Hc Hs IH]; [reflexivity |].
  cbn [takeWhile]. rewrite Hc, IH. reflexivity.
Qed.

Lemma urlSafe_noneOf (cs : list Z) (s : jsstring) :
  incl cs [47; 63; 38; 37; 58; 35] -> urlSafe s ->
  Forall (fun c => noneOf cs c = true) s.
Proof.
  intros Hincl Hs. eapply Forall_impl; [exact Hs |].
  intros c Hc. now apply noneOf_unescaped.
Qed.

Lemma stripPrefix_Some (p s r : jsstring) :
  stripPrefix p s = Some r -> s = p ++ r.
Proof.
  revert s. induction p as [| cp p IH]; intros s H; simpl in *.
  - now inversion H.
  - destruct s as [| cs s]; [discriminate |].
    destruct (Z.eqb_spec cs cp) as [-> | _]; [| discriminate].
    f_equal. now apply IH.
Qed.

(** A URL-safe string has no colon, hence no scheme. *)
Lemma stripPrefix_scheme_urlSafe (p s : jsstring) :
  In 58 p -> urlSafe s -> stripPrefix p s = None.
Proof.
  intros Hp Hs. destruct (stripPrefix p s) as [r |] eqn:E; [| reflexivity].
  apply stripPrefix_Some in E. subst s.
  apply Forall_app in Hs. destruct Hs as [Hs _].
  rewrite List.Forall_forall in Hs. specialize (Hs 58 Hp).
  vm_compute in Hs. discriminate.
Qed.

Lemma siteHostMatch_urlSafe (s : jsstring) :
  urlSafe s -> siteHostMatch s = match s with [] => None | _ => Some s end.
Proof.
  intros Hs. unfold siteHostMatch.
  rewrite (stripPrefix_scheme_urlSafe (js "https://") s), 
          (stripPrefix_scheme_urlSafe (js "http://") s);
    try assumption; try (vm_compute; tauto).
  rewrite takeWhile_all.
  - destruct s; reflexivity.
  - apply urlSafe_noneOf; [| assumption]. intros x Hx. simpl in *. tauto.
Qed.

(** The two searches skip characters that cannot start a match. *)
Lemma search_directGroup_skip (s1 s2 : jsstring) :
  Forall (fun c => c <> 47) s1 ->
  search directGroupAt (s1 ++ s2) = search directGroupAt s2.
Proof.
  induction 1 as [| c s1 Hc Hs IH]; [reflexivity |].
  cbn [app search]. unfold directGroupAt at 1. eval_js. cbn [stripPrefix].
  destruct (Z.eqb_spec c 47); [contradiction | exact IH].
Qed.

Lemma search_deepLinkPath_skip (s1 s2 : jsstring) :
  Forall (fun c => c <> 63 /\ c <> 38) s1 ->
  search deepLinkPathAt (s1 ++ s2) = search deepLinkPathAt s2.
Proof.
  induction 1 as [| c s1 [Hc1 Hc2] Hs IH]; [reflexivity |].
  cbn [app search]. unfold deepLinkPathAt at 1.
  destruct (Z.eqb_spec c 63); [contradiction |].
  destruct (Z.eqb_spec c 38); [contradiction |]. exact IH.
Qed.

Lemma urlSafe_not (x : Z) (s : jsstring) :
  In x [47; 63; 38; 37; 58; 35] -> urlSafe s -> Forall (fun c => c <> x) s.
Proof.
  intros Hx Hs. eapply Forall_impl; [exact Hs |].
  intros c Hc. now apply uriUnescaped_not_reserved.
Qed.

(** The literal parts of a deep link, by evaluation. *)
Lemma search_directGroup_linkPrefix (t : jsstring) :
  search directGroupAt (js "https://go.rocket.chat/room?host=" ++ t)
  = search directGroupAt t.
Proof. reflexivity. Qed.

Lemma search_directGroup_pathPrefix (t : jsstring) :
  search directGroupAt (js "&path=" ++ js "group%2F" ++ t)
  = search directGroupAt t.
Proof. reflexivity. Qed.

Lemma search_deepLinkPath_linkPrefix (t : jsstring) :
  search deepLinkPathAt (js "https://go.rocket.chat/room?host=" ++ t)
  = search deepLinkPathAt t.
Proof. reflexivity. Qed.

Lemma deepLinkPathAt_pathPrefix (t : jsstring) :
  deepLinkPathAt (js "&path=" ++ js "group%2F" ++ t)
  = nonEmpty (takeWhile (noneOf [38]) t).
Proof. reflexivity. Qed.

Lemma search_matchAt (f : jsstring -> option jsstring) (s m : jsstring) :
  f s = Some m -> search f s = Some m.
Proof. intros H. destruct s; simpl; now rewrite H. Qed.

(** Parsing the deep link of a non-empty URL-safe room id. *)
Lemma extractRoomIdFromUrl_deepLink (encodedHost roomId : jsstring) :
  urlSafe encodedHost -> urlSafe roomId -> roomId <> [] ->
  extractRoomIdFromUrl
    (js "https://go.rocket.chat/room?host=" ++ encodedHost
       ++ js "&path=" ++ js "group%2F" ++ roomId)
  = Ok (Some roomId).
Proof.
  intros Hh Hr Hne. unfold extractRoomIdFromUrl.
  rewrite search_directGroup_linkPrefix.
  rewrite search_directGroup_skip by (apply urlSafe_not; simpl; tauto).
  rewrite search_directGroup_pathPrefix.
  rewrite <- (app_nil_r roomId) at 1.
  rewrite search_directGroup_skip by (apply urlSafe_not; simpl; tauto).
  change (search directGroupAt []) with (@None jsstring).
  rewrite search_deepLinkPath_linkPrefix.
  rewrite search_deepLinkPath_skip.
  2:{ eapply Forall_impl; [exact Hh |]. intros c Hc. split;
      apply uriUnescaped_not_reserved; simpl; tauto. }
  rewrite (search_matchAt _ _ roomId).
  - rewrite decodeURIComponent_urlSafe by assumption. reflexivity.
  - rewrite deepLinkPathAt_pathPrefix.
    rewrite takeWhile_all
      by (apply urlSafe_noneOf; [intros x Hx; simpl in *; tauto | assumption]).
    destruct roomId; [contradiction | reflexivity].
Qed.

Lemma encodeURIComponent_group_path (roomId : jsstring) :
  urlSafe roomId ->
  encodeURIComponent (js "group/" ++ roomId) = Ok (js "group%2F" ++ roomId).
Proof.
  intros Hr. pose proof (encodeURIComponent_urlSafe roomId Hr) as E.
  eval_js. simpl. rewrite E. reflexivity.
Qed.

(** For a bare host name (no scheme, so [new URL] throws) the deep link
    is the literal prefix, the host, and the escaped path. *)
Lemma buildDeepLink_bare_host (P : Platform) (host roomId : jsstring) :
  urlSafe host -> urlSafe roomId -> URL_parse P host = None ->
  buildDeepLink P host (js "group/" ++ roomId)
  = Ok (js "https://go.rocket.chat/room?host=" ++ host
          ++ js "&path=" ++ js "group%2F" ++ roomId).
Proof.
  intros Hh Hr Hparse. unfold buildDeepLink, new_URL.
  rewrite Hparse. cbn [JS.bind catch].
  rewrite siteHostMatch_urlSafe by assumption.
  assert ((match match host with [] => None | _ :: _ => Some host end with
           | Some h => h | None => host end) = host) as ->
      by (destruct host; reflexivity).
  rewrite encodeURIComponent_urlSafe by assumption. cbn [JS.bind].
  rewrite encodeURIComponent_group_path by assumption. reflexivity.
Qed.

(** For a site URL that [new URL] accepts, the deep link names the
    host of the parsed URL. *)
Lemma buildDeepLink_parsed_host (P : Platform) (siteUrl roomId : jsstring)
    (u : URL) :
  URL_parse P siteUrl = Some u -> urlSafe (host u) -> urlSafe roomId ->
  buildDeepLink P siteUrl (js "group/" ++ roomId)
  = Ok (js "https://go.rocket.chat/room?host=" ++ host u
          ++ js "&path=" ++ js "group%2F" ++ roomId).
Proof.
  intros Hparse Hh Hr. unfold buildDeepLink, new_URL.
  rewrite Hparse. cbn [JS.bind catch].
  rewrite encodeURIComponent_urlSafe by assumption. cbn [JS.bind].
  rewrite encodeURIComponent_group_path by assumption. reflexivity.
Qed.

(** [isValidDiscussionUrl] always returns. *)
Lemma isValidDiscussionUrl_returns (P : Platform) (url siteUrl : jsstring) :
  exists b, isValidDiscussionUrl P url siteUrl = Ok b.
Proof.
  unfold isValidDiscussionUrl, new_URL.
  destruct (falsy (Some url)); [eexists; reflexivity |].
  destruct (URL_parse P url) as [u |]; cbn [JS.bind catch];
    [| eexists; reflexivity].
  destruct (URL_parse P siteUrl) as [su |]; cbn [JS.bind catch];
    [| eexists; reflexivity].
  destruct (str_eqb _ _).
  - destruct (searchParams_get u (js "host")) as [hp |]; cbn [catch];
      [| eexists; reflexivity].
    destruct (falsy (Some hp)); cbn [catch]; eexists; reflexivity.
  - destruct (str_eqb _ _); cbn [catch]; eexists; reflexivity.
Qed.

Lemma isValidDiscussionUrl_malformed (P : Platform) (url siteUrl : jsstring) :
  url = [] \/ URL_parse P url = None ->
  isValidDiscussionUrl P url siteUrl = Ok false.
Proof.
  intros [-> | Hparse]; [reflexivity |].
  unfold isValidDiscussionUrl, new_URL. rewrite Hparse.
  destruct (falsy (Some url)); reflexivity.
Qed.

End UrlFacts.

(* ===================================================================== *)
(** * Facts about the manager and the endpoint *)
(* ===================================================================== *)

Section HandlerFacts.
Import Deliveries DiscussionStore DiscussionManager WebhookEndpoint.

Variable P : Platform.
Variable chat : Chat.

Lemma mbind_Ok_inv {A B} (m : M A) (k : A -> M B) (w w' : World) (b : B) :
  mbind m k w = (Ok b, w') ->
  exists a w1, m w = (Ok a, w1) /\ k a w1 = (Ok b, w').
Proof.
  unfold mbind. destruct (m w) as [[a | e] w1]; intros H;
    [eauto | discriminate].
Qed.

(** ** Calls made and store left alone *)

Lemma quiet_ret {A} ok (a : A) : quiet ok (ret a).
Proof. intros w. split; [reflexivity |]. exists []. now rewrite app_nil_r. Qed.

Lemma quiet_throw {A} ok (e : exn) : quiet ok (@throw A e).
Proof. intros w. split; [reflexivity |]. exists []. now rewrite app_nil_r. Qed.

Lemma quiet_lift {A} ok (r : result A) : quiet ok (lift r).
Proof. intros w. split; [reflexivity |]. exists []. now rewrite app_nil_r. Qed.

Lemma quiet_ask {A} (ok : Call -> bool) c (answer : list Call -> result A) :
  ok c = true -> quiet ok (ask c answer).
Proof.
  intros Hc w. split; [reflexivity |]. exists [c]. simpl. now rewrite Hc.
Qed.

Lemma quiet_perform (ok : Call -> bool) c :
  ok c = true -> quiet ok (perform chat c).
Proof.
  intros Hc w. unfold perform.
  destruct (rejects chat (calls w) c); (split; [reflexivity |]);
    exists [c]; simpl; now rewrite Hc.
Qed.

Lemma quiet_readByAssociation (ok : Call -> bool) key :
  ok (ReadByAssociation key) = true -> quiet ok (readByAssociation chat key).
Proof.
  intros Hc w. unfold readByAssociation.
  destruct (rejects chat (calls w) _); (split; [reflexivity |]);
    exists [ReadByAssociation key]; simpl; now rewrite Hc.
Qed.

Lemma quiet_mbind {A B} ok (m : M A) (k : A -> M B) :
  quiet ok m -> (forall a, quiet ok (k a)) -> quiet ok (mbind m k).
Proof.
  intros Hm Hk w. unfold mbind.
  destruct (Hm w) as (Hp & tr & Hc & Hok).
  destruct (m w) as [[a | e] w1]; simpl in *.
  - destruct (Hk a w1) as (Hp2 & tr2 & Hc2 & Hok2).
    split; [congruence |]. exists (tr ++ tr2).
    rewrite Hc2, Hc, <- app_assoc, forallb_app, Hok, Hok2. auto.
  - split; [assumption |]. exists tr. auto.
Qed.

Lemma quiet_try_catch {A} ok (m : M A) (h : exn -> M A) :
  quiet ok m -> (forall e, quiet ok (h e)) -> quiet ok (try_catch m h).
Proof.
  intros Hm Hh w. unfold try_catch.
  destruct (Hm w) as (Hp & tr & Hc & Hok).
  destruct (m w) as [[a | e] w1]; simpl in *.
  - split; [assumption |]. exists tr. auto.
  - destruct (Hh e w1) as (Hp2 & tr2 & Hc2 & Hok2).
    split; [congruence |]. exists (tr ++ tr2).
    rewrite Hc2, Hc, <- app_assoc, forallb_app, Hok, Hok2. auto.
Qed.

Lemma quiet_forEach {A} ok (l : list A) (body : A -> M unit) :
  (forall x, quiet ok (body x)) -> quiet ok (forEach l body).
Proof.
  intros Hb. induction l as [| x l IH]; cbn [forEach].
  - apply quiet_ret.
  - apply quiet_mbind; [apply Hb | intros _; exact IH].
Qed.

Lemma quiet_weaken {A} (ok ok' : Call -> bool) (m : M A) :
  (forall c, ok c = true -> ok' c = true) -> quiet ok m -> quiet ok' m.
Proof.
  intros Himp Hm w. destruct (Hm w) as (Hp & tr & Hc & Hok).
  split; [assumption |]. exists tr. split; [assumption |].
  rewrite forallb_forall in *. auto.
Qed.

Ltac quiet_step :=
  match goal with
  | |- quiet _ (ret _) => apply quiet_ret
  | |- quiet _ (throw _) => apply quiet_throw
  | |- quiet _ (lift _) => apply quiet_lift
  | |- quiet _ (ask _ _) => apply quiet_ask; reflexivity
  | |- quiet _ (perform _ _) => apply quiet_perform; reflexivity
  | |- quiet _ (mbind _ _) => apply quiet_mbind; [| intros ?]
  | |- quiet _ (try_catch _ _) => apply quiet_try_catch; [| intros ?]
  | |- quiet _ (forEach _ _) => apply quiet_forEach; intros ?
  | |- quiet _ (match ?x with _ => _ end) => destruct x
  end.

Lemma quiet_addAuthorsToDiscussion discussion parentRoom authorEmails :
  quiet notCreateNorStore
    (addAuthorsToDiscussion P chat discussion parentRoom authorEmails).
Proof.
  unfold addAuthorsToDiscussion, addAuthor. repeat quiet_step.
Qed.

Lemma quiet_announceDiscussion parentRoom appUser discussionId r rfdLink
    siteUrl prefix :
  quiet notCreateNorStore
    (announceDiscussion P chat parentRoom appUser discussionId r rfdLink
       siteUrl prefix).
Proof.
  unfold announceDiscussion, setRoomDescription, postMessage.
  repeat first [ apply quiet_addAuthorsToDiscussion | quiet_step ].
Qed.

Lemma quiet_createDiscussion parentChannel r rfdLink siteUrl prefix :
  quiet notStore
    (createDiscussion P chat parentChannel r rfdLink siteUrl prefix).
Proof.
  unfold createDiscussion.
  repeat first
    [ apply (quiet_weaken notCreateNorStore);
      [ intros [] H; (reflexivity || discriminate)
      | apply quiet_announceDiscussion ]
    | quiet_step ].
Qed.

Lemma quiet_applyChanges discussion appUser r rfdLink ch :
  quiet notCreateNorStore
    (applyChanges P chat discussion appUser r rfdLink ch).
Proof.
  unfold applyChanges, setRoomDescription, postMessage.
  repeat first [ apply quiet_addAuthorsToDiscussion | quiet_step ].
Qed.

Lemma quiet_updateDiscussion discussionUrl r rfdLink ch :
  quiet notCreateNorStore
    (updateDiscussion P chat discussionUrl r rfdLink ch).
Proof.
  unfold updateDiscussion.
  repeat first [ apply quiet_applyChanges | quiet_step ].
Qed.

Lemma countCalls_app f (tr1 tr2 : list Call) :
  countCalls f (tr1 ++ tr2) = (countCalls f tr1 + countCalls f tr2)%nat.
Proof. unfold countCalls. now rewrite List.filter_app, length_app. Qed.

Lemma countCalls_none f g (tr : list Call) :
  (forall c, g c = true -> f c = false) ->
  forallb g tr = true -> countCalls f tr = 0%nat.
Proof.
  intros Hfg. unfold countCalls.
  induction tr as [| c tr IH]; [reflexivity |]. cbn [forallb List.filter].
  intros H. apply andb_true_iff in H. destruct H as [Hc Htr].
  rewrite (Hfg c Hc). auto.
Qed.

Lemma notCreateNorStore_create c :
  notCreateNorStore c = true -> isCreateDiscussion c = false.
Proof. destruct c; cbv; congruence. Qed.

Lemma notCreateNorStore_store c :
  notCreateNorStore c = true -> isUpdateByAssociation c = false.
Proof. destruct c; cbv; congruence. Qed.

Lemma buildDeepLink_nonempty siteUrl path l :
  buildDeepLink P siteUrl path = Ok l -> l <> [].
Proof.
  unfold buildDeepLink.
  destruct (catch _ _) as [h | e]; cbn [JS.bind]; [| discriminate].
  destruct (encodeURIComponent h) as [eh | e]; cbn [JS.bind]; [| discriminate].
  destruct (encodeURIComponent path) as [ep | e]; cbn [JS.bind];
    [| discriminate].
  intros H. injection H as <-. discriminate.
Qed.

Lemma ask_inv {A} c (answer : list Call -> result A) w a w1 :
  ask c answer w = (Ok a, w1) -> answer (calls w) = Ok a /\ w1 = record c w.
Proof. unfold ask. intros H. injection H as H1 H2. auto. Qed.

Lemma announceDiscussion_Ok parentRoom appUser discussionId r rfdLink siteUrl
    prefix w d w' :
  announceDiscussion P chat parentRoom appUser discussionId r rfdLink siteUrl
    prefix w = (Ok d, w') ->
  exists url, d = Some {| ref_id := discussionId; ref_url := url |}
              /\ url <> [].
Proof.
  unfold announceDiscussion. intros H.
  apply mbind_Ok_inv in H. destruct H as (room & w1 & _ & H).
  destruct room as [room |]; [| discriminate].
  apply mbind_Ok_inv in H. destruct H as (? & w2 & _ & H).
  apply mbind_Ok_inv in H. destruct H as (? & w3 & _ & H).
  apply mbind_Ok_inv in H. destruct H as (? & w4 & _ & H).
  apply mbind_Ok_inv in H. destruct H as (url & w5 & Hurl & H).
  unfold lift in Hurl. injection Hurl as Hurl _.
  unfold ret in H. injection H as <- _.
  exists url. split; [reflexivity |]. eapply buildDeepLink_nonempty; eauto.
Qed.

(** A successful [createDiscussion] made exactly one room-creation call,
    wrote nothing to the store, and returns a non-empty URL. *)
Lemma createDiscussion_Ok parentChannel r rfdLink siteUrl prefix w d w' :
  createDiscussion P chat parentChannel r rfdLink siteUrl prefix w
  = (Ok d, w') ->
  persistence w' = persistence w
  /\ exists ref tr,
       d = Some ref /\ ref_url ref <> []
       /\ calls w' = calls w ++ tr
       /\ countCalls isCreateDiscussion tr = 1%nat
       /\ countCalls isUpdateByAssociation tr = 0%nat.
Proof.
  unfold createDiscussion. intros H.
  apply mbind_Ok_inv in H. destruct H as (parent & w1 & H1 & H).
  apply ask_inv in H1. destruct H1 as [_ ->].
  destruct parent as [parent |]; [| discriminate].
  apply mbind_Ok_inv in H. destruct H as (user & w2 & H2 & H).
  apply ask_inv in H2. destruct H2 as [_ ->].
  destruct user as [user |]; [| discriminate].
  apply mbind_Ok_inv in H. destruct H as (did & w3 & H3 & H).
  apply ask_inv in H3. destruct H3 as [_ ->].
  destruct (falsy (Some did)); [discriminate |].
  match type of H with
  | announceDiscussion _ _ ?a ?b ?c ?d ?e ?f ?g ?w0 = _ =>
      destruct (quiet_announceDiscussion a b c d e f g w0)
        as (Hp & tr & Hc & Hok)
  end.
  pose proof (announceDiscussion_Ok _ _ _ _ _ _ _ _ _ _ H) as (url & -> & Hurl).
  rewrite H in Hp, Hc. cbn [snd] in Hp, Hc.
  split; [exact Hp |].
  eexists _, _. split; [reflexivity |]. split; [exact Hurl |].
  split.
  - rewrite Hc. cbn [record calls]. rewrite <- !app_assoc. reflexivity.
  - rewrite !countCalls_app.
    rewrite (countCalls_none isCreateDiscussion notCreateNorStore tr
               notCreateNorStore_create Hok).
    rewrite (countCalls_none isUpdateByAssociation notCreateNorStore tr
               notCreateNorStore_store Hok).
    split; reflexivity.
Qed.

(** ** The store *)

Lemma getDiscussion_run rfdId w :
  getDiscussion chat rfdId w
  = match rejects chat (calls w) (ReadByAssociation (association rfdId)) with
    | Some e => (Throw e, record (ReadByAssociation (association rfdId)) w)
    | None =>
        (Ok (persistence w !! association rfdId),
         record (ReadByAssociation (association rfdId)) w)
    end.
Proof.
  unfold getDiscussion, mbind, readByAssociation.
  destruct (rejects chat (calls w) _); [reflexivity |].
  destruct (persistence w !! association rfdId); reflexivity.
Qed.

Lemma storeDiscussion_run rfdId room url w :
  storeDiscussion chat rfdId room url w
  = let data := {| rfdId := rfdId; roomId := room; roomUrl := url;
                   stored_createdAt := toISOString_now chat (calls w) |} in
    match rejects chat (calls w)
            (UpdateByAssociation (association rfdId) data) with
    | Some e =>
        (Throw e, record (UpdateByAssociation (association rfdId) data) w)
    | None =>
        (Ok tt,
         {| persistence := <[association rfdId := data]> (persistence w);
            calls := calls w
                       ++ [UpdateByAssociation (association rfdId) data] |})
    end.
Proof. reflexivity. Qed.

(** The common tail of both handlers: create, then store. *)
Lemma create_then_store_persistence parentChannel r rfdLink siteUrl prefix
    rfdId (k1 : IApiResponse) (k2 : DiscussionRef -> IApiResponse) w :
  let w' :=
    snd (mbind (createDiscussion P chat parentChannel r rfdLink siteUrl prefix)
           (fun discussion =>
              match discussion with
              | None => ret k1
              | Some d =>
                  mbind (storeDiscussion chat rfdId (ref_id d) (ref_url d))
                        (fun _ => ret (k2 d))
              end) w) in
  persistence w' = persistence w
  \/ exists data, roomUrl data <> []
                  /\ persistence w' = <[association rfdId := data]> (persistence w).
Proof.
  cbv zeta. unfold mbind.
  destruct (quiet_createDiscussion parentChannel r rfdLink siteUrl prefix w)
    as (Hp & _).
  destruct (createDiscussion P chat parentChannel r rfdLink siteUrl prefix w)
    as [[d | e] wB] eqn:HB; cbn [snd] in *; [| now left].
  apply createDiscussion_Ok in HB.
  destruct HB as (_ & ref & tr & -> & Hurl & _).
  rewrite storeDiscussion_run. cbv zeta.
  destruct (rejects chat (calls wB) _); cbn [snd record persistence ret].
  - now left.
  - right. eexists. split; [| rewrite Hp; reflexivity]. exact Hurl.
Qed.

Lemma mbind_run {A B} (m : M A) (k : A -> M B) (w : World) :
  mbind m k w
  = match m w with
    | (Ok a, w') => k a w'
    | (Throw e, w') => (Throw e, w')
    end.
Proof. reflexivity. Qed.

Lemma handleCreated_persistence payload parentChannel siteUrl prefix w :
  let w' := snd (handleCreated P chat payload parentChannel siteUrl prefix w) in
  persistence w' = persistence w
  \/ exists key data,
       persistence w !! key = None /\ roomUrl data <> []
       /\ persistence w' = <[key := data]> (persistence w).
Proof.
  cbv zeta. unfold handleCreated, rfdOf. rewrite mbind_run.
  destruct (rfd payload) as [r |]; [| now left].
  cbn [ret]. destruct (falsy (discussion r)); cbn [negb]; [| now left].
  rewrite mbind_run, getDiscussion_run.
  destruct (rejects chat (calls w) _); [now left |].
  destruct (persistence w !! association (id r)) as [existing |] eqn:Hget;
    [now left |].
  match goal with
  | |- context [mbind (createDiscussion _ _ ?a ?b ?c ?d ?e) _ ?w0] =>
      pose proof (create_then_store_persistence a b c d e (id r)
                    (errorResponse INTERNAL_SERVER_ERROR
                       (js "Failed to create discussion"))
                    (fun d => jsonResponse
                                (successWith None
                                   (Some {| ref_id := ref_id d;
                                            ref_url := ref_url d |}))) w0) as H
  end.
  cbv zeta in H. destruct H as [H | (data & Hurl & H)].
  - left. exact H.
  - right. exists (association (id r)), data. auto.
Qed.

Lemma update_path_persistence payload url rr w0 :
  persistence
    (snd (match changes payload with
          | None =>
              ret (jsonResponse
                     (successWith (Some (js "No changes to process")) None))
          | Some ch =>
              mbind (updateDiscussion P chat url rr (link payload) ch)
                (fun _ => ret (jsonResponse (successWith None None)))
          end w0)) = persistence w0.
Proof.
  destruct (changes payload) as [ch |]; [| reflexivity].
  rewrite mbind_run.
  destruct (quiet_updateDiscussion url rr (link payload) ch w0) as (Hp & _).
  destruct (updateDiscussion P chat url rr (link payload) ch w0)
    as [[[] | e] w1]; cbn [snd ret] in *; congruence.
Qed.

Lemma handleUpdated_persistence payload parentChannel siteUrl prefix w :
  storedUrls (persistence w) ->
  let w' := snd (handleUpdated P chat payload parentChannel siteUrl prefix w) in
  persistence w' = persistence w
  \/ exists key data,
       persistence w !! key = None /\ roomUrl data <> []
       /\ persistence w' = <[key := data]> (persistence w).
Proof.
  intros Hwf. cbv zeta. unfold handleUpdated, rfdOf. rewrite mbind_run.
  destruct (rfd payload) as [r |]; [| now left].
  cbn [ret]. rewrite mbind_run.
  destruct (falsy (discussion r)) eqn:Hf.
  - rewrite mbind_run, getDiscussion_run.
    destruct (rejects chat (calls w) _); [now left |].
    destruct (persistence w !! association (id r)) as [existing |] eqn:Hget;
      cbn [ret].
    + specialize (Hwf _ _ Hget).
      destruct (roomUrl existing) as [| c url]; [contradiction |].
      cbn [falsy]. left. now rewrite update_path_persistence.
    + rewrite Hf.
      match goal with
      | |- context [mbind (createDiscussion _ _ ?a ?b ?c ?d ?e) _ ?w0] =>
          pose proof (create_then_store_persistence a b c d e (id r)
                        (errorResponse INTERNAL_SERVER_ERROR
                           (js "Failed to create discussion"))
                        (fun d => jsonResponse
                                    (successWith None
                                       (Some {| ref_id := ref_id d;
                                                ref_url := ref_url d |}))) w0)
            as H
      end.
      cbv zeta in H. destruct H as [H | (data & Hurl & H)].
      * left. exact H.
      * right. exists (association (id r)), data. auto.
  - cbn [ret]. rewrite Hf. left. now rewrite update_path_persistence.
Qed.

(** ** Created twice *)

(** What a successful first delivery of [rfd.created] did, when the
    record has no reference and the store has no entry. *)
Lemma handleCreated_first payload r parentChannel siteUrl prefix w0 resp1 w1 :
  rfd payload = Some r ->
  falsy (discussion r) = true ->
  persistence w0 !! association (id r) = None ->
  handleCreated P chat payload parentChannel siteUrl prefix w0
  = (Ok resp1, w1) ->
  exists ref stored tr,
    resp1 = jsonResponse (successWith None (Some ref))
    /\ roomId stored = ref_id ref /\ roomUrl stored = ref_url ref
    /\ persistence w1 = <[association (id r) := stored]> (persistence w0)
    /\ calls w1 = calls w0 ++ tr
    /\ countCalls isCreateDiscussion tr = 1%nat
    /\ countCalls isUpdateByAssociation tr = 1%nat.
Proof.
  intros Hr Hf Hnone H. unfold handleCreated, rfdOf in H.
  rewrite mbind_run, Hr in H. cbn [ret] in H. rewrite Hf in H. cbn [negb] in H.
  rewrite mbind_run, getDiscussion_run in H.
  destruct (rejects chat (calls w0) _); [discriminate |].
  rewrite Hnone in H. rewrite mbind_run in H.
  destruct (createDiscussion P chat parentChannel r (link payload) siteUrl
              prefix _) as [[d | e] wB] eqn:HB; [| discriminate].
  apply createDiscussion_Ok in HB.
  destruct HB as (Hp & ref & tr & -> & Hurl & Hc & Hn1 & Hn2).
  rewrite mbind_run, storeDiscussion_run in H. cbv zeta in H.
  destruct (rejects chat (calls wB) _); [discriminate |].
  cbn [ret] in H. injection H as <- <-.
  destruct ref as [rid rurl]. cbn [ref_id ref_url] in *.
  exists {| ref_id := rid; ref_url := rurl |},
    {| rfdId := id r; roomId := rid; roomUrl := rurl;
       stored_createdAt := toISOString_now chat (calls wB) |}.
  eexists.
  split; [reflexivity |]. cbn [persistence calls roomId roomUrl ref_id ref_url].
  split; [reflexivity |]. split; [reflexivity |].
  split; [rewrite Hp; reflexivity |].
  split.
  - rewrite Hc. cbn [record calls]. rewrite <- !app_assoc. reflexivity.
  - rewrite !countCalls_app, Hn1, Hn2. split; reflexivity.
Qed.

(** A delivery of [rfd.created] that finds the record in the store
    answers from the store and makes no other call. *)
Lemma handleCreated_again payload r parentChannel siteUrl prefix w stored :
  rfd payload = Some r ->
  falsy (discussion r) = true ->
  persistence w !! association (id r) = Some stored ->
  rejects chat (calls w) (ReadByAssociation (association (id r))) = None ->
  handleCreated P chat payload parentChannel siteUrl prefix w
  = (Ok (jsonResponse
           (successWith
              (Some (js "Discussion already exists (from persistence)"))
              (Some {| ref_id := roomId stored; ref_url := roomUrl stored |}))),
     record (ReadByAssociation (association (id r))) w).
Proof.
  intros Hr Hf Hsome Hrej. unfold handleCreated, rfdOf.
  rewrite mbind_run, Hr. cbn [ret]. rewrite Hf. cbn [negb].
  rewrite mbind_run, getDiscussion_run, Hrej, Hsome. reflexivity.
Qed.

(** A reference carried by the record is returned as it is. *)
Lemma handleCreated_trusts_reference payload r parentChannel siteUrl prefix
    w url :
  rfd payload = Some r -> discussion r = Some url -> url <> [] ->
  handleCreated P chat payload parentChannel siteUrl prefix w
  = (Ok (jsonResponse
           (successWith (Some (js "Discussion already exists"))
              (Some {| ref_id := match WebhookEndpoint.extractRoomIdFromUrl url
                                 with Some i => i | None => [] end;
                       ref_url := url |}))), w).
Proof.
  intros Hr Hd Hne. unfold handleCreated, rfdOf.
  rewrite mbind_run, Hr. cbn [ret]. rewrite Hd.
  destruct url; [contradiction | reflexivity].
Qed.

(** ** Updates without changes *)

Lemma applyChanges_empty discussion appUser r rfdLink ch w :
  emptyChangeSet ch = true ->
  applyChanges P chat discussion appUser r rfdLink ch w = (Ok tt, w).
Proof.
  destruct ch as [t s a g d c]. unfold emptyChangeSet. cbn.
  destruct t, s, a, g, d; try discriminate.
  destruct c as [[|] |]; try discriminate; reflexivity.
Qed.

(** With an empty ChangeSet, [updateDiscussion] only looks things up. *)
Lemma quiet_updateDiscussion_empty discussionUrl r rfdLink ch :
  emptyChangeSet ch = true ->
  quiet isLookup (updateDiscussion P chat discussionUrl r rfdLink ch).
Proof.
  intros Hch. unfold updateDiscussion.
  repeat first
    [ quiet_step
    | intros w; rewrite applyChanges_empty by assumption;
      split; [reflexivity | exists []; now rewrite app_nil_r] ].
Qed.

Lemma updateDiscussion_empty_run discussionUrl r rfdLink ch w rid room user :
  emptyChangeSet ch = true ->
  DiscussionManager.extractRoomIdFromUrl discussionUrl = Ok (Some rid) ->
  rid <> [] ->
  getById chat (calls w) rid = Ok (Some room) ->
  getAppUser chat (calls w ++ [GetRoomById rid]) = Ok (Some user) ->
  updateDiscussion P chat discussionUrl r rfdLink ch w
  = (Ok tt, {| persistence := persistence w;
               calls := calls w ++ [GetRoomById rid; GetAppUser] |}).
Proof.
  intros Hch Hx Hne Hroom Huser. unfold updateDiscussion.
  rewrite mbind_run. unfold lift. rewrite Hx.
  destruct rid as [| c rid]; [contradiction |]. cbn [falsy].
  rewrite mbind_run. unfold ask at 1. rewrite Hroom.
  rewrite mbind_run. unfold ask at 1. cbn [record calls]. rewrite Huser.
  rewrite applyChanges_empty by assumption.
  unfold record. cbn [calls persistence]. rewrite <- app_assoc. reflexivity.
Qed.

(** ** The endpoint *)

Section Post.
Variable verifySignature :
  jsstring -> option jsstring -> jsstring -> result bool.

Lemma post_persistence settings serverSiteUrl request w :
  storedUrls (persistence w) ->
  let w' := snd (post verifySignature P chat settings serverSiteUrl request w) in
  persistence w' = persistence w
  \/ exists key data,
       persistence w !! key = None /\ roomUrl data <> []
       /\ persistence w' = <[key := data]> (persistence w).
Proof.
  intros Hwf. cbv zeta. unfold post, try_catch.
  set (prefix' := match WebhookEndpoint.prefix settings with
                  | [] => js "RFD" | _ => _ end).
  destruct (falsy (Some (webhook_secret settings))); [now left |].
  destruct (falsy (Some (parent_channel settings))); [now left |].
  rewrite mbind_run. unfold lift.
  destruct (verifySignature _ _ _) as [[|] | e]; cbn [negb ret snd];
    [| now left | now left].
  destruct (req_content request) as [payload |]; [| now left].
  destruct (falsy (event payload) || negb (truthy (rfd payload)));
    [now left |].
  set (siteUrl := if falsy (Some (site_url settings)) then _ else _).
  destruct (str_eqb _ (js "rfd.created")).
  - pose proof (handleCreated_persistence payload (parent_channel settings)
                  siteUrl prefix' w) as H.
    cbv zeta in H.
    destruct (handleCreated P chat payload (parent_channel settings) siteUrl
                prefix' w) as [[resp | e] w1]; exact H.
  - destruct (str_eqb _ (js "rfd.updated")); [| now left].
    pose proof (handleUpdated_persistence payload (parent_channel settings)
                  siteUrl prefix' w Hwf) as H.
    cbv zeta in H.
    destruct (handleUpdated P chat payload (parent_channel settings) siteUrl
                prefix' w) as [[resp | e] w1]; exact H.
Qed.

(** Requests never change a stored record, and stored records keep
    carrying a URL. *)
Lemma post_keeps_records settings serverSiteUrl request w :
  storedUrls (persistence w) ->
  let w' := snd (post verifySignature P chat settings serverSiteUrl request w) in
  storedUrls (persistence w')
  /\ forall k d, persistence w !! k = Some d -> persistence w' !! k = Some d.
Proof.
  intros Hwf. cbv zeta.
  destruct (post_persistence settings serverSiteUrl request w Hwf)
    as [-> | (key & data & Hnone & Hurl & ->)].
  - auto.
  - split.
    + intros k d. destruct (decide (key = k)) as [-> | Hne].
      * rewrite lookup_insert_eq. intros [= <-]. exact Hurl.
      * rewrite lookup_insert_ne by assumption. apply Hwf.
    + intros k d Hk. destruct (decide (key = k)) as [-> | Hne].
      * congruence.
      * now rewrite lookup_insert_ne.
Qed.

Lemma serve_keeps_records ds w :
  storedUrls (persistence w) ->
  storedUrls (persistence (serve verifySignature P chat ds w))
  /\ forall k d, persistence w !! k = Some d ->
                 persistence (serve verifySignature P chat ds w) !! k = Some d.
Proof.
  revert w. induction ds as [| d0 ds IH]; intros w Hwf; cbn [serve].
  - auto.
  - destruct (post_keeps_records (d_settings d0) (d_serverSiteUrl d0)
                (d_request d0) w Hwf) as [Hwf1 Hkeep1].
    destruct (IH _ Hwf1) as [Hwf2 Hkeep2].
    split; [exact Hwf2 |]. intros k d Hk. apply Hkeep2, Hkeep1, Hk.
Qed.

(** A request that fails the signature check is answered with 401 and
    leaves no trace. *)
Lemma post_unauthorized settings serverSiteUrl request w :
  webhook_secret settings <> [] -> parent_channel settings <> [] ->
  verifySignature (JSON_stringify P (req_content request))
    (x_rfd_signature request) (webhook_secret settings) = Ok false ->
  post verifySignature P chat settings serverSiteUrl request w
  = (Ok (errorResponse UNAUTHORIZED (js "Invalid signature")), w).
Proof.
  intros Hs Hp Hv. unfold post, try_catch.
  destruct (webhook_secret settings) as [| c1 s1] eqn:E1; [contradiction |].
  destruct (parent_channel settings) as [| c2 s2] eqn:E2; [contradiction |].
  cbn [falsy]. rewrite mbind_run. unfold lift. rewrite Hv. reflexivity.
Qed.

(** Without a configured secret the answer is 500, whatever the
    request. *)
Lemma post_secret_missing settings serverSiteUrl request w :
  webhook_secret settings = [] ->
  post verifySignature P chat settings serverSiteUrl request w
  = (Ok (errorResponse INTERNAL_SERVER_ERROR
           (js "Webhook secret not configured")), w).
Proof. intros E. unfold post, try_catch. rewrite E. reflexivity. Qed.

End Post.

End HandlerFacts.

(* ===================================================================== *)
(** * The properties of the specification *)
(* ===================================================================== *)

Section Properties.
Import Deliveries DiscussionStore DiscussionManager WebhookEndpoint.

Lemma urlSafe_forallb (s : jsstring) :
  forallb uriUnescaped s = true -> urlSafe s.
Proof.
  intros H. apply List.Forall_forall. intros c Hc.
  rewrite forallb_forall in H. auto.
Qed.

Lemma storedUrls_singleton (k : jsstring) (d : StoredDiscussion) :
  roomUrl d <> [] -> storedUrls (<[k := d]> ∅).
Proof.
  intros Hd k' d'. destruct (decide (k = k')) as [-> | Hne].
  - rewrite lookup_insert_eq. intros [= <-]. exact Hd.
  - rewrite lookup_insert_ne by assumption. rewrite lookup_empty. discriminate.
Qed.

(** C1 (code defect).  [verifySignature] should return [false] for a
    signature that has the [sha256=] prefix and the wrong length.  On
    such a signature the implemented revision throws a [RangeError]
    (every call of [sha256Bytes] does, see [sha256Bytes_throws]) and the
    placeholder revision returns [true]. *)
Theorem verifySignature_on_short_signature :
  Crypto.verifySignature (js "{}") (Some (js "sha256=abc")) (js "secret")
  = Throw RangeError
  /\ CryptoPlaceholder.verifySignature (js "{}") (Some (js "sha256=abc"))
       (js "secret")
     = Ok true.
Proof.
  split; [| reflexivity].
  apply verifySignature_prefixed_throws. reflexivity.
Qed.

(** C2.  The same [rfd.created] payload delivered twice, for a record
    without a discussion reference and not yet in the store: when the
    first delivery succeeds (and the store can be read at the second),
    the second returns the same [{id, url}], and both together made one
    room-creation call and one store write, which holds that very
    reference. *)
Theorem handleCreated_twice_creates_once
    (P : Platform) (chat : Chat) (payload : WebhookPayload) (r : RFD)
    (parentChannel siteUrl prefix : jsstring) (w0 w1 : World)
    (resp1 : IApiResponse) :
  rfd payload = Some r ->
  falsy (discussion r) = true ->
  persistence w0 !! association (id r) = None ->
  handleCreated P chat payload parentChannel siteUrl prefix w0
  = (Ok resp1, w1) ->
  rejects chat (calls w1) (ReadByAssociation (association (id r))) = None ->
  exists (ref : DiscussionRef) (stored : StoredDiscussion)
         (resp2 : IApiResponse) (w2 : World) (tr : list Call),
    status resp1 = OK
    /\ resp_discussion (resp_content resp1) = Some ref
    /\ handleCreated P chat payload parentChannel siteUrl prefix w1
       = (Ok resp2, w2)
    /\ status resp2 = OK
    /\ resp_discussion (resp_content resp2) = Some ref
    /\ calls w2 = calls w0 ++ tr
    /\ countCalls isCreateDiscussion tr = 1%nat
    /\ countCalls isUpdateByAssociation tr = 1%nat
    /\ persistence w2 = <[association (id r) := stored]> (persistence w0)
    /\ roomId stored = ref_id ref /\ roomUrl stored = ref_url ref.
Proof.
  intros Hr Hf Hnone H1 Hrej.
  destruct (handleCreated_first P chat payload r parentChannel siteUrl prefix
              w0 resp1 w1 Hr Hf Hnone H1)
    as (ref & stored & tr & -> & Hid & Hurl & Hp & Hc & Hn1 & Hn2).
  assert (persistence w1 !! association (id r) = Some stored) as Hsome
      by (rewrite Hp; apply lookup_insert_eq).
  pose proof (handleCreated_again P chat payload r parentChannel siteUrl prefix
                w1 stored Hr Hf Hsome Hrej) as H2.
  exists ref, stored. eexists _, _, (tr ++ [_]).
  split; [reflexivity |]. split; [reflexivity |].
  split; [exact H2 |]. split; [reflexivity |].
  split; [cbn; rewrite Hid, Hurl; destruct ref; reflexivity |].
  split; [cbn [record calls]; rewrite Hc, <- app_assoc; reflexivity |].
  rewrite !countCalls_app, Hn1, Hn2.
  split; [reflexivity |]. split; [reflexivity |].
  split; [exact Hp |]. auto.
Qed.

(** C3 (restated).  [storeDiscussion] stamps the record with the
    current time at every write.  The endpoint writes a record only
    for a record id that has none, so whatever requests are served, a
    record that is in the store stays there unchanged: this holds from
    any store whose records carry a URL, and so for every record the
    endpoint has written since the store was empty. *)
Theorem stored_record_survives_deliveries
    (verifySignature : jsstring -> option jsstring -> jsstring -> result bool)
    (P : Platform) (chat : Chat) :
  (forall rfdId room url w,
      rejects chat (calls w)
        (UpdateByAssociation (association rfdId)
           {| rfdId := rfdId; roomId := room; roomUrl := url;
              stored_createdAt := toISOString_now chat (calls w) |}) = None ->
      persistence (snd (storeDiscussion chat rfdId room url w))
        !! association rfdId
      = Some {| rfdId := rfdId; roomId := room; roomUrl := url;
                stored_createdAt := toISOString_now chat (calls w) |})
  /\ (forall (ds : list Delivery) (w : World) (k : jsstring)
             (d : StoredDiscussion),
         storedUrls (persistence w) ->
         persistence w !! k = Some d ->
         persistence (serve verifySignature P chat ds w) !! k = Some d)
  /\ (forall (before after : list Delivery) (w0 : World) (k : jsstring)
             (d : StoredDiscussion),
         persistence w0 = ∅ ->
         persistence (serve verifySignature P chat before w0) !! k = Some d ->
         persistence
           (serve verifySignature P chat after
              (serve verifySignature P chat before w0)) !! k = Some d).
Proof.
  split; [| split].
  - intros rfdId room url w Hrej. rewrite storeDiscussion_run. cbv zeta.
    rewrite Hrej. cbn [snd persistence]. apply lookup_insert_eq.
  - intros ds w k d Hwf Hk.
    now apply (serve_keeps_records P chat verifySignature ds w Hwf).
  - intros before after w0 k d Hempty Hk.
    assert (storedUrls (persistence w0)) as Hwf0.
    { intros k' d'. rewrite Hempty, lookup_empty. discriminate. }
    destruct (serve_keeps_records P chat verifySignature before w0 Hwf0)
      as [Hwf1 _].
    now apply (serve_keeps_records P chat verifySignature after _ Hwf1).
Qed.

(** C4 (restated).  An update whose ChangeSet has every field absent
    or false, for a record with a discussion reference (its own or,
    when it has none, the stored one), changes nothing: every call it
    makes is a look-up.  The look-ups are made: when the room id can be
    read off the reference and the room and the app user are found,
    the calls are the read of the store (for the stored reference), the
    room look-up and the app-user look-up, and the answer is a
    success.  For a record with no reference at all, the update is
    handled as [rfd.created] is. *)
Theorem handleUpdated_empty_changes_only_looks_up
    (P : Platform) (chat : Chat) (payload : WebhookPayload) (r : RFD)
    (ch : RFDChanges) (parentChannel siteUrl prefix : jsstring) (w : World) :
  rfd payload = Some r ->
  changes payload = Some ch ->
  emptyChangeSet ch = true ->
  (forall url,
      discussion r = Some url -> url <> [] ->
      (let w' :=
         snd (handleUpdated P chat payload parentChannel siteUrl prefix w) in
       persistence w' = persistence w
       /\ exists tr, calls w' = calls w ++ tr /\ forallb isLookup tr = true)
      /\ forall rid room user,
           DiscussionManager.extractRoomIdFromUrl url = Ok (Some rid) ->
           rid <> [] ->
           getById chat (calls w) rid = Ok (Some room) ->
           getAppUser chat (calls w ++ [GetRoomById rid]) = Ok (Some user) ->
           handleUpdated P chat payload parentChannel siteUrl prefix w
           = (Ok (jsonResponse (successWith None None)),
              {| persistence := persistence w;
                 calls := calls w ++ [GetRoomById rid; GetAppUser] |}))
  /\ (forall d,
         falsy (discussion r) = true ->
         persistence w !! association (id r) = Some d -> roomUrl d <> [] ->
         (let w' :=
            snd (handleUpdated P chat payload parentChannel siteUrl prefix w) in
          persistence w' = persistence w
          /\ exists tr, calls w' = calls w ++ tr /\ forallb isLookup tr = true)
         /\ forall rid room user,
              rejects chat (calls w) (ReadByAssociation (association (id r)))
              = None ->
              DiscussionManager.extractRoomIdFromUrl (roomUrl d)
              = Ok (Some rid) ->
              rid <> [] ->
              getById chat
                (calls w ++ [ReadByAssociation (association (id r))]) rid
              = Ok (Some room) ->
              getAppUser chat
                (calls w ++ [ReadByAssociation (association (id r));
                             GetRoomById rid])
              = Ok (Some user) ->
              handleUpdated P chat payload parentChannel siteUrl prefix w
              = (Ok (jsonResponse (successWith None None)),
                 {| persistence := persistence w;
                    calls := calls w
                               ++ [ReadByAssociation (association (id r));
                                   GetRoomById rid; GetAppUser] |}))
  /\ (falsy (discussion r) = true ->
      persistence w !! association (id r) = None ->
      handleUpdated P chat payload parentChannel siteUrl prefix w
      = handleCreated P chat payload parentChannel siteUrl prefix w).
Proof.
  intros Hr Hch Hempty.
  assert (forall url rr w0,
            persistence
              (snd (mbind (updateDiscussion P chat url rr (link payload) ch)
                      (fun _ => ret (jsonResponse (successWith None None)))
                      w0)) = persistence w0
            /\ exists tr,
                calls
                  (snd (mbind (updateDiscussion P chat url rr (link payload) ch)
                          (fun _ => ret (jsonResponse (successWith None None)))
                          w0)) = calls w0 ++ tr
                /\ forallb isLookup tr = true) as Hupd.
  { intros url rr w0.
    apply quiet_mbind.
    - now apply quiet_updateDiscussion_empty.
    - intros _. apply quiet_ret. }
  split; [| split].
  - (* the record's own reference *)
    intros url Hd Hne.
    assert (falsy (discussion r) = false) as Hf
      by (rewrite Hd; destruct url; [contradiction | reflexivity]).
    split.
    + cbv zeta. unfold handleUpdated, rfdOf. rewrite mbind_run, Hr. cbn [ret].
      rewrite mbind_run, Hch, Hf. cbn [ret]. rewrite Hf. apply Hupd.
    + intros rid room user Hx Hrid Hroom Huser.
      unfold handleUpdated, rfdOf. rewrite mbind_run, Hr. cbn [ret].
      rewrite mbind_run, Hd, Hch.
      destruct url as [| c url]; [contradiction |]. cbn [falsy ret].
      rewrite mbind_run.
      rewrite (updateDiscussion_empty_run P chat _ _ _ _ _ rid room user);
        auto.
  - (* the stored reference *)
    intros d Hf Hd Hurl. split.
    + cbv zeta. unfold handleUpdated, rfdOf. rewrite mbind_run, Hr. cbn [ret].
      rewrite mbind_run, Hch, Hf.
      rewrite mbind_run, getDiscussion_run.
      destruct (rejects chat (calls w) _).
      * cbn [snd record persistence calls]. split; [reflexivity |].
        eexists [_]. split; reflexivity.
      * rewrite Hd. cbn [ret].
        destruct (roomUrl d) as [| c url] eqn:Eurl; [contradiction |].
        cbn [falsy].
        match goal with
        | |- context [mbind (updateDiscussion _ _ ?u ?rr _ _) _ ?w0] =>
            destruct (Hupd u rr w0) as (Hp & tr & Hc & Hok)
        end.
        split; [exact Hp |].
        exists (ReadByAssociation (association (id r)) :: tr).
        split; [| exact Hok].
        rewrite Hc. cbn [record calls]. rewrite <- app_assoc. reflexivity.
    + intros rid room user Hrej Hx Hrid Hroom Huser.
      unfold handleUpdated, rfdOf. rewrite mbind_run, Hr. cbn [ret].
      rewrite mbind_run, Hch, Hf.
      rewrite mbind_run, getDiscussion_run, Hrej, Hd. cbn [ret].
      destruct (roomUrl d) as [| c url] eqn:Eurl; [contradiction |].
      cbn [falsy]. rewrite mbind_run.
      rewrite (updateDiscussion_empty_run P chat _ _ _ _ _ rid room user);
        auto.
      * cbn [ret record persistence calls]. rewrite <- app_assoc.
        reflexivity.
      * cbn [record calls]. rewrite <- app_assoc. exact Huser.
  - (* no reference at all *)
    intros Hf Hnone. unfold handleUpdated, handleCreated, rfdOf.
    rewrite Hr. rewrite !(mbind_run (ret r)). cbn [ret]. rewrite Hf.
    cbn [negb]. rewrite !mbind_run, !getDiscussion_run.
    destruct (rejects chat (calls w) _); [reflexivity |].
    rewrite Hnone. cbn [ret]. rewrite Hf. reflexivity.
Qed.

(** C5 (code defect).  [sha256Bytes] should return the FIPS 180-4
    digests of the empty message and of ["abc"].  It returns no digest:
    [totalLength] is [64 + 7/8], the block loop makes a second pass at
    offset 64, and the read there is outside the buffer. *)
Theorem sha256Bytes_standard_vectors_throw :
  Crypto.sha256Bytes [] = Throw RangeError
  /\ Crypto.sha256Bytes (Crypto.stringToBytes (js "abc")) = Throw RangeError.
Proof. split; apply sha256Bytes_throws. Qed.


(** C7.  Room-id extraction returns [ROOM123] for the direct URL and
    for the deep link of the specification, and it inverts deep-link
    construction for every URL-safe host and every URL-safe room id:
    the link built for the site (the host is the one [new URL] finds
    in the site URL, or the site URL itself when it is a bare host
    name that [new URL] rejects) is the deep link of that host and
    room id, and extraction gives the room id back.  A room id is not
    empty: [createDiscussion] throws on an empty one before its call
    of [buildDeepLink], the only one there is. *)
Theorem extractRoomIdFromUrl_inverts_buildDeepLink (P : Platform) :
  DiscussionManager.extractRoomIdFromUrl
    (js "https://chat.example.com/group/ROOM123")
  = Ok (Some (js "ROOM123"))
  /\ DiscussionManager.extractRoomIdFromUrl
       (js "https://go.rocket.chat/room?host=chat.example.com&path=group%2FROOM123")
     = Ok (Some (js "ROOM123"))
  /\ forall siteUrl h roomId : jsstring,
       urlSafe h -> urlSafe roomId -> roomId <> [] ->
       match URL_parse P siteUrl with
       | Some u => host u = h
       | None => siteUrl = h
       end ->
       buildDeepLink P siteUrl (js "group/" ++ roomId)
       = Ok (js "https://go.rocket.chat/room?host=" ++ h
               ++ js "&path=" ++ js "group%2F" ++ roomId)
       /\ DiscussionManager.extractRoomIdFromUrl
            (js "https://go.rocket.chat/room?host=" ++ h
               ++ js "&path=" ++ js "group%2F" ++ roomId)
          = Ok (Some roomId).
Proof.
  split; [reflexivity |]. split; [reflexivity |].
  intros siteUrl h roomId Hh Hr Hne Hsite.
  split; [| now apply extractRoomIdFromUrl_deepLink].
  destruct (URL_parse P siteUrl) as [u |] eqn:Hparse.
  - subst h. now apply buildDeepLink_parsed_host.
  - subst h. now apply buildDeepLink_bare_host.
Qed.

(** C8 (code defect).  With the setting
    [overwrite_invalid_discussion_url] on, a record whose reference is
    not a discussion URL of the site should get a new discussion.  The
    endpoint never reads the setting: the reference is returned as it
    is and no room is created. *)
Theorem handleCreated_keeps_invalid_reference :
  let url := js "https://github.com/org/repo/discussions/42" in
  let settings := Fixtures.sampleSettings "secret" true in
  let payload := Fixtures.samplePayload "rfd.created" (Some url) None in
  let answer :=
    jsonResponse
      (successWith (Some (js "Discussion already exists"))
         (Some {| ref_id := []; ref_url := url |})) in
  overwrite_invalid_discussion_url settings = true
  /\ isValidDiscussionUrl Fixtures.platform url (site_url settings)
     = Ok false
  /\ handleCreated Fixtures.platform Fixtures.chat payload
       (parent_channel settings) (site_url settings)
       (WebhookEndpoint.prefix settings) Fixtures.emptyWorld
     = (Ok answer, Fixtures.emptyWorld)
  /\ post CryptoPlaceholder.verifySignature Fixtures.platform
       Fixtures.chat settings (Ok (js "https://chat.example.com"))
       {| x_rfd_signature := Some (js "sha256=00"); req_content := Some payload |}
       Fixtures.emptyWorld
     = (Ok answer, Fixtures.emptyWorld).
Proof.
  cbv zeta. split; [reflexivity |].
  split; [vm_compute; reflexivity |].
  split; vm_compute; reflexivity.
Qed.

(** C9 (restated).  When the webhook secret and the parent channel
    are configured, a request whose signature header is missing, or for
    which [verifySignature] returns [false], is answered with 401
    whatever its payload, and nothing else happens: no call is made and
    the store is as before. *)
Theorem post_rejects_unverified_before_payload
    (P : Platform) (chat : Chat) (settings : Settings)
    (serverSiteUrl : result jsstring) (request : IApiRequest) (w : World) :
  webhook_secret settings <> [] ->
  parent_channel settings <> [] ->
  (x_rfd_signature request = None
   \/ Crypto.verifySignature (JSON_stringify P (req_content request))
        (x_rfd_signature request) (webhook_secret settings) = Ok false) ->
  post Crypto.verifySignature P chat settings serverSiteUrl request w
  = (Ok (errorResponse UNAUTHORIZED (js "Invalid signature")), w).
Proof.
  intros Hs Hp Hv. apply post_unauthorized; try assumption.
  destruct Hv as [-> | Hv]; [reflexivity | exact Hv].
Qed.

(** C10.  [isValidDiscussionUrl] returns for every input, and returns
    [false] for a URL that is empty or cannot be parsed. *)
Theorem isValidDiscussionUrl_total (P : Platform) (url siteUrl : jsstring) :
  (exists b, isValidDiscussionUrl P url siteUrl = Ok b)
  /\ (url = [] \/ URL_parse P url = None ->
      isValidDiscussionUrl P url siteUrl = Ok false).
Proof.
  split.
  - apply isValidDiscussionUrl_returns.
  - apply isValidDiscussionUrl_malformed.
Qed.


(** ** Instances and counterexamples *)

Import Fixtures.

Lemma handleCreated_twice_creates_once_witness :
  exists (ref : DiscussionRef) (stored : StoredDiscussion)
         (resp2 : IApiResponse) (w2 : World) (tr : list Call),
    status firstResponse = OK
    /\ resp_discussion (resp_content firstResponse) = Some ref
    /\ handleCreated platform chat (samplePayload "rfd.created" None None)
         (js "adrs") siteUrl (js "RFD") (snd firstCreated)
       = (Ok resp2, w2)
    /\ status resp2 = OK
    /\ resp_discussion (resp_content resp2) = Some ref
    /\ calls w2 = calls emptyWorld ++ tr
    /\ countCalls isCreateDiscussion tr = 1%nat
    /\ countCalls isUpdateByAssociation tr = 1%nat
    /\ persistence w2
       = <[association (id (sampleRfd None)) := stored]> (persistence emptyWorld)
    /\ roomId stored = ref_id ref /\ roomUrl stored = ref_url ref.
Proof.
  apply (handleCreated_twice_creates_once platform chat
           (samplePayload "rfd.created" None None) (sampleRfd None)
           (js "adrs") siteUrl (js "RFD") emptyWorld (snd firstCreated)
           firstResponse).
  - reflexivity.
  - reflexivity.
  - reflexivity.
  - vm_compute. reflexivity.
  - reflexivity.
Defined.

Lemma stored_record_survives_deliveries_witness :
  persistence (snd (storeDiscussion chat (js "0042") (js "ROOM123") directUrl
                      emptyWorld))
    !! association (js "0042")
  = Some {| rfdId := js "0042"; roomId := js "ROOM123"; roomUrl := directUrl;
            stored_createdAt := toISOString_now chat (calls emptyWorld) |}
  /\ persistence
       (serve CryptoPlaceholder.verifySignature platform chat
          [sampleDelivery "rfd.updated" (Some stateChange);
           sampleDelivery "rfd.created" None]
          storedWorld)
       !! association (js "0042")
     = Some sampleStored
  /\ persistence
       (serve CryptoPlaceholder.verifySignature platform chat
          [sampleDelivery "rfd.updated" (Some stateChange)]
          (serve CryptoPlaceholder.verifySignature platform chat
             [sampleDelivery "rfd.created" None] emptyWorld))
       !! association (js "0042")
     = Some firstStored.
Proof.
  split; [| split].
  - apply (proj1 (stored_record_survives_deliveries
                    CryptoPlaceholder.verifySignature platform chat)).
    reflexivity.
  - apply (proj1 (proj2 (stored_record_survives_deliveries
                           CryptoPlaceholder.verifySignature platform chat))).
    + apply storedUrls_singleton. vm_compute. discriminate.
    + apply lookup_insert_eq.
  - apply (proj2 (proj2 (stored_record_survives_deliveries
                           CryptoPlaceholder.verifySignature platform chat))).
    + reflexivity.
    + vm_compute. reflexivity.
Defined.

(** A second write for the same record id stamps the record anew: the
    stored record is not the one of the first write. *)
Lemma storeDiscussion_second_write_resets_createdAt :
  let put := storeDiscussion chat (js "0042") (js "ROOM123") directUrl in
  let w1 := snd (put emptyWorld) in
  let w2 := snd (put w1) in
  stored_createdAt <$> (persistence w1 !! association (js "0042"))
  = Some (js "2026-02-18T22:12:00.000Z")
  /\ stored_createdAt <$> (persistence w2 !! association (js "0042"))
     = Some (js "2026-02-18T22:12:01.000Z")
  /\ persistence w2 !! association (js "0042")
     <> persistence w1 !! association (js "0042").
Proof.
  cbv zeta. split; [vm_compute; reflexivity |].
  split; [vm_compute; reflexivity |].
  vm_compute. discriminate.
Qed.

Lemma handleUpdated_empty_changes_only_looks_up_witness :
  handleUpdated platform chat
    (samplePayload "rfd.updated" (Some directUrl) (Some noChanges))
    (js "adrs") siteUrl (js "RFD") emptyWorld
  = (Ok (jsonResponse (successWith None None)),
     {| persistence := persistence emptyWorld;
        calls := calls emptyWorld ++ [GetRoomById (js "ROOM123"); GetAppUser] |})
  /\ handleUpdated platform chat
       (samplePayload "rfd.updated" None (Some noChanges))
       (js "adrs") siteUrl (js "RFD") storedWorld
     = (Ok (jsonResponse (successWith None None)),
        {| persistence := persistence storedWorld;
           calls := calls storedWorld
                      ++ [ReadByAssociation (association (id (sampleRfd None)));
                          GetRoomById (js "ROOM123"); GetAppUser] |}).
Proof.
  split.
  - apply (proj2 (proj1 (handleUpdated_empty_changes_only_looks_up platform chat
                    (samplePayload "rfd.updated" (Some directUrl)
                       (Some noChanges))
                    (sampleRfd (Some directUrl)) noChanges
                    (js "adrs") siteUrl (js "RFD") emptyWorld
                    eq_refl eq_refl eq_refl)
                   directUrl eq_refl ltac:(vm_compute; discriminate))
             (js "ROOM123")
             {| room_id := js "ROOM123"; slugifiedName := js "ROOM123";
                parentRoom := Some (js "PARENT") |} bot).
    + vm_compute. reflexivity.
    + vm_compute. discriminate.
    + reflexivity.
    + reflexivity.
  - apply (proj2 (proj1 (proj2 (handleUpdated_empty_changes_only_looks_up
                    platform chat
                    (samplePayload "rfd.updated" None (Some noChanges))
                    (sampleRfd None) noChanges
                    (js "adrs") siteUrl (js "RFD") storedWorld
                    eq_refl eq_refl eq_refl))
                   sampleStored eq_refl ltac:(vm_compute; reflexivity)
                   ltac:(vm_compute; discriminate))
             (js "ROOM123")
             {| room_id := js "ROOM123"; slugifiedName := js "ROOM123";
                parentRoom := Some (js "PARENT") |} bot).
    + reflexivity.
    + vm_compute. reflexivity.
    + vm_compute. discriminate.
    + reflexivity.
    + reflexivity.
Defined.

(** An update with an empty ChangeSet does call the collaborators: for
    a record with a reference it looks up the room and the app user;
    for a record without any it creates the discussion, announces it
    and stores it. *)
Lemma handleUpdated_empty_changes_calls_room_lookup :
  emptyChangeSet noChanges = true
  /\ calls (snd (handleUpdated platform chat
                   (samplePayload "rfd.updated" (Some directUrl)
                      (Some noChanges))
                   (js "adrs") siteUrl (js "RFD") emptyWorld))
     = [GetRoomById (js "ROOM123"); GetAppUser]
  /\ (let w' :=
        snd (handleUpdated platform chat
               (samplePayload "rfd.updated" None (Some noChanges))
               (js "adrs") siteUrl (js "RFD") emptyWorld) in
      countCalls isCreateDiscussion (calls w') = 1%nat
      /\ countCalls isEffect (calls w') = 4%nat
      /\ persistence w' !! association (js "0042") = Some firstStored).
Proof.
  split; [reflexivity |]. split; [vm_compute; reflexivity |].
  cbv zeta. split; [vm_compute; reflexivity |].
  split; vm_compute; reflexivity.
Qed.


Lemma extractRoomIdFromUrl_inverts_buildDeepLink_witness :
  (buildDeepLink platform (js "https://chat.example.com")
     (js "group/" ++ js "ROOM123")
   = Ok (js "https://go.rocket.chat/room?host=" ++ js "chat.example.com"
           ++ js "&path=" ++ js "group%2F" ++ js "ROOM123")
   /\ DiscussionManager.extractRoomIdFromUrl
        (js "https://go.rocket.chat/room?host=" ++ js "chat.example.com"
           ++ js "&path=" ++ js "group%2F" ++ js "ROOM123")
      = Ok (Some (js "ROOM123")))
  /\ buildDeepLink platform (js "chat.example.com")
       (js "group/" ++ js "ROOM123")
     = Ok (js "https://go.rocket.chat/room?host=" ++ js "chat.example.com"
             ++ js "&path=" ++ js "group%2F" ++ js "ROOM123").
Proof.
  split.
  - apply (proj2 (proj2 (extractRoomIdFromUrl_inverts_buildDeepLink
                           platform))).
    + apply urlSafe_forallb. reflexivity.
    + apply urlSafe_forallb. reflexivity.
    + vm_compute. discriminate.
    + reflexivity.
  - apply (proj2 (proj2 (extractRoomIdFromUrl_inverts_buildDeepLink
                           platform))
             (js "chat.example.com") (js "chat.example.com") (js "ROOM123")).
    + apply urlSafe_forallb. reflexivity.
    + apply urlSafe_forallb. reflexivity.
    + vm_compute. discriminate.
    + reflexivity.
Defined.

Lemma post_rejects_unverified_before_payload_witness :
  post Crypto.verifySignature platform chat (sampleSettings "secret" false)
    (Ok siteUrl) {| x_rfd_signature := None; req_content := None |} emptyWorld
  = (Ok (errorResponse UNAUTHORIZED (js "Invalid signature")), emptyWorld).
Proof.
  apply post_rejects_unverified_before_payload.
  - vm_compute. discriminate.
  - vm_compute. discriminate.
  - left. reflexivity.
Defined.

(** Without a configured secret, a request without signature header is
    answered with 500, not with 401. *)
Lemma post_without_secret_answers_500 :
  let request := {| x_rfd_signature := None; req_content := None |} in
  let answer :=
    fst (post Crypto.verifySignature platform chat (sampleSettings "" false)
           (Ok siteUrl) request emptyWorld) in
  x_rfd_signature request = None
  /\ answer = Ok (errorResponse INTERNAL_SERVER_ERROR
                    (js "Webhook secret not configured"))
  /\ answer <> Ok (errorResponse UNAUTHORIZED (js "Invalid signature")).
Proof.
  cbv zeta. split; [reflexivity |].
  split; [vm_compute; reflexivity |].
  vm_compute. discriminate.
Qed.

Lemma isValidDiscussionUrl_total_witness :
  isValidDiscussionUrl platform (js "not a url") siteUrl = Ok false.
Proof.
  apply (proj2 (isValidDiscussionUrl_total platform (js "not a url") siteUrl)).
  right. reflexivity.
Defined.

End Properties.

(* ===================================================================== *)
(** * Further properties: lib/crypto.ts *)
(* ===================================================================== *)

Section CryptoProperties.
Import Crypto Shapes.

Lemma map_ToUint8_bytes (data : list Z) : bytes data -> map ToUint8 data = data.
Proof.
  induction 1 as [| b data Hb Hdata IH]; [reflexivity |].
  cbn [map]. rewrite IH. f_equal. unfold ToUint8. zlia.
Qed.

Lemma firstn_repeat_le {A} (x : A) (k n : nat) :
  (k <= n)%nat -> firstn k (repeat x n) = repeat x k.
Proof.
  revert n. induction k as [| k IH]; intros n Hk; [reflexivity |].
  destruct n as [| n]; [lia |]. cbn [repeat firstn]. f_equal. apply IH. lia.
Qed.

(** The first bytes of [data], a marker, and a run of zeros. *)
Lemma firstn_data_marker_zeros (data : list Z) (k j : nat) :
  (k <= j)%nat ->
  firstn (length data + 1 + k) (data ++ [128] ++ repeat 0 j)
  = data ++ [128] ++ repeat 0 k.
Proof.
  intros Hk. rewrite List.firstn_app.
  rewrite List.firstn_all2 by lia. f_equal.
  replace (length data + 1 + k - length data)%nat with (S k) by lia.
  cbn [app firstn]. f_equal. now apply firstn_repeat_le.
Qed.

Lemma padding_bits_bounds (n : Z) :
  0 <= n ->
  let paddingLength := Z.rem ((448 - Z.rem (n * 8 + 1) 512) + 512) 512 in
  exists m, n * 8 + 8 + paddingLength + 64 = 512 * m + 7
            /\ n + 9 <= 64 * m < n + 73.
Proof.
  intros Hn paddingLength. subst paddingLength.
  rewrite (Z.rem_mod_nonneg (n * 8 + 1) 512) by lia.
  rewrite Z.rem_mod_nonneg by zlia.
  exists ((n * 8 + 72 + (448 - (n * 8 + 1) mod 512 + 512) mod 512) / 512).
  zlia.
Qed.

(** X1.  The padded message that [sha256Bytes] builds is the message,
    the byte [0x80], between 4 and 67 zero bytes, and the bit length in
    the last four bytes; its length is a multiple of 64. *)
Theorem padMessage_layout (data : list Z) :
  bytes data ->
  exists (totalLength : Q) (zeros : nat),
    padMessage data
    = Ok (totalLength,
          data ++ [128] ++ repeat 0 zeros ++ bytesOfUint32 (len data * 8))
    /\ (4 <= zeros < 68)%nat
    /\ (len data + 1 + Z.of_nat zeros + 4) mod 64 = 0.
Proof.
  intros Hdata. unfold padMessage.
  destruct (padding_bits_bounds (len data) (len_nonneg data))
    as (m & Hbits & Hfit).
  pose proof (len_nonneg data) as Hn.
  pose proof (totalLength_value _ _ _ Hbits) as Htl.
  set (tl := (inject_Z (len data) + 1 + _ + 8)%Q) in *.
  rewrite (ToIndex_eighths tl (64 * m)) by (assumption || lia). cbn [JS.bind].
  assert ((tl - 4 == inject_Z (64 * m - 4) + (7 # 8))%Q) as Hoff.
  { rewrite Htl. unfold Qeq, Qminus, Qplus, Qopp, inject_Z. simpl. lia. }
  rewrite (ToIndex_eighths _ _ Hoff) by lia. cbn [JS.bind].
  rewrite map_ToUint8_bytes by assumption.
  set (z := Z.to_nat (64 * m - len data - 5)).
  assert (Z.of_nat z = 64 * m - len data - 5) as Hz by (unfold z; lia).
  unfold len in *.
  replace (Z.to_nat (64 * m)) with (length data + 1 + (z + 4))%nat by lia.
  rewrite firstn_data_marker_zeros by lia.
  unfold setUint32.
  set (padded := data ++ [128] ++ repeat 0 (z + 4)).
  assert (length padded = (length data + 1 + (z + 4))%nat) as Hlen.
  { unfold padded. rewrite !length_app, repeat_length. cbn [length]. lia. }
  unfold len.
  destruct (Z.ltb_spec (64 * m - 4) 0); [lia |].
  destruct (Z.ltb_spec (Z.of_nat (length padded)) (64 * m - 4 + 4)); [lia |].
  cbn [orb JS.bind].
  exists tl, z. split; [| split; [lia | zlia]].
  do 2 f_equal.
  replace (Z.to_nat (64 * m - 4)) with (length data + 1 + z)%nat by lia.
  rewrite List.skipn_all2 by lia. rewrite app_nil_r.
  unfold padded. rewrite firstn_data_marker_zeros by lia.
  rewrite <- !app_assoc. reflexivity.
Qed.

(** X2.  [sha256Bytes] returns no digest, whatever the input: the
    block loop always makes a pass at the end of the padded buffer.
    [hmacSha256], which calls it, fails the same way for every message
    and key. *)
Theorem sha256Bytes_and_hmacSha256_always_throw :
  (forall data : list Z, sha256Bytes data = Throw RangeError)
  /\ (forall message key : jsstring,
         hmacSha256 message key = Throw RangeError).
Proof. split; [apply sha256Bytes_throws | apply hmacSha256_throws]. Qed.

Lemma wf_jsstring_forallb (s : jsstring) :
  forallb (fun c => (0 <=? c) && (c <? 65536)) s = true -> wf_jsstring s.
Proof.
  intros H. apply List.Forall_forall. intros c Hc.
  rewrite forallb_forall in H. specialize (H c Hc).
  apply andb_true_iff in H. destruct H as [H1 H2].
  apply Z.leb_le in H1. apply Z.ltb_lt in H2. lia.
Qed.

(** X3.  On strings, [timingSafeEqual] is string equality; for strings
    of different lengths it answers [false] without comparing any
    character. *)
Theorem timingSafeEqual_decides_equality (a b : jsstring) :
  wf_jsstring a -> wf_jsstring b ->
  (timingSafeEqual a b = true <-> a = b)
  /\ (length a <> length b -> timingSafeEqual_cost a b = (false, 0%nat)).
Proof.
  intros Ha Hb. split; [now apply timingSafeEqual_spec |].
  intros Hlen. unfold timingSafeEqual_cost.
  destruct (Nat.eqb_spec (length a) (length b)); [contradiction | reflexivity].
Qed.

(** X4.  [verifySignature] never accepts: a missing, empty or unprefixed
    signature gives [false], and a signature with the [sha256=] prefix
    makes it throw, for every body and secret. *)
Theorem verifySignature_never_accepts (body secret : jsstring)
    (signature : option jsstring) :
  verifySignature body signature secret
  = if match signature with
       | Some sig => startsWith sig (js "sha256=")
       | None => false
       end
    then Throw RangeError
    else Ok false.
Proof.
  destruct signature as [sig |]; [| reflexivity].
  destruct (startsWith sig (js "sha256=")) eqn:Hp.
  - now apply verifySignature_prefixed_throws.
  - now apply (verifySignature_rejects_unprefixed body secret (Some sig)).
Qed.

Lemma byteToHex_digits (b : Z) :
  0 <= b < 256 -> byteToHex b = [hexDigit (b / 16); hexDigit (b mod 16)].
Proof.
  intros Hb. unfold byteToHex.
  destruct (Z.ltb_spec b 16).
  - rewrite Z.div_small, Z.mod_small by lia. reflexivity.
  - reflexivity.
Qed.

Lemma hexDigit_lower (d : Z) :
  0 <= d < 16 -> isLowerHexDigit (hexDigit d) = true.
Proof.
  intros Hd. unfold hexDigit, isLowerHexDigit, isDigit.
  destruct (Z.ltb_spec d 10).
  - apply orb_true_iff. left. apply andb_true_iff. split; apply Z.leb_le; lia.
  - apply orb_true_iff. right. apply andb_true_iff.
    split; apply Z.leb_le; lia.
Qed.

Lemma hexDigit_injective (d d' : Z) :
  0 <= d < 16 -> 0 <= d' < 16 -> hexDigit d = hexDigit d' -> d = d'.
Proof.
  intros Hd Hd'. unfold hexDigit.
  destruct (Z.ltb_spec d 10), (Z.ltb_spec d' 10); lia.
Qed.

(** X5.  [bytesToHex] writes two lower-case hexadecimal digits per byte,
    and different byte sequences get different strings. *)
Theorem bytesToHex_two_digits_per_byte (a b : list Z) :
  bytes a -> bytes b ->
  length (bytesToHex a) = (2 * length a)%nat
  /\ forallb isLowerHexDigit (bytesToHex a) = true
  /\ (bytesToHex a = bytesToHex b -> a = b).
Proof.
  intros Ha. revert b. unfold bytesToHex.
  induction Ha as [| x a Hx Ha IH]; intros b Hb.
  - repeat split. destruct Hb as [| y b Hy Hb]; [reflexivity |].
    cbn [flat_map]. rewrite byteToHex_digits by assumption. discriminate.
  - destruct (IH [] (List.Forall_nil _)) as (Hlen & Hhex & _).
    cbn [flat_map]. rewrite byteToHex_digits by assumption.
    cbn [app length forallb]. rewrite Hlen, Hhex.
    rewrite !hexDigit_lower by zlia.
    split; [lia |]. split; [reflexivity |].
    destruct Hb as [| y b Hy Hb]; [discriminate |].
    cbn [flat_map]. rewrite byteToHex_digits by assumption.
    cbn [app]. intros E. injection E as E1 E2 E3.
    apply hexDigit_injective in E1; [| zlia | zlia].
    apply hexDigit_injective in E2; [| zlia | zlia].
    f_equal; [zlia |]. now apply (IH b Hb).
Qed.

Lemma ToUint32_ToInt32 (x : Z) : ToUint32 (ToInt32 x) = ToUint32 x.
Proof. unfold ToUint32, ToInt32. zlia. Qed.

Lemma ToUint32_lor (x y : Z) :
  ToUint32 (Z.lor x y) = Z.lor (ToUint32 x) (ToUint32 y).
Proof.
  unfold ToUint32. rewrite <- !(Z.land_ones _ 32) by lia.
  apply Z.land_lor_distr_l.
Qed.

Lemma ToUint32_idempotent (x : Z) : ToUint32 (ToUint32 x) = ToUint32 x.
Proof. unfold ToUint32. zlia. Qed.

Lemma ToUint32_shiftl (x k : Z) :
  0 <= k -> ToUint32 (Z.shiftl (ToInt32 x) k) = ToUint32 (Z.shiftl (ToUint32 x) k).
Proof.
  intros Hk. unfold ToUint32 at 1 2. rewrite !Z.shiftl_mul_pow2 by assumption.
  rewrite <- (Z.mul_mod_idemp_l (ToInt32 x)) by lia.
  rewrite <- (Z.mul_mod_idemp_l (ToUint32 x)) by lia.
  fold (ToUint32 (ToInt32 x)). fold (ToUint32 (ToUint32 x)).
  now rewrite ToUint32_ToInt32, ToUint32_idempotent.
Qed.

(** X6.  Read as an unsigned 32-bit word, [rotr(n, d)] is the rotation
    [ROTR] of FIPS 180-4 applied to the word [n]: the sign that the
    bitwise operators of JavaScript give to the result plays no part. *)
Theorem rotr_is_ROTR (n d : Z) :
  0 < d < 32 -> ToUint32 (rotr n d) = ROTR d (ToUint32 n).
Proof.
  intros Hd. unfold rotr, js_or, js_shru, js_shl, ROTR.
  rewrite !(Z.mod_small _ 32) by lia.
  rewrite ToUint32_lor, !ToUint32_ToInt32.
  rewrite (ToUint32_shiftl n (32 - d)) by lia.
  f_equal. unfold ToUint32 at 1. apply Z.mod_small.
  rewrite Z.shiftr_div_pow2 by lia.
  assert (0 <= ToUint32 n < 2 ^ 32) by (unfold ToUint32; zlia).
  assert (0 < 2 ^ d) by (apply Z.pow_pos_nonneg; lia).
  split.
  - apply Z.div_pos; lia.
  - apply Z.div_lt_upper_bound; nia.
Qed.

End CryptoProperties.

(* ===================================================================== *)
(** * Further properties: lib/DiscussionStore.ts *)
(* ===================================================================== *)

Section StoreProperties.
Import DiscussionStore.

Variable chat : Chat.

Lemma association_injective (a b : jsstring) :
  association a = association b -> a = b.
Proof.
  unfold association. intros H.
  apply app_inv_head in H. now apply app_inv_head in H.
Qed.

(** X7.  What [storeDiscussion] has written, [getDiscussion] returns:
    the record with the given room id and URL, stamped with the time of
    the write; and [hasDiscussion] answers [true]. *)
Theorem storeDiscussion_then_getDiscussion (rfdId room url : jsstring)
    (w : World) :
  let data := {| rfdId := rfdId; roomId := room; roomUrl := url;
                 stored_createdAt := toISOString_now chat (calls w) |} in
  let w1 := snd (storeDiscussion chat rfdId room url w) in
  rejects chat (calls w) (UpdateByAssociation (association rfdId) data) = None ->
  rejects chat (calls w1) (ReadByAssociation (association rfdId)) = None ->
  fst (getDiscussion chat rfdId w1) = Ok (Some data)
  /\ fst (hasDiscussion chat rfdId w1) = Ok true.
Proof.
  cbv zeta. intros Hw Hr.
  assert (persistence (snd (storeDiscussion chat rfdId room url w))
            !! association rfdId
          = Some {| rfdId := rfdId; roomId := room; roomUrl := url;
                    stored_createdAt := toISOString_now chat (calls w) |})
    as Hget.
  { rewrite storeDiscussion_run. cbv zeta. rewrite Hw.
    cbn [snd persistence]. apply lookup_insert_eq. }
  unfold hasDiscussion. rewrite mbind_run.
  rewrite getDiscussion_run, Hr, Hget. split; reflexivity.
Qed.

(** X8.  Records are kept per record id: a write for one id does not
    change what [getDiscussion] returns for another id. *)
Theorem storeDiscussion_other_record (id1 id2 room url : jsstring) (w : World) :
  let w1 := snd (storeDiscussion chat id1 room url w) in
  id1 <> id2 ->
  rejects chat (calls w1) (ReadByAssociation (association id2)) = None ->
  fst (getDiscussion chat id2 w1) = Ok (persistence w !! association id2).
Proof.
  cbv zeta. intros Hne Hr.
  rewrite getDiscussion_run, Hr. cbn [fst]. f_equal.
  rewrite storeDiscussion_run. cbv zeta.
  destruct (rejects chat (calls w) _); cbn [snd persistence record];
    [reflexivity |].
  apply lookup_insert_ne. intros E. apply Hne.
  now apply association_injective.
Qed.

End StoreProperties.

(* ===================================================================== *)
(** * Further properties: URLs and slugs of lib/DiscussionManager.ts *)
(* ===================================================================== *)

Section TextProperties.
Import RegExp DiscussionManager Shapes.

Lemma takeWhile_app_stop (f : Z -> bool) (s tail : jsstring) :
  Forall (fun c => f c = true) s ->
  match tail with [] => True | c :: _ => f c = false end ->
  takeWhile f (s ++ tail) = s.
Proof.
  intros Hs Htail. induction Hs as [| c s Hc Hs IH]; cbn [app takeWhile].
  - destruct tail as [| c tail]; [reflexivity |]. cbn [takeWhile].
    now rewrite Htail.
  - rewrite Hc, IH. reflexivity.
Qed.

Lemma search_directGroup_scheme (t : jsstring) :
  search directGroupAt (js "https://" ++ t) = search directGroupAt (47 :: t).
Proof. reflexivity. Qed.

Lemma directGroupAt_slash (t : jsstring) :
  directGroupAt (47 :: t)
  = match stripPrefix (js "group/") t with
    | Some rest => nonEmpty (takeWhile (noneOf [47; 63]) rest)
    | None => None
    end.
Proof. reflexivity. Qed.

(** Only the host [group] can be taken for the path segment. *)
Lemma stripPrefix_group_host (host rest : jsstring) :
  urlSafe host -> host <> js "group" ->
  stripPrefix (js "group/") (host ++ 47 :: rest) = None.
Proof.
  intros Hh Hne.
  destruct (stripPrefix (js "group/") (host ++ 47 :: rest)) as [r |] eqn:E;
    [| reflexivity].
  exfalso. apply stripPrefix_Some in E.
  assert (forall c, In c host -> c <> 47) as Hslash.
  { intros c Hc. apply (uriUnescaped_not_reserved c 47).
    - unfold urlSafe in Hh. rewrite List.Forall_forall in Hh. auto.
    - simpl. tauto. }
  change (js "group/") with [103; 114; 111; 117; 112; 47] in E.
  destruct host as [| c1 [| c2 [| c3 [| c4 [| c5 [| c6 host]]]]]];
    cbn [app] in E; injection E as E; subst;
    try discriminate.
  - apply Hne. reflexivity.
  - apply (Hslash 47); simpl; tauto.
Qed.

(** X9.  A direct URL [https://<host>/group/<roomId>], whether or not
    a further path segment or a query follows, gives back the room id,
    both in the manager and in the endpoint, for URL-safe hosts other
    than the host [group] and non-empty URL-safe room ids. *)
Theorem extractRoomIdFromUrl_direct (host roomId tail : jsstring) :
  urlSafe host -> host <> js "group" ->
  urlSafe roomId -> roomId <> [] ->
  endsSegment tail = true ->
  DiscussionManager.extractRoomIdFromUrl
    (js "https://" ++ host ++ js "/group/" ++ roomId ++ tail)
  = Ok (Some roomId)
  /\ WebhookEndpoint.extractRoomIdFromUrl
       (js "https://" ++ host ++ js "/group/" ++ roomId ++ tail)
     = Some roomId.
Proof.
  intros Hh Hne Hr Hrne Htail.
  assert (search directGroupAt
            (js "https://" ++ host ++ js "/group/" ++ roomId ++ tail)
          = Some roomId) as Hsearch.
  { rewrite search_directGroup_scheme. cbn [search].
    rewrite directGroupAt_slash.
    change (js "/group/" ++ roomId ++ tail)
      with (47 :: js "group/" ++ roomId ++ tail).
    rewrite stripPrefix_group_host by assumption.
    rewrite search_directGroup_skip by (apply urlSafe_not; simpl; tauto).
    apply search_matchAt. rewrite directGroupAt_slash.
    change (stripPrefix (js "group/") (js "group/" ++ roomId ++ tail))
      with (Some (roomId ++ tail)).
    cbv beta iota. rewrite takeWhile_app_stop.
    - destruct roomId; [contradiction | reflexivity].
    - apply urlSafe_noneOf; [| assumption]. intros x Hx. simpl in *. tauto.
    - destruct tail as [| c tail]; [exact I |]. cbn [endsSegment] in Htail.
      unfold noneOf. cbn [existsb].
      apply orb_true_iff in Htail. destruct Htail as [E | E];
        rewrite E; cbn; now rewrite ?orb_true_r. }
  split.
  - unfold DiscussionManager.extractRoomIdFromUrl. now rewrite Hsearch.
  - exact Hsearch.
Qed.

(** ** [slugify] *)

Lemma isSlugChar_not_hyphen (c : Z) : isSlugChar c = true -> (c =? 45) = false.
Proof.
  intros H. destruct (Z.eqb_spec c 45) as [-> | _]; [| reflexivity].
  vm_compute in H. discriminate.
Qed.

Lemma replaceRuns_alphabet (inRun : bool) (s : jsstring) :
  forallb isSlugOutput (replaceRuns inRun s) = true.
Proof.
  revert inRun. induction s as [| c s IH]; intros inRun; [reflexivity |].
  cbn [replaceRuns]. destruct (isSlugChar c) eqn:Hc.
  - cbn [forallb]. unfold isSlugOutput at 1. rewrite Hc. apply IH.
  - destruct inRun; [apply IH |]. cbn [forallb]. apply IH.
Qed.

Lemma replaceRuns_inRun_head (s : jsstring) :
  match replaceRuns true s with
  | c :: _ => (c =? 45) = false
  | [] => True
  end.
Proof.
  induction s as [| c s IH]; [exact I |].
  cbn [replaceRuns]. destruct (isSlugChar c) eqn:Hc; [| exact IH].
  now apply isSlugChar_not_hyphen.
Qed.

Lemma replaceRuns_no_double_hyphen (inRun : bool) (s : jsstring) :
  hasDoubleHyphen (replaceRuns inRun s) = false.
Proof.
  revert inRun. induction s as [| c s IH]; intros inRun; [reflexivity |].
  cbn [replaceRuns]. destruct (isSlugChar c) eqn:Hc.
  - cbn [hasDoubleHyphen]. rewrite (isSlugChar_not_hyphen c Hc).
    specialize (IH false). destruct (replaceRuns false s); [reflexivity |].
    exact IH.
  - destruct inRun; [apply IH |]. cbn [hasDoubleHyphen].
    pose proof (replaceRuns_inRun_head s) as Hhead.
    specialize (IH true). destruct (replaceRuns true s) as [| d r];
      [reflexivity |].
    rewrite Hhead, andb_false_r. exact IH.
Qed.

Lemma hasDoubleHyphen_app (a b : jsstring) :
  hasDoubleHyphen (a ++ b) = false ->
  hasDoubleHyphen a = false /\ hasDoubleHyphen b = false.
Proof.
  induction a as [| c a IH]; intros H; [auto |].
  cbn [app hasDoubleHyphen] in H.
  destruct a as [| d a].
  - cbn [app] in H. split; [reflexivity |].
    destruct b as [| e b]; [reflexivity |].
    apply orb_false_iff in H. tauto.
  - cbn [app] in H. apply orb_false_iff in H. destruct H as [H1 H2].
    destruct (IH H2) as [Ha Hb]. split; [| exact Hb].
    cbn [hasDoubleHyphen]. rewrite H1. exact Ha.
Qed.

Lemma dropWhile_suffix (f : Z -> bool) (s : jsstring) :
  exists pre, s = pre ++ dropWhile f s.
Proof.
  induction s as [| c s (pre & IH)]; [exists []; reflexivity |].
  cbn [dropWhile]. destruct (f c).
  - exists (c :: pre). cbn [app]. now f_equal.
  - exists []. reflexivity.
Qed.

Lemma dropWhile_head (f : Z -> bool) (s : jsstring) :
  match dropWhile f s with
  | c :: _ => f c = false
  | [] => True
  end.
Proof.
  induction s as [| c s IH]; [exact I |].
  cbn [dropWhile]. destruct (f c) eqn:Hc; [exact IH | exact Hc].
Qed.

(** [trimHyphens s] is a stretch of [s] that neither starts nor ends
    with a hyphen. *)
Lemma trimHyphens_stretch (s : jsstring) :
  (exists pre post, s = pre ++ trimHyphens s ++ post)
  /\ match trimHyphens s with
     | c :: _ => (c =? 45) = false
     | [] => True
     end
  /\ (trimHyphens s <> [] -> (List.last (trimHyphens s) 0 =? 45) = false).
Proof.
  unfold trimHyphens.
  set (isHyphen := fun c => c =? 45).
  destruct (dropWhile_suffix isHyphen s) as (pre & Hpre).
  set (t := dropWhile isHyphen s) in *.
  destruct (dropWhile_suffix isHyphen (rev t)) as (post & Hpost).
  pose proof (dropWhile_head isHyphen (rev t)) as Hlast.
  pose proof (dropWhile_head isHyphen s) as Hfirst. fold t in Hfirst.
  set (u := dropWhile isHyphen (rev t)) in *.
  assert (t = rev u ++ rev post) as Ht.
  { rewrite <- rev_app_distr, <- Hpost. now rewrite rev_involutive. }
  split; [| split].
  - exists pre, (rev post). now rewrite <- Ht.
  - destruct (rev u) as [| c r] eqn:Hu; [exact I |].
    rewrite Ht in Hfirst. exact Hfirst.
  - intros Hne. destruct u as [| c u]; [contradiction |].
    cbn [rev]. rewrite last_last. exact Hlast.
Qed.

(** X10.  A slug has at most 50 characters, all of them among [a-z],
    [0-9] and the hyphen; it does not start with a hyphen and has no two
    hyphens in a row; unless it was cut at 50 characters it does not
    end with a hyphen either. *)
Theorem slugify_shape (P : Platform) (text : jsstring) :
  let slug := slugify P text in
  (length slug <= 50)%nat
  /\ forallb isSlugOutput slug = true
  /\ match slug with c :: _ => c <> 45 | [] => True end
  /\ hasDoubleHyphen slug = false
  /\ (slug = [] \/ length slug = 50%nat \/ List.last slug 0 <> 45).
Proof.
  cbv zeta. unfold slugify.
  set (R := replaceRuns false (toLowerCase P text)).
  destruct (trimHyphens_stretch R) as ((pre & post & HR) & Hhead & Hlast).
  set (T := trimHyphens R) in *.
  pose proof (replaceRuns_alphabet false (toLowerCase P text)) as Halpha.
  pose proof (replaceRuns_no_double_hyphen false (toLowerCase P text)) as Hdh.
  fold R in Halpha, Hdh. rewrite HR in Halpha, Hdh.
  rewrite !forallb_app in Halpha.
  apply andb_true_iff in Halpha. destruct Halpha as [_ Halpha].
  apply andb_true_iff in Halpha. destruct Halpha as [Halpha _].
  apply hasDoubleHyphen_app in Hdh. destruct Hdh as [_ Hdh].
  apply hasDoubleHyphen_app in Hdh. destruct Hdh as [Hdh _].
  rewrite <- (firstn_skipn 50 T) in Halpha, Hdh.
  rewrite forallb_app in Halpha.
  apply andb_true_iff in Halpha. destruct Halpha as [Halpha _].
  apply hasDoubleHyphen_app in Hdh. destruct Hdh as [Hdh _].
  split; [apply List.firstn_le_length |].
  split; [exact Halpha |].
  split.
  - destruct T as [| c T']; [exact I |]. cbn [firstn].
    intros ->. discriminate.
  - split; [exact Hdh |].
    destruct (le_lt_dec (length T) 50) as [Hle | Hgt].
    + rewrite List.firstn_all2 by exact Hle.
      destruct T as [| c T']; [now left |].
      right. right. intros E45.
      rewrite E45 in Hlast. specialize (Hlast ltac:(discriminate)).
      discriminate.
    + right. left. rewrite List.length_firstn. lia.
Qed.

(** ** The fall-back of [buildDeepLink] *)

Lemma stripPrefix_app (p r : jsstring) : stripPrefix p (p ++ r) = Some r.
Proof.
  induction p as [| c p IH]; [reflexivity |].
  cbn [app stripPrefix]. now rewrite Z.eqb_refl.
Qed.

Lemma endsHost_stops (rest : jsstring) :
  endsHost rest = true ->
  match rest with
  | [] => True
  | c :: _ => noneOf [47; 63; 35] c = false
  end.
Proof.
  destruct rest as [| c rest]; [trivial |]. unfold endsHost, noneOf.
  cbn [existsb]. intros H. rewrite orb_false_r.
  apply negb_false_iff. rewrite orb_assoc. exact H.
Qed.

Lemma siteHostMatch_scheme (scheme host rest : jsstring) :
  scheme = js "https://" \/ scheme = js "http://" ->
  Forall (fun c => noneOf [47; 63; 35] c = true) host -> host <> [] ->
  endsHost rest = true ->
  siteHostMatch (scheme ++ host ++ rest) = Some host.
Proof.
  intros Hscheme Hhost Hne Hrest. unfold siteHostMatch.
  assert (match stripPrefix (js "https://") (scheme ++ host ++ rest) with
          | Some r => Some r
          | None => stripPrefix (js "http://") (scheme ++ host ++ rest)
          end = Some (host ++ rest)) as ->.
  { destruct Hscheme as [-> | ->].
    - now rewrite stripPrefix_app.
    - change (stripPrefix (js "https://") (js "http://" ++ host ++ rest))
        with (@None jsstring).
      now rewrite stripPrefix_app. }
  rewrite (takeWhile_app_stop _ host rest Hhost (endsHost_stops rest Hrest)).
  destruct host; [contradiction | reflexivity].
Qed.

(** X11.  When the URL parser rejects a site URL that has a scheme and
    a non-empty host part, the deep link names the host found by the
    regular expression: the non-empty run of characters after
    [http://] or [https://] up to the first [/], [?] or [#], port
    included.  (With nothing after the scheme the regular expression
    gives up the scheme and matches [https:] instead.) *)
Theorem buildDeepLink_fallback_host (P : Platform)
    (scheme host rest path : jsstring) :
  scheme = js "https://" \/ scheme = js "http://" ->
  Forall (fun c => noneOf [47; 63; 35] c = true) host -> host <> [] ->
  endsHost rest = true ->
  URL_parse P (scheme ++ host ++ rest) = None ->
  buildDeepLink P (scheme ++ host ++ rest) path
  = let! encodedHost := encodeURIComponent host in
    let! encodedPath := encodeURIComponent path in
    Ok (js "https://go.rocket.chat/room?host=" ++ encodedHost
          ++ js "&path=" ++ encodedPath).
Proof.
  intros Hscheme Hhost Hne Hrest Hparse. unfold buildDeepLink, new_URL.
  rewrite Hparse. cbn [JS.bind catch].
  rewrite siteHostMatch_scheme by assumption. reflexivity.
Qed.

(** ** Deep links of arbitrary room ids *)

Lemma hexVal_HEXDIGIT (d : Z) : 0 <= d < 16 -> hexVal (HEXDIGIT d) = Some d.
Proof.
  intros Hd. unfold hexVal, HEXDIGIT, isDigit.
  destruct (Z.ltb_spec d 10).
  - replace ((48 <=? 48 + d) && (48 + d <=? 57)) with true
      by (symmetry; apply andb_true_iff; split; apply Z.leb_le; lia).
    f_equal. lia.
  - replace ((48 <=? 65 + (d - 10)) && (65 + (d - 10) <=? 57)) with false
      by (symmetry; apply andb_false_iff; right; apply Z.leb_gt; lia).
    replace ((65 <=? 65 + (d - 10)) && (65 + (d - 10) <=? 70)) with true
      by (symmetry; apply andb_true_iff; split; apply Z.leb_le; lia).
    f_equal. lia.
Qed.

Lemma uriUnescaped_HEXDIGIT (d : Z) :
  0 <= d < 16 -> uriUnescaped (HEXDIGIT d) = true.
Proof.
  intros Hd. unfold uriUnescaped, HEXDIGIT, isUpper, isLower, isDigit.
  destruct (Z.ltb_spec d 10).
  - replace ((48 <=? 48 + d) && (48 + d <=? 57)) with true
      by (symmetry; apply andb_true_iff; split; apply Z.leb_le; lia).
    now rewrite orb_true_r.
  - replace ((65 <=? 65 + (d - 10)) && (65 + (d - 10) <=? 90)) with true
      by (symmetry; apply andb_true_iff; split; apply Z.leb_le; lia).
    reflexivity.
Qed.

Lemma escapedOctet_percent (b : Z) :
  0 <= b < 256 ->
  escapedOctet 37 (HEXDIGIT (b / 16)) (HEXDIGIT (b mod 16)) = Some b.
Proof.
  intros Hb. unfold escapedOctet. cbn [Z.eqb Pos.eqb].
  rewrite !hexVal_HEXDIGIT by zlia. f_equal. zlia.
Qed.

Lemma continuationOctet_percent (b : Z) :
  0x80 <= b < 0xC0 ->
  continuationOctet 37 (HEXDIGIT (b / 16)) (HEXDIGIT (b mod 16))
  = Some (b - 0x80).
Proof.
  intros Hb. unfold continuationOctet. rewrite escapedOctet_percent by lia.
  replace ((0x80 <=? b) && (b <? 0xC0)) with true; [reflexivity |].
  symmetry. apply andb_true_iff. split; [apply Z.leb_le | apply Z.ltb_lt]; lia.
Qed.

Lemma uriUnescaped_not_percent (c : Z) : uriUnescaped c = true -> (c =? 37) = false.
Proof.
  intros H. destruct (Z.eqb_spec c 37) as [-> | _]; [| reflexivity].
  vm_compute in H. discriminate.
Qed.

Lemma decode_unescaped (c : Z) (r : jsstring) :
  uriUnescaped c = true ->
  decodeURIComponent (c :: r)
  = let! r' := decodeURIComponent r in Ok (c :: r').
Proof.
  intros H. cbn [decodeURIComponent].
  now rewrite (uriUnescaped_not_percent c H).
Qed.

Lemma decode_octet (b : Z) (r : jsstring) :
  0 <= b < 0x80 ->
  decodeURIComponent (percentByte b ++ r)
  = let! r' := decodeURIComponent r in Ok (b :: r').
Proof.
  intros Hb. unfold percentByte. cbn [app decodeURIComponent Z.eqb Pos.eqb negb].
  rewrite escapedOctet_percent by lia.
  destruct (Z.ltb_spec b 0x80); [reflexivity | lia].
Qed.

Lemma decode_two_octets (c : Z) (r : jsstring) :
  0x80 <= c < 0x800 ->
  decodeURIComponent (flat_map percentByte (utf8_of_codepoint c) ++ r)
  = let! r' := decodeURIComponent r in Ok (c :: r').
Proof.
  intros Hc. unfold utf8_of_codepoint.
  destruct (Z.ltb_spec c 0x80); [lia |].
  destruct (Z.ltb_spec c 0x800); [| lia].
  unfold percentByte.
  cbn [flat_map app decodeURIComponent Z.eqb Pos.eqb negb].
  rewrite escapedOctet_percent by zlia.
  destruct (Z.ltb_spec (0xC0 + c / 64) 0x80); [zlia |].
  destruct (Z.ltb_spec (0xC0 + c / 64) 0xC0); [zlia |].
  destruct (Z.ltb_spec (0xC0 + c / 64) 0xE0); [| zlia].
  rewrite continuationOctet_percent by zlia.
  cbv zeta.
  replace ((0xC0 + c / 64 - 0xC0) * 64 + (0x80 + c mod 64 - 0x80)) with c
    by zlia.
  destruct (Z.ltb_spec c 0x80); [lia | reflexivity].
Qed.

Lemma decode_three_octets (c : Z) (r : jsstring) :
  0x800 <= c < 0x10000 ->
  isHighSurrogate c = false -> isLowSurrogate c = false ->
  decodeURIComponent (flat_map percentByte (utf8_of_codepoint c) ++ r)
  = let! r' := decodeURIComponent r in Ok (c :: r').
Proof.
  intros Hc Hhi Hlo. unfold utf8_of_codepoint.
  destruct (Z.ltb_spec c 0x80); [lia |].
  destruct (Z.ltb_spec c 0x800); [lia |].
  destruct (Z.ltb_spec c 0x10000); [| lia].
  unfold percentByte.
  cbn [flat_map app decodeURIComponent Z.eqb Pos.eqb negb].
  rewrite escapedOctet_percent by zlia.
  destruct (Z.ltb_spec (0xE0 + c / 4096) 0x80); [zlia |].
  destruct (Z.ltb_spec (0xE0 + c / 4096) 0xC0); [zlia |].
  destruct (Z.ltb_spec (0xE0 + c / 4096) 0xE0); [zlia |].
  destruct (Z.ltb_spec (0xE0 + c / 4096) 0xF0); [| zlia].
  rewrite !continuationOctet_percent by zlia.
  cbv zeta.
  replace ((0xE0 + c / 4096 - 0xE0) * 4096
           + (0x80 + (c / 64) mod 64 - 0x80) * 64
           + (0x80 + c mod 64 - 0x80)) with c by zlia.
  rewrite Hhi, Hlo.
  destruct (Z.ltb_spec c 0x800); [lia | reflexivity].
Qed.

Lemma decode_four_octets (hi lo : Z) (r : jsstring) :
  isHighSurrogate hi = true -> isLowSurrogate lo = true ->
  decodeURIComponent
    (flat_map percentByte (utf8_of_codepoint (pairCodePoint hi lo)) ++ r)
  = let! r' := decodeURIComponent r in Ok (hi :: lo :: r').
Proof.
  unfold isHighSurrogate, isLowSurrogate. intros Hhi Hlo.
  apply andb_true_iff in Hhi, Hlo.
  destruct Hhi as [Hhi1 Hhi2], Hlo as [Hlo1 Hlo2].
  apply Z.leb_le in Hhi1, Hhi2, Hlo1, Hlo2.
  set (cp := pairCodePoint hi lo).
  assert (0x10000 <= cp <= 0x10FFFF) as Hcp by (unfold cp, pairCodePoint; lia).
  unfold utf8_of_codepoint.
  destruct (Z.ltb_spec cp 0x80); [lia |].
  destruct (Z.ltb_spec cp 0x800); [lia |].
  destruct (Z.ltb_spec cp 0x10000); [lia |].
  unfold percentByte.
  cbn [flat_map app decodeURIComponent Z.eqb Pos.eqb negb].
  rewrite escapedOctet_percent by zlia.
  destruct (Z.ltb_spec (0xF0 + cp / 262144) 0x80); [zlia |].
  destruct (Z.ltb_spec (0xF0 + cp / 262144) 0xC0); [zlia |].
  destruct (Z.ltb_spec (0xF0 + cp / 262144) 0xE0); [zlia |].
  destruct (Z.ltb_spec (0xF0 + cp / 262144) 0xF0); [zlia |].
  destruct (Z.ltb_spec (0xF0 + cp / 262144) 0xF8); [| zlia].
  rewrite !continuationOctet_percent by zlia.
  cbv zeta.
  replace ((0xF0 + cp / 262144 - 0xF0) * 262144
           + (0x80 + (cp / 4096) mod 64 - 0x80) * 4096
           + (0x80 + (cp / 64) mod 64 - 0x80) * 64
           + (0x80 + cp mod 64 - 0x80)) with cp by zlia.
  destruct (Z.ltb_spec cp 0x10000); [lia |].
  destruct (Z.ltb_spec 0x10FFFF cp); [lia |].
  cbn [orb].
  replace (0xD800 + (cp - 0x10000) / 1024) with hi
    by (unfold cp, pairCodePoint; zlia).
  replace (0xDC00 + (cp - 0x10000) mod 1024) with lo
    by (unfold cp, pairCodePoint; zlia).
  reflexivity.
Qed.



Lemma utf8_of_codepoint_bytes (cp : Z) :
  0 <= cp <= 0x10FFFF -> Forall (fun b => 0 <= b < 256) (utf8_of_codepoint cp).
Proof.
  intros Hcp. unfold utf8_of_codepoint.
  destruct (Z.ltb_spec cp 0x80); [repeat constructor; lia |].
  destruct (Z.ltb_spec cp 0x800); [repeat constructor; zlia |].
  destruct (Z.ltb_spec cp 0x10000); repeat constructor; zlia.
Qed.

Lemma percentBytes_encoded (bs : list Z) :
  Forall (fun b => 0 <= b < 256) bs ->
  Forall (fun c => isEncodedChar c = true) (flat_map percentByte bs).
Proof.
  induction 1 as [| b bs Hb _ IH]; [constructor |].
  cbn [flat_map]. apply Forall_app. split; [| exact IH].
  unfold percentByte, isEncodedChar.
  repeat constructor.
  - rewrite uriUnescaped_HEXDIGIT by zlia. reflexivity.
  - rewrite uriUnescaped_HEXDIGIT by zlia. reflexivity.
Qed.

Lemma encodeURIComponent_inverse_upto (n : nat) (s e : jsstring) :
  (length s <= n)%nat -> wf_jsstring s ->
  encodeURIComponent s = Ok e ->
  decodeURIComponent e = Ok s
  /\ Forall (fun c => isEncodedChar c = true) e.
Proof.
  revert s e. induction n as [| n IH]; intros s e Hlen Hwf He.
  { destruct s; [| cbn in Hlen; lia]. injection He as <-.
    split; [reflexivity | constructor]. }
  destruct s as [| c t].
  { injection He as <-. split; [reflexivity | constructor]. }
  apply List.Forall_cons_iff in Hwf. destruct Hwf as [Hc Hwf].
  cbn [length] in Hlen. cbn [encodeURIComponent] in He.
  destruct (uriUnescaped c) eqn:Hu.
  { destruct (encodeURIComponent t) as [r | err] eqn:Er; cbn [JS.bind] in He;
      [| discriminate].
    injection He as <-.
    destruct (IH t r ltac:(lia) Hwf Er) as [Hd Hchars].
    split.
    - rewrite decode_unescaped, Hd by assumption. reflexivity.
    - constructor; [| exact Hchars]. unfold isEncodedChar. now rewrite Hu. }
  destruct (isLowSurrogate c) eqn:Hlo; [discriminate |].
  destruct (isHighSurrogate c) eqn:Hhi.
  { destruct t as [| d t']; [discriminate |].
    destruct (isLowSurrogate d) eqn:Hd; [| discriminate].
    destruct (encodeURIComponent t') as [r | err] eqn:Er; cbn [JS.bind] in He;
      [| discriminate].
    injection He as <-.
    apply List.Forall_cons_iff in Hwf. destruct Hwf as [_ Hwf].
    cbn [length] in Hlen.
    destruct (IH t' r ltac:(lia) Hwf Er) as [Hdec Hchars].
    split.
    - rewrite decode_four_octets, Hdec by assumption. reflexivity.
    - apply Forall_app. split; [| exact Hchars].
      apply percentBytes_encoded, utf8_of_codepoint_bytes.
      unfold isHighSurrogate, isLowSurrogate in Hhi, Hd.
      apply andb_true_iff in Hhi, Hd.
      destruct Hhi as [H1 H2], Hd as [H3 H4].
      apply Z.leb_le in H1, H2, H3, H4. unfold pairCodePoint. lia. }
  destruct (encodeURIComponent t) as [r | err] eqn:Er; cbn [JS.bind] in He;
    [| discriminate].
  injection He as <-.
  destruct (IH t r ltac:(lia) Hwf Er) as [Hdec Hchars].
  split.
  - destruct (Z.ltb_spec c 0x80) as [H1 | H1].
    + unfold utf8_of_codepoint.
      destruct (Z.ltb_spec c 0x80); [| lia].
      cbn [flat_map]. rewrite app_nil_r.
      rewrite decode_octet, Hdec by lia. reflexivity.
    + destruct (Z.ltb_spec c 0x800) as [H2 | H2].
      * rewrite decode_two_octets, Hdec by lia. reflexivity.
      * rewrite decode_three_octets, Hdec by (assumption || lia). reflexivity.
  - apply Forall_app. split; [| exact Hchars].
    apply percentBytes_encoded, utf8_of_codepoint_bytes. lia.
Qed.

Lemma decodeURIComponent_encodeURIComponent (s e : jsstring) :
  wf_jsstring s -> encodeURIComponent s = Ok e ->
  decodeURIComponent e = Ok s.
Proof.
  intros Hwf He.
  now destruct (encodeURIComponent_inverse_upto (length s) s e (le_n _) Hwf He).
Qed.

Lemma encodeURIComponent_encoded (s e : jsstring) :
  wf_jsstring s -> encodeURIComponent s = Ok e ->
  Forall (fun c => isEncodedChar c = true) e.
Proof.
  intros Hwf He.
  now destruct (encodeURIComponent_inverse_upto (length s) s e (le_n _) Hwf He).
Qed.

Lemma isEncodedChar_not (c x : Z) :
  isEncodedChar c = true -> In x [47; 63; 38; 58; 35] -> c <> x.
Proof.
  unfold isEncodedChar. intros Hc Hx ->.
  apply orb_true_iff in Hc. destruct Hc as [Hc | Hc].
  - revert Hc. apply not_true_iff_false.
    simpl in Hx.
    repeat (destruct Hx as [<- | Hx]; [reflexivity |]). contradiction.
  - apply Z.eqb_eq in Hc. subst x. simpl in Hx.
    repeat (destruct Hx as [Hx | Hx]; [discriminate |]). contradiction.
Qed.

(** Parsing a deep link whose host and room id are percent-encoded:
    the direct pattern finds nothing in it, the deep-link pattern finds
    the encoded room id. *)
Lemma extractRoomIdFromUrl_deepLink_encoded (encodedHost encodedId : jsstring) :
  Forall (fun c => isEncodedChar c = true) encodedHost ->
  Forall (fun c => isEncodedChar c = true) encodedId ->
  encodedId <> [] ->
  let link := js "https://go.rocket.chat/room?host=" ++ encodedHost
                ++ js "&path=" ++ js "group%2F" ++ encodedId in
  search directGroupAt link = None
  /\ DiscussionManager.extractRoomIdFromUrl link
     = let! decoded := decodeURIComponent encodedId in Ok (Some decoded).
Proof.
  intros Hh Hr Hne. cbv zeta.
  assert (forall x s, In x [47; 63; 38; 58; 35] ->
                      Forall (fun c => isEncodedChar c = true) s ->
                      Forall (fun c => c <> x) s) as Hnot.
  { intros x s Hx Hs. eapply Forall_impl; [exact Hs |].
    intros c Hc. now apply isEncodedChar_not. }
  assert (search directGroupAt
            (js "https://go.rocket.chat/room?host=" ++ encodedHost
               ++ js "&path=" ++ js "group%2F" ++ encodedId) = None) as Hdirect.
  { rewrite search_directGroup_linkPrefix.
    rewrite search_directGroup_skip
      by (apply Hnot; [simpl; tauto | assumption]).
    rewrite search_directGroup_pathPrefix.
    rewrite <- (app_nil_r encodedId) at 1.
    rewrite search_directGroup_skip
      by (apply Hnot; [simpl; tauto | assumption]).
    reflexivity. }
  split; [exact Hdirect |].
  unfold DiscussionManager.extractRoomIdFromUrl. rewrite Hdirect.
  rewrite search_deepLinkPath_linkPrefix.
  rewrite search_deepLinkPath_skip.
  2:{ eapply Forall_impl; [exact Hh |]. intros c Hc.
      split; apply (isEncodedChar_not c); simpl; tauto. }
  rewrite (search_matchAt _ _ encodedId); [reflexivity |].
  rewrite deepLinkPathAt_pathPrefix.
  rewrite takeWhile_all.
  - destruct encodedId; [contradiction | reflexivity].
  - eapply Forall_impl; [exact Hr |]. intros c Hc.
    unfold noneOf. cbn [existsb]. rewrite orb_false_r.
    apply negb_true_iff. apply Z.eqb_neq.
    apply (isEncodedChar_not c); simpl; tauto.
Qed.

Lemma encodeURIComponent_group (s : jsstring) :
  encodeURIComponent (js "group/" ++ s)
  = let! e := encodeURIComponent s in Ok (js "group%2F" ++ e).
Proof.
  change (js "group/" ++ s) with (103 :: 114 :: 111 :: 117 :: 112 :: 47 :: s).
  change (js "group%2F") with [103; 114; 111; 117; 112; 37; 50; 70].
  do 6 (cbn [encodeURIComponent];
        match goal with
        | |- context [uriUnescaped ?c] =>
            let b := eval vm_compute in (uriUnescaped c) in
            change (uriUnescaped c) with b
        end; cbv iota).
  change (isLowSurrogate 47) with false.
  change (isHighSurrogate 47) with false. cbv iota.
  destruct (encodeURIComponent s); reflexivity.
Qed.

Lemma takeWhile_Forall (Q : Z -> Prop) (f : Z -> bool) (s : jsstring) :
  Forall Q s -> Forall Q (takeWhile f s).
Proof.
  induction 1 as [| c s Hc _ IH]; [constructor |].
  cbn [takeWhile]. destruct (f c); [now constructor | constructor].
Qed.

Lemma siteHostMatch_wf (s h : jsstring) :
  wf_jsstring s -> siteHostMatch s = Some h -> wf_jsstring h.
Proof.
  unfold wf_jsstring, siteHostMatch. intros Hs.
  assert (forall r, Forall (fun c => 0 <= c < 65536) r ->
                    nonEmpty (takeWhile (noneOf [47; 63; 35]) r) = Some h ->
                    Forall (fun c => 0 <= c < 65536) h) as Hrun.
  { intros r Hr E.
    pose proof (takeWhile_Forall _ (noneOf [47; 63; 35]) r Hr) as Ht.
    destruct (takeWhile (noneOf [47; 63; 35]) r); [discriminate |].
    now injection E as <-. }
  assert (forall p r, stripPrefix p s = Some r ->
                      Forall (fun c => 0 <= c < 65536) r) as Hstrip.
  { intros p r E. apply stripPrefix_Some in E. rewrite E in Hs.
    now apply Forall_app in Hs. }
  destruct (stripPrefix (js "https://") s) as [r |] eqn:E1.
  - destruct (nonEmpty (takeWhile _ r)) eqn:E2.
    + intros [= <-]. eapply Hrun; [eapply Hstrip; exact E1 | exact E2].
    + apply Hrun, Hs.
  - destruct (stripPrefix (js "http://") s) as [r |] eqn:E2.
    + destruct (nonEmpty (takeWhile _ r)) eqn:E3.
      * intros [= <-]. eapply Hrun; [eapply Hstrip; exact E2 | exact E3].
      * apply Hrun, Hs.
    + apply Hrun, Hs.
Qed.

(** The deep link of [group/<roomId>], taken apart. *)
Lemma buildDeepLink_group_Ok (P : Platform) (siteUrl roomId link : jsstring) :
  wf_jsstring roomId -> roomId <> [] ->
  match URL_parse P siteUrl with
  | Some u => wf_jsstring (host u)
  | None => wf_jsstring siteUrl
  end ->
  buildDeepLink P siteUrl (js "group/" ++ roomId) = Ok link ->
  exists encodedHost encodedId,
    link = js "https://go.rocket.chat/room?host=" ++ encodedHost
             ++ js "&path=" ++ js "group%2F" ++ encodedId
    /\ Forall (fun c => isEncodedChar c = true) encodedHost
    /\ Forall (fun c => isEncodedChar c = true) encodedId
    /\ encodedId <> []
    /\ decodeURIComponent encodedId = Ok roomId.
Proof.
  intros Hid Hne Hsite. unfold buildDeepLink, new_URL.
  set (h := match URL_parse P siteUrl with
            | Some u => host u
            | None =>
                match siteHostMatch siteUrl with
                | Some m => m
                | None => siteUrl
                end
            end).
  assert (wf_jsstring h) as Hh.
  { subst h. destruct (URL_parse P siteUrl); [exact Hsite |].
    destruct (siteHostMatch siteUrl) eqn:E; [| exact Hsite].
    eapply siteHostMatch_wf; eauto. }
  assert ((let! host0 :=
             catch
               (let! url := match URL_parse P siteUrl with
                            | Some u => Ok u
                            | None => Throw TypeError
                            end in Ok (host url))
               (fun _ =>
                  Ok match siteHostMatch siteUrl with
                     | Some m => m
                     | None => siteUrl
                     end) in
           let! encodedHost := encodeURIComponent host0 in
           let! encodedPath := encodeURIComponent (js "group/" ++ roomId) in
           Ok (js "https://go.rocket.chat/room?host=" ++ encodedHost
                 ++ js "&path=" ++ encodedPath))
          = (let! encodedHost := encodeURIComponent h in
             let! encodedId := encodeURIComponent roomId in
             Ok (js "https://go.rocket.chat/room?host=" ++ encodedHost
                   ++ js "&path=" ++ js "group%2F" ++ encodedId))) as ->.
  { subst h. rewrite encodeURIComponent_group.
    destruct (URL_parse P siteUrl); cbn [JS.bind catch];
      match goal with
      | |- context [encodeURIComponent ?x] =>
          destruct (encodeURIComponent x); cbn [JS.bind]; [| reflexivity]
      end;
      destruct (encodeURIComponent roomId); reflexivity. }
  destruct (encodeURIComponent h) as [eh | e1] eqn:Eh; cbn [JS.bind];
    [| discriminate].
  destruct (encodeURIComponent roomId) as [er | e2] eqn:Er; cbn [JS.bind];
    [| discriminate].
  intros E.
  pose proof (decodeURIComponent_encodeURIComponent roomId er Hid Er) as Hdec.
  exists eh, er.
  split; [congruence |].
  split; [exact (encodeURIComponent_encoded h eh Hh Eh) |].
  split; [exact (encodeURIComponent_encoded roomId er Hid Er) |].
  split; [| exact Hdec].
  intros ->. cbn in Hdec. injection Hdec as <-. contradiction.
Qed.

(** X12.  Parsing inverts deep-link construction for every room id, not
    only for URL-safe ones: when [buildDeepLink] returns a link for the
    path [group/<roomId>] of a non-empty room id, whatever the site URL,
    the manager's [extractRoomIdFromUrl] finds that room id in the link.
    The endpoint's own [extractRoomIdFromUrl], which knows the direct
    form only, finds nothing in it. *)
Theorem deep_link_leads_back_to_room (P : Platform)
    (siteUrl roomId link : jsstring) :
  wf_jsstring roomId -> roomId <> [] ->
  match URL_parse P siteUrl with
  | Some u => wf_jsstring (host u)
  | None => wf_jsstring siteUrl
  end ->
  buildDeepLink P siteUrl (js "group/" ++ roomId) = Ok link ->
  DiscussionManager.extractRoomIdFromUrl link = Ok (Some roomId)
  /\ WebhookEndpoint.extractRoomIdFromUrl link = None.
Proof.
  intros Hid Hne Hsite Hlink.
  destruct (buildDeepLink_group_Ok P siteUrl roomId link Hid Hne Hsite Hlink)
    as (eh & er & -> & Hh & Hr & Hner & Hdec).
  destruct (extractRoomIdFromUrl_deepLink_encoded eh er Hh Hr Hner)
    as [Hdirect Hdeep].
  split; [| exact Hdirect].
  rewrite Hdeep, Hdec. reflexivity.
Qed.

End TextProperties.

(* ===================================================================== *)
(** * Further properties of the discussion manager *)
(* ===================================================================== *)

Section ManagerProperties.
Import Deliveries DiscussionStore DiscussionManager WebhookEndpoint Traces.

Variable P : Platform.
Variable chat : Chat.

Ltac trace_step :=
  match goal with
  | |- quiet _ (ret _) => apply quiet_ret
  | |- quiet _ (throw _) => apply quiet_throw
  | |- quiet _ (lift _) => apply quiet_lift
  | |- quiet _ (ask _ _) => apply quiet_ask; reflexivity
  | |- quiet _ (perform _ _) => apply quiet_perform; reflexivity
  | |- quiet _ (mbind _ _) => apply quiet_mbind; [| intros ?]
  | |- quiet _ (try_catch _ _) => apply quiet_try_catch; [| intros ?]
  | |- quiet _ (forEach _ _) => apply quiet_forEach; intros ?
  | |- quiet _ (match ?x with _ => _ end) => destruct x
  end.

Lemma quiet_addAuthors_authorCalls discussion parentRoom authorEmails :
  quiet isAuthorCall
    (addAuthorsToDiscussion P chat discussion parentRoom authorEmails).
Proof.
  unfold addAuthorsToDiscussion, addAuthor. repeat trace_step.
Qed.

Lemma atMost_quiet {A} (ok f : Call -> bool) (m : M A) :
  (forall c, ok c = true -> f c = false) -> quiet ok m -> atMost f 0 m.
Proof.
  intros Hok Hq w. destruct (Hq w) as (_ & tr & Htr & Hall).
  exists tr. split; [exact Htr |].
  rewrite (countCalls_none f ok tr Hok Hall). lia.
Qed.

Lemma atMost_weaken {A} f (n n' : nat) (m : M A) :
  (n <= n')%nat -> atMost f n m -> atMost f n' m.
Proof.
  intros Hle Hm w. destruct (Hm w) as (tr & Htr & Hc).
  exists tr. split; [exact Htr | lia].
Qed.

Lemma atMost_ret {A} f (a : A) : atMost f 0 (ret a).
Proof. intros w. exists []. cbn. rewrite app_nil_r. split; [reflexivity | lia]. Qed.

Lemma atMost_throw {A} f (e : exn) : atMost f 0 (@throw A e).
Proof. intros w. exists []. cbn. rewrite app_nil_r. split; [reflexivity | lia]. Qed.

Lemma atMost_perform f c : atMost f 1 (perform chat c).
Proof.
  intros w. exists [c]. unfold perform.
  split; [destruct (rejects chat (calls w) c); reflexivity |].
  unfold countCalls. cbn. destruct (f c); cbn; lia.
Qed.

Lemma atMost_mbind {A B} f (n k : nat) (m : M A) (kk : A -> M B) :
  atMost f n m -> (forall a, atMost f k (kk a)) ->
  atMost f (n + k) (mbind m kk).
Proof.
  intros Hm Hk w. unfold mbind.
  destruct (Hm w) as (tr1 & Htr1 & Hc1).
  destruct (m w) as [[a | e] w1]; cbn [snd] in *.
  - destruct (Hk a w1) as (tr2 & Htr2 & Hc2).
    exists (tr1 ++ tr2). rewrite Htr2, Htr1, <- app_assoc.
    split; [reflexivity |]. rewrite countCalls_app. lia.
  - exists tr1. split; [exact Htr1 | lia].
Qed.

Lemma atMost_try_catch {A} f (n k : nat) (m : M A) (h : exn -> M A) :
  atMost f n m -> (forall e, atMost f k (h e)) ->
  atMost f (n + k) (try_catch m h).
Proof.
  intros Hm Hh w. unfold try_catch.
  destruct (Hm w) as (tr1 & Htr1 & Hc1).
  destruct (m w) as [[a | e] w1]; cbn [snd] in *.
  - exists tr1. split; [exact Htr1 | lia].
  - destruct (Hh e w1) as (tr2 & Htr2 & Hc2).
    exists (tr1 ++ tr2). rewrite Htr2, Htr1, <- app_assoc.
    split; [reflexivity |]. rewrite countCalls_app. lia.
Qed.

(** ** [addAuthorsToDiscussion] *)

Lemma returns_ret {A} (a : A) : returns (ret a).
Proof. intros w. exists a. reflexivity. Qed.

Lemma returns_mbind {A B} (m : M A) (k : A -> M B) :
  returns m -> (forall a, returns (k a)) -> returns (mbind m k).
Proof.
  intros Hm Hk w. unfold mbind. destruct (Hm w) as (a & Ha).
  destruct (m w) as [[a' | e] w1]; cbn [fst] in Ha; [| discriminate].
  apply Hk.
Qed.

Lemma returns_try_catch {A} (m : M A) (h : exn -> M A) :
  (forall e, returns (h e)) -> returns (try_catch m h).
Proof.
  intros Hh w. unfold try_catch.
  destruct (m w) as [[a | e] w1]; [exists a; reflexivity | apply Hh].
Qed.

Lemma returns_forEach {A} (l : list A) (body : A -> M unit) :
  (forall x, returns (body x)) -> returns (forEach l body).
Proof.
  intros Hb. induction l as [| x l IH]; cbn [forEach].
  - apply returns_ret.
  - apply returns_mbind; [apply Hb | intros _; exact IH].
Qed.

Lemma returns_addAuthor discussion appUser members authorInput :
  returns (addAuthor P chat discussion appUser members authorInput).
Proof.
  unfold addAuthor.
  destruct (falsy (Some authorInput) || falsy (Some (trim P authorInput)));
    [apply returns_ret |].
  apply returns_mbind.
  - match goal with
    | |- returns (match ?x with _ => _ end) => destruct x
    end; [apply returns_ret |].
    match goal with
    | |- returns (if ?b then _ else _) => destruct b
    end; [| apply returns_ret].
    apply returns_try_catch. intros _. apply returns_ret.
  - intros [u |]; [| apply returns_ret].
    apply returns_try_catch. intros _. apply returns_ret.
Qed.

Lemma atMost_addAuthor discussion appUser members authorInput :
  atMost isAddMember 1
    (addAuthor P chat discussion appUser members authorInput).
Proof.
  unfold addAuthor.
  destruct (falsy (Some authorInput) || falsy (Some (trim P authorInput)));
    [apply (atMost_weaken _ 0); [lia | apply atMost_ret] |].
  apply (atMost_mbind _ 0 1).
  - eapply atMost_quiet with (ok := fun c => negb (isAddMember c)).
    + intros c Hc. now apply negb_true_iff.
    + repeat trace_step.
  - intros [u |]; [| apply (atMost_weaken _ 0); [lia | apply atMost_ret]].
    apply (atMost_try_catch _ 1 0); [apply atMost_perform |].
    intros _. apply atMost_ret.
Qed.

Lemma atMost_forEach {A} f (n : nat) (l : list A) (body : A -> M unit) :
  (forall x, atMost f n (body x)) ->
  atMost f (length l * n) (forEach l body).
Proof.
  intros Hb. induction l as [| x l IH]; cbn [forEach length].
  - apply atMost_ret.
  - replace (S (length l) * n)%nat with (n + length l * n)%nat by lia.
    apply atMost_mbind; [apply Hb | intros _; exact IH].
Qed.

(** X13.  Once the app user and the members of the parent channel have
    been read, [addAuthorsToDiscussion] cannot fail: a user look-up or
    a room update that throws is skipped.  It reads and adds members
    and does nothing else, and it adds at most one member per author. *)
Theorem addAuthorsToDiscussion_tolerates_failures
    (discussion parentRoom : IRoom) (authorEmails : list jsstring) (w : World) :
  (exists u, getAppUser chat (calls w) = Ok u) ->
  (exists ms, getMembers chat (calls w ++ [GetAppUser]) (room_id parentRoom)
              = Ok ms) ->
  let out := addAuthorsToDiscussion P chat discussion parentRoom authorEmails w in
  fst out = Ok tt
  /\ persistence (snd out) = persistence w
  /\ exists tr,
       calls (snd out) = calls w ++ tr
       /\ forallb isAuthorCall tr = true
       /\ (countCalls isAddMember tr <= length authorEmails)%nat.
Proof.
  intros (u & Hu) (ms & Hms). cbv zeta.
  destruct (quiet_addAuthors_authorCalls discussion parentRoom authorEmails w)
    as (Hpers & tr & Htr & Hall).
  split; [| split; [exact Hpers |]].
  - unfold addAuthorsToDiscussion. rewrite mbind_run. unfold ask at 1.
    rewrite Hu. destruct u as [appUser |]; [| reflexivity].
    rewrite mbind_run. unfold ask at 1. cbn [calls record]. rewrite Hms.
    match goal with
    | |- fst (forEach ?l ?b ?w0) = _ =>
        destruct (returns_forEach l b (returns_addAuthor _ _ _) w0) as ([] & E)
    end.
    exact E.
  - exists tr. split; [exact Htr |]. split; [exact Hall |].
    assert (atMost isAddMember (length authorEmails)
              (addAuthorsToDiscussion P chat discussion parentRoom authorEmails))
      as Hm.
    { unfold addAuthorsToDiscussion.
      apply (atMost_mbind _ 0 (length authorEmails)).
      - eapply atMost_quiet with (ok := fun c => negb (isAddMember c));
          [intros c Hc; now apply negb_true_iff | repeat trace_step].
      - intros [appUser |];
          [| apply (atMost_weaken _ 0); [lia | apply atMost_ret]].
        apply (atMost_mbind _ 0 (length authorEmails)).
        + eapply atMost_quiet with (ok := fun c => negb (isAddMember c));
            [intros c Hc; now apply negb_true_iff | repeat trace_step].
        + intros members.
          replace (length authorEmails) with (length authorEmails * 1)%nat
            at 1 by lia.
          apply atMost_forEach. intros x. apply atMost_addAuthor. }
    destruct (Hm w) as (tr' & Htr' & Hc).
    rewrite Htr in Htr'. apply app_inv_head in Htr'. subst tr'. exact Hc.
Qed.

(** ** [updateDiscussion] *)

Lemma quiet_applyChanges_updateCalls discussion appUser r rfdLink ch :
  quiet isUpdateCall (applyChanges P chat discussion appUser r rfdLink ch).
Proof.
  unfold applyChanges, setRoomDescription, postMessage.
  repeat first
    [ apply (quiet_weaken isAuthorCall);
      [ intros [] H; (reflexivity || discriminate)
      | apply quiet_addAuthors_authorCalls ]
    | trace_step ].
Qed.

Lemma quiet_updateDiscussion_updateCalls discussionUrl r rfdLink ch :
  quiet isUpdateCall (updateDiscussion P chat discussionUrl r rfdLink ch).
Proof.
  unfold updateDiscussion.
  repeat first [ apply quiet_applyChanges_updateCalls | trace_step ].
Qed.

(** Calls of the kind [f] are not author calls. *)
Ltac quiet_without f :=
  eapply atMost_quiet with (ok := fun c => negb (f c));
  [ intros c Hc; now apply negb_true_iff
  | unfold setRoomDescription, postMessage;
    repeat first
      [ apply (quiet_weaken isAuthorCall);
        [ intros [] H; (reflexivity || discriminate)
        | apply quiet_addAuthors_authorCalls ]
      | trace_step ] ].

Lemma atMost_applyChanges_message discussion appUser r rfdLink ch :
  atMost isPostMessage 1 (applyChanges P chat discussion appUser r rfdLink ch).
Proof.
  unfold applyChanges.
  apply (atMost_mbind _ 0 1); [quiet_without isPostMessage |].
  intros parts1. cbv zeta.
  apply (atMost_mbind _ 0 1); [quiet_without isPostMessage |].
  intros parts4.
  match goal with
  | |- atMost _ _ (match ?x with _ => _ end) => destruct x
  end.
  - apply (atMost_weaken _ 0); [lia | apply atMost_ret].
  - apply atMost_perform.
Qed.

Lemma atMost_applyChanges_description discussion appUser r rfdLink ch :
  atMost isSetRoomDescription (match ch_state ch with Some _ => 1 | None => 0 end)
    (applyChanges P chat discussion appUser r rfdLink ch).
Proof.
  unfold applyChanges.
  replace (match ch_state ch with Some _ => 1 | None => 0 end)%nat
    with ((match ch_state ch with Some _ => 1 | None => 0 end) + 0)%nat by lia.
  apply atMost_mbind.
  - destruct (ch_state ch) as [st |]; [| apply atMost_ret].
    apply (atMost_mbind _ 1 0); [| intros _; apply atMost_ret].
    unfold setRoomDescription.
    apply (atMost_try_catch _ 1 0); [apply atMost_perform |].
    intros _. apply atMost_ret.
  - intros parts1. cbv zeta. quiet_without isSetRoomDescription.
Qed.

Lemma atMost_ask {A} f c (answer : list Call -> result A) :
  f c = false -> atMost f 0 (ask c answer).
Proof.
  intros Hc w. exists [c]. split; [reflexivity |].
  unfold countCalls. cbn. rewrite Hc. cbn. lia.
Qed.

Lemma atMost_updateDiscussion f (n : nat) discussionUrl r rfdLink ch :
  (forall i, f (GetRoomById i) = false) -> f GetAppUser = false ->
  (forall d u, atMost f n (applyChanges P chat d u r rfdLink ch)) ->
  atMost f n (updateDiscussion P chat discussionUrl r rfdLink ch).
Proof.
  intros Hroom Huser Hf. unfold updateDiscussion.
  apply (atMost_mbind _ 0 n).
  { intros w0. exists []. cbn. rewrite app_nil_r. split; [reflexivity | lia]. }
  intros roomId.
  destruct (falsy roomId);
    [apply (atMost_weaken _ 0); [lia | apply atMost_throw] |].
  apply (atMost_mbind _ 0 n); [apply atMost_ask, Hroom |].
  intros [d |]; [| apply (atMost_weaken _ 0); [lia | apply atMost_throw]].
  apply (atMost_mbind _ 0 n); [apply atMost_ask, Huser |].
  intros [u |]; [| apply (atMost_weaken _ 0); [lia | apply atMost_throw]].
  apply Hf.
Qed.

(** X14.  [updateDiscussion] never touches the store; it only looks up
    rooms and users, updates the description, adds members and posts.
    It posts at most one message, and it updates the description at
    most once, and only for a change of state. *)
Theorem updateDiscussion_effects (discussionUrl : jsstring) (r : RFD)
    (rfdLink : jsstring) (ch : RFDChanges) (w : World) :
  let w' := snd (updateDiscussion P chat discussionUrl r rfdLink ch w) in
  persistence w' = persistence w
  /\ exists tr,
       calls w' = calls w ++ tr
       /\ forallb isUpdateCall tr = true
       /\ (countCalls isPostMessage tr <= 1)%nat
       /\ (countCalls isSetRoomDescription tr
           <= match ch_state ch with Some _ => 1 | None => 0 end)%nat.
Proof.
  cbv zeta.
  destruct (quiet_updateDiscussion_updateCalls discussionUrl r rfdLink ch w)
    as (Hpers & tr & Htr & Hall).
  split; [exact Hpers |]. exists tr. split; [exact Htr |].
  split; [exact Hall |].
  destruct (atMost_updateDiscussion isPostMessage 1 discussionUrl r rfdLink ch
              (fun _ => eq_refl) eq_refl
              (fun d u => atMost_applyChanges_message d u r rfdLink ch) w)
    as (tr1 & Htr1 & Hc1).
  destruct (atMost_updateDiscussion isSetRoomDescription _ discussionUrl r
              rfdLink ch (fun _ => eq_refl) eq_refl
              (fun d u => atMost_applyChanges_description d u r rfdLink ch) w)
    as (tr2 & Htr2 & Hc2).
  rewrite Htr in Htr1, Htr2.
  apply app_inv_head in Htr1, Htr2. subst tr1 tr2. split; assumption.
Qed.

(** X15.  A ChangeSet with nothing to report (no change of state or
    title, no new content, no author that is new, the same set of
    tags) makes [applyChanges] return at once: no call is made.  A
    change of the discussion reference alone is such a ChangeSet. *)
Theorem applyChanges_nothing_to_report (discussion : IRoom) (appUser : IUser)
    (r : RFD) (rfdLink : jsstring) (ch : RFDChanges) (w : World) :
  reportable ch = false ->
  applyChanges P chat discussion appUser r rfdLink ch w = (Ok tt, w).
Proof.
  destruct ch as [t s a g d c]. unfold reportable, applyChanges.
  cbn [ch_title ch_state ch_authors ch_tags ch_discussion ch_content].
  intros H.
  destruct s; [discriminate |]. destruct t; [discriminate |].
  cbn [truthy orb] in H.
  assert (match c with Some true => true | _ => false end = false) as Hc
    by (destruct c as [[|] |]; (reflexivity || discriminate)).
  rewrite Hc in H. cbn [orb] in H.
  apply orb_false_iff in H. destruct H as [Ha Hg].
  rewrite mbind_run. cbn [ret]. cbv zeta. rewrite mbind_run.
  assert (forall l : list jsstring,
             negb (Nat.eqb (length l) 0) = false -> l = []) as Hnil
    by (intros [| x l] E; [reflexivity | discriminate]).
  destruct a as [au |].
  - apply Hnil in Ha. rewrite Ha. cbn [ret].
    destruct g as [tg |].
    + apply orb_false_iff in Hg. destruct Hg as [Hg1 Hg2].
      apply Hnil in Hg1, Hg2. rewrite Hg1, Hg2.
      destruct c as [[|] |]; (reflexivity || discriminate).
    + destruct c as [[|] |]; (reflexivity || discriminate).
  - cbn [ret]. destruct g as [tg |].
    + apply orb_false_iff in Hg. destruct Hg as [Hg1 Hg2].
      apply Hnil in Hg1, Hg2. rewrite Hg1, Hg2.
      destruct c as [[|] |]; (reflexivity || discriminate).
    + destruct c as [[|] |]; (reflexivity || discriminate).
Qed.

Lemma quiet_Ok_inv {A} ok (m : M A) (w w' : World) (a : A) :
  quiet ok m -> m w = (Ok a, w') ->
  persistence w' = persistence w
  /\ exists tr, calls w' = calls w ++ tr /\ forallb ok tr = true.
Proof.
  intros Hq E. specialize (Hq w). rewrite E in Hq. exact Hq.
Qed.

(** X16.  When there is something to report and [applyChanges]
    succeeds, its last call is the one message it posts, to the
    discussion and as the app user. *)
Theorem applyChanges_reports_last (discussion : IRoom) (appUser : IUser)
    (r : RFD) (rfdLink : jsstring) (ch : RFDChanges) (w w' : World) :
  reportable ch = true ->
  applyChanges P chat discussion appUser r rfdLink ch w = (Ok tt, w') ->
  exists tr text,
    calls w' = calls w ++ tr ++ [PostMessage (room_id discussion) appUser text]
    /\ countCalls isPostMessage tr = 0%nat.
Proof.
  intros Hrep H. unfold applyChanges in H.
  apply mbind_Ok_inv in H. destruct H as (parts1 & w1 & H1 & H).
  cbv zeta in H.
  apply mbind_Ok_inv in H. destruct H as (parts4 & w2 & H2 & H).
  match type of H1 with
  | ?m _ = _ =>
      assert (quiet (fun c => negb (isPostMessage c)) m) as Q1
        by (unfold setRoomDescription; repeat trace_step)
  end.
  match type of H2 with
  | ?m _ = _ =>
      assert (quiet (fun c => negb (isPostMessage c)) m) as Q2
        by (repeat first
              [ apply (quiet_weaken isAuthorCall);
                [ intros [] ?; (reflexivity || discriminate)
                | apply quiet_addAuthors_authorCalls ]
              | trace_step ])
  end.
  destruct (quiet_Ok_inv _ _ _ _ _ Q1 H1) as (_ & tr1 & Htr1 & Hall1).
  destruct (quiet_Ok_inv _ _ _ _ _ Q2 H2) as (_ & tr2 & Htr2 & Hall2).
  clear Q1 Q2.
  assert (forall tr, forallb (fun c => negb (isPostMessage c)) tr = true ->
                     countCalls isPostMessage tr = 0%nat) as Hcount.
  { intros tr. apply countCalls_none. intros c Hc. now apply negb_true_iff. }
  assert (forall (l : list jsstring) x, l ++ [x] <> []) as Hsnoc
    by (intros [| y l] x; discriminate).
  assert (truthy (ch_state ch) = true -> parts1 <> []) as A1.
  { destruct (ch_state ch); [| discriminate]. intros _.
    apply mbind_Ok_inv in H1. destruct H1 as (? & ? & _ & H1).
    unfold ret in H1. injection H1 as <- _. discriminate. }
  clear H1.
  match type of H2 with
  | context [ret ?p3] =>
      match p3 with
      | match ch_content ch with _ => _ end => set (parts3 := p3) in *
      end
  end.
  assert (truthy (ch_state ch) || truthy (ch_title ch)
          || match ch_content ch with Some true => true | _ => false end
          = true -> parts3 <> []) as A3.
  { subst parts3.
    destruct (ch_content ch) as [[|] |]; [intros _; apply Hsnoc | |];
      (destruct (ch_title ch); [intros _; apply Hsnoc |]);
      rewrite !orb_false_r; exact A1. }
  assert ((parts3 <> [] -> parts4 <> [])
          /\ (match ch_authors ch with
              | Some au => negb (Nat.eqb (length (notIn (new au) (old au))) 0)
              | None => false
              end = true -> parts4 <> [])) as [A4 A4'].
  { destruct (ch_authors ch) as [au |].
    - destruct (notIn (new au) (old au)) as [| a0 rest].
      + unfold ret in H2. injection H2 as <- _.
        split; [tauto | discriminate].
      + apply mbind_Ok_inv in H2. destruct H2 as (? & ? & _ & H2).
        apply mbind_Ok_inv in H2. destruct H2 as (? & ? & _ & H2).
        unfold ret in H2. injection H2 as <- _.
        split; intros _; apply Hsnoc.
    - unfold ret in H2. injection H2 as <- _. split; [tauto | discriminate]. }
  clear H2.
  match type of H with
  | match ?u with _ => _ end _ = _ => set (updateParts := u) in *
  end.
  assert (updateParts <> []) as Hne.
  { unfold reportable in Hrep. apply orb_true_iff in Hrep.
    destruct Hrep as [Hrep | Htags].
    - assert (parts4 <> []) as Hp4.
      { apply orb_true_iff in Hrep. destruct Hrep as [Hrep | Hau];
          [apply A4, A3, Hrep | apply A4', Hau]. }
      subst updateParts. destruct (ch_tags ch) as [tg |]; [| exact Hp4].
      destruct (notIn (new tg) (old tg)), (notIn (old tg) (new tg));
        first [exact Hp4 | apply Hsnoc].
    - subst updateParts. destruct (ch_tags ch) as [tg |]; [| discriminate].
      destruct (notIn (new tg) (old tg)), (notIn (old tg) (new tg));
        first [discriminate | apply Hsnoc]. }
  destruct updateParts as [| p ps] eqn:Eparts; [contradiction |].
  unfold postMessage, perform in H.
  destruct (rejects chat (calls w2) _); [discriminate |].
  injection H as <-.
  eexists (tr1 ++ tr2), _. split.
  - cbn [calls record]. rewrite Htr2, Htr1, <- !app_assoc. reflexivity.
  - rewrite countCalls_app, !Hcount by assumption. reflexivity.
Qed.

Lemma atMost_ask_once {A} f c (answer : list Call -> result A) :
  atMost f 1 (ask c answer).
Proof.
  intros w. exists [c]. split; [reflexivity |].
  unfold countCalls. cbn. destruct (f c); cbn; lia.
Qed.

Lemma atMost_createDiscussion parentChannel r rfdLink siteUrl prefix :
  atMost isCreateDiscussion 1
    (createDiscussion P chat parentChannel r rfdLink siteUrl prefix).
Proof.
  unfold createDiscussion.
  apply (atMost_mbind _ 0 1); [now apply atMost_ask |].
  intros [parent |]; [| apply (atMost_weaken _ 0); [lia | apply atMost_throw]].
  apply (atMost_mbind _ 0 1); [now apply atMost_ask |].
  intros [user |]; [| apply (atMost_weaken _ 0); [lia | apply atMost_throw]].
  apply (atMost_mbind _ 1 0); [apply atMost_ask_once |].
  intros i. destruct (falsy (Some i)); [apply atMost_throw |].
  apply (atMost_quiet notCreateNorStore);
    [apply notCreateNorStore_create | apply quiet_announceDiscussion].
Qed.

(** ** [createDiscussion] *)

(** X17.  A successful [createDiscussion] never answers [null]: it
    returns the room id that finishing the discussion gave, which is
    not empty, with the deep link to [group/<id>] of that id; it has
    looked that room up, and its last call is the announcement. *)
Theorem createDiscussion_result (parentChannel : jsstring) (r : RFD)
    (rfdLink siteUrl prefix : jsstring) (w w' : World)
    (d : option DiscussionRef) :
  createDiscussion P chat parentChannel r rfdLink siteUrl prefix w
  = (Ok d, w') ->
  exists i u tr room user text,
    d = Some {| ref_id := i; ref_url := u |}
    /\ i <> []
    /\ buildDeepLink P siteUrl (js "group/" ++ i) = Ok u
    /\ calls w' = calls w ++ tr ++ [PostMessage room user text]
    /\ In (GetRoomById i) tr
    /\ countCalls isCreateDiscussion tr = 1%nat.
Proof.
  unfold createDiscussion. intros H.
  apply mbind_Ok_inv in H. destruct H as (parent & w1 & H1 & H).
  apply ask_inv in H1. destruct H1 as [_ ->].
  destruct parent as [parent |]; [| discriminate].
  apply mbind_Ok_inv in H. destruct H as (user & w2 & H2 & H).
  apply ask_inv in H2. destruct H2 as [_ ->].
  destruct user as [user |]; [| discriminate].
  apply mbind_Ok_inv in H. destruct H as (i & w3 & H3 & H).
  apply ask_inv in H3. destruct H3 as [_ ->].
  destruct (falsy (Some i)) eqn:Hi; [discriminate |].
  unfold announceDiscussion in H.
  apply mbind_Ok_inv in H. destruct H as (room & w4 & H4 & H).
  apply ask_inv in H4. destruct H4 as [_ ->].
  destruct room as [room |]; [| discriminate].
  apply mbind_Ok_inv in H. destruct H as ([] & w5 & H5 & H).
  apply mbind_Ok_inv in H. destruct H as ([] & w6 & H6 & H).
  apply mbind_Ok_inv in H. destruct H as ([] & w7 & H7 & H).
  apply mbind_Ok_inv in H. destruct H as (u & w8 & H8 & H).
  unfold lift in H8.
  assert (buildDeepLink P siteUrl (js "group/" ++ i) = Ok u /\ w8 = w7)
    as [Hlink ->] by (split; congruence).
  clear H8.
  unfold ret in H. injection H as <- <-.
  assert (quiet (fun c => negb (isCreateDiscussion c))
            (setRoomDescription chat room
               (buildDescription r rfdLink ++ nl ++ nl
                  ++ js "📝 View ADR: " ++ rfdLink) user)) as Q5
    by (unfold setRoomDescription; repeat trace_step).
  destruct (quiet_Ok_inv _ _ _ _ _ Q5 H5) as (_ & tr5 & Htr5 & Hall5).
  assert (quiet (fun c => negb (isCreateDiscussion c))
            (addAuthorsToDiscussion P chat room parent (authors r))) as Q6
    by (apply (quiet_weaken isAuthorCall);
        [ intros [] ?; (reflexivity || discriminate)
        | apply quiet_addAuthors_authorCalls ]).
  destruct (quiet_Ok_inv _ _ _ _ _ Q6 H6) as (_ & tr6 & Htr6 & Hall6).
  unfold postMessage, perform in H7.
  destruct (rejects chat (calls w6) _); [discriminate |].
  injection H7 as <-.
  assert (forall tr,
             forallb (fun c => negb (isCreateDiscussion c)) tr = true ->
             countCalls isCreateDiscussion tr = 0%nat) as Hcount.
  { intros tr. apply countCalls_none. intros c Hc. now apply negb_true_iff. }
  assert (exists cd,
             calls w6
             = calls w ++ [GetRoomByName parentChannel; GetAppUser; cd;
                           GetRoomById i] ++ tr5 ++ tr6
             /\ isCreateDiscussion cd = true) as (cd & Hw6 & Hcd).
  { eexists. split.
    - rewrite Htr6, Htr5. cbn [calls record]. rewrite <- !app_assoc.
      reflexivity.
    - reflexivity. }
  exists i, u,
    ([GetRoomByName parentChannel; GetAppUser; cd; GetRoomById i] ++ tr5 ++ tr6),
    (room_id room), user.
  eexists.
  split; [reflexivity |].
  split; [destruct i; [discriminate Hi | discriminate] |].
  split; [exact Hlink |].
  split; [cbn [calls record]; rewrite Hw6, <- !app_assoc; reflexivity |].
  split; [do 3 right; left; reflexivity |].
  change ([GetRoomByName parentChannel; GetAppUser; cd; GetRoomById i])
    with ([GetRoomByName parentChannel; GetAppUser] ++ [cd] ++ [GetRoomById i]).
  rewrite !countCalls_app, (Hcount tr5), (Hcount tr6) by assumption.
  unfold countCalls. cbn [List.filter isCreateDiscussion length].
  rewrite Hcd. reflexivity.
Qed.

Lemma createDiscussion_Ok_link parentChannel r rfdLink siteUrl prefix w d w' :
  createDiscussion P chat parentChannel r rfdLink siteUrl prefix w
  = (Ok d, w') ->
  exists i u,
    d = Some {| ref_id := i; ref_url := u |}
    /\ i <> []
    /\ buildDeepLink P siteUrl (js "group/" ++ i) = Ok u.
Proof.
  unfold createDiscussion. intros H.
  apply mbind_Ok_inv in H. destruct H as (parent & w1 & _ & H).
  destruct parent as [parent |]; [| discriminate].
  apply mbind_Ok_inv in H. destruct H as (user & w2 & _ & H).
  destruct user as [user |]; [| discriminate].
  apply mbind_Ok_inv in H. destruct H as (i & w3 & _ & H).
  destruct (falsy (Some i)) eqn:Hi; [discriminate |].
  unfold announceDiscussion in H.
  apply mbind_Ok_inv in H. destruct H as (room & w4 & _ & H).
  destruct room as [room |]; [| discriminate].
  apply mbind_Ok_inv in H. destruct H as ([] & w5 & _ & H).
  apply mbind_Ok_inv in H. destruct H as ([] & w6 & _ & H).
  apply mbind_Ok_inv in H. destruct H as ([] & w7 & _ & H).
  apply mbind_Ok_inv in H. destruct H as (u & w8 & H8 & H).
  unfold lift in H8.
  assert (buildDeepLink P siteUrl (js "group/" ++ i) = Ok u) as Hlink
    by congruence.
  unfold ret in H. injection H as <- _.
  exists i, u. split; [reflexivity |].
  split; [destruct i; [discriminate Hi | discriminate] | exact Hlink].
Qed.

(** X18.  The URL that [createDiscussion] returns leads
    [updateDiscussion] back to the room: the room id is read off the
    URL again, and the first thing an update for that URL does is to
    look up the room with that id. *)
Theorem createDiscussion_url_leads_back (parentChannel : jsstring) (r : RFD)
    (rfdLink siteUrl prefix : jsstring) (w w' : World)
    (d : option DiscussionRef) :
  createDiscussion P chat parentChannel r rfdLink siteUrl prefix w
  = (Ok d, w') ->
  match URL_parse P siteUrl with
  | Some u => wf_jsstring (host u)
  | None => wf_jsstring siteUrl
  end ->
  (forall ref, d = Some ref -> wf_jsstring (ref_id ref)) ->
  exists ref,
    d = Some ref
    /\ DiscussionManager.extractRoomIdFromUrl (ref_url ref)
       = Ok (Some (ref_id ref))
    /\ forall r' rfdLink' ch w0,
         exists tr,
           calls (snd (updateDiscussion P chat (ref_url ref) r' rfdLink' ch w0))
           = calls w0 ++ GetRoomById (ref_id ref) :: tr.
Proof.
  intros H Hsite Hid.
  apply createDiscussion_Ok_link in H. destruct H as (i & u & -> & Hne & Hlink).
  specialize (Hid _ eq_refl). cbn [ref_id] in Hid.
  assert (DiscussionManager.extractRoomIdFromUrl u = Ok (Some i)) as Hback.
  { destruct (buildDeepLink_group_Ok P siteUrl i u Hid Hne Hsite Hlink)
      as (eh & er & -> & Hh & Hr & Hner & Hdec).
    destruct (extractRoomIdFromUrl_deepLink_encoded eh er Hh Hr Hner)
      as [_ Hdeep].
    rewrite Hdeep, Hdec. reflexivity. }
  eexists. split; [reflexivity |]. cbn [ref_id ref_url].
  split; [exact Hback |].
  intros r' rfdLink' ch w0. unfold updateDiscussion.
  rewrite mbind_run. unfold lift. rewrite Hback.
  destruct i as [| c i]; [contradiction |]. cbn [falsy].
  rewrite mbind_run. unfold ask at 1.
  destruct (getById chat (calls w0) (c :: i)) as [[room |] | e].
  - match goal with
    | |- context [snd (?m (record ?call w0))] =>
        assert (quiet notCreateNorStore m) as Q
          by (repeat first [ apply quiet_applyChanges | trace_step ]);
        destruct (Q (record call w0)) as (_ & tr & Htr & _)
    end.
    exists tr. rewrite Htr. cbn [record calls].
    now rewrite <- app_assoc.
  - exists []. reflexivity.
  - exists []. reflexivity.
Qed.

End ManagerProperties.

(* ===================================================================== *)
(** * Further properties of the webhook endpoint *)
(* ===================================================================== *)

Section EndpointProperties.
Import Deliveries DiscussionStore DiscussionManager WebhookEndpoint Traces.

Variable P : Platform.
Variable chat : Chat.

(** X19.  For an RFD without a discussion reference and without a
    stored record, [rfd.updated] is handled exactly as [rfd.created]:
    the discussion is created and stored, and the ChangeSet is not
    looked at. *)
Theorem handleUpdated_unknown_rfd_is_handleCreated (payload : WebhookPayload)
    (parentChannel siteUrl prefix : jsstring) (w : World) :
  (forall r, rfd payload = Some r ->
             falsy (discussion r) = true
             /\ persistence w !! association (id r) = None) ->
  handleUpdated P chat payload parentChannel siteUrl prefix w
  = handleCreated P chat payload parentChannel siteUrl prefix w.
Proof.
  intros H. unfold handleUpdated, handleCreated, rfdOf.
  destruct (rfd payload) as [r |]; [| reflexivity].
  destruct (H r eq_refl) as [Hf Hnone]. clear H.
  rewrite !(mbind_run (ret r)). cbn [ret]. rewrite Hf. cbn [negb].
  rewrite !mbind_run, !getDiscussion_run.
  destruct (rejects chat (calls w) _); [reflexivity |].
  rewrite Hnone. cbn [ret]. rewrite Hf. reflexivity.
Qed.

(** X20.  An [rfd.created] payload whose RFD already carries a deep link
    as the app builds them is answered with that link and an empty room
    id: the endpoint's [extractRoomIdFromUrl] knows the direct form
    only.  Nothing is called or stored. *)
Theorem handleCreated_deep_link_reference (payload : WebhookPayload) (r : RFD)
    (parentChannel siteUrl prefix siteUrl0 roomId link : jsstring) (w : World) :
  rfd payload = Some r -> discussion r = Some link ->
  wf_jsstring roomId -> roomId <> [] ->
  match URL_parse P siteUrl0 with
  | Some u => wf_jsstring (host u)
  | None => wf_jsstring siteUrl0
  end ->
  buildDeepLink P siteUrl0 (js "group/" ++ roomId) = Ok link ->
  handleCreated P chat payload parentChannel siteUrl prefix w
  = (Ok (jsonResponse
           (successWith (Some (js "Discussion already exists"))
              (Some {| ref_id := []; ref_url := link |}))), w).
Proof.
  intros Hr Hd Hid Hne Hsite Hlink.
  destruct (buildDeepLink_group_Ok P siteUrl0 roomId link Hid Hne Hsite Hlink)
    as (eh & er & El & Hh & Hre & Hner & Hdec).
  destruct (extractRoomIdFromUrl_deepLink_encoded eh er Hh Hre Hner)
    as [Hdirect _].
  rewrite <- El in Hdirect.
  rewrite (handleCreated_trusts_reference P chat payload r parentChannel
             siteUrl prefix w link Hr Hd).
  - unfold WebhookEndpoint.extractRoomIdFromUrl. rewrite Hdirect. reflexivity.
  - eapply buildDeepLink_nonempty. exact Hlink.
Qed.

Lemma coherent_jsonResponse msg d : coherent (jsonResponse (successWith msg d)).
Proof. repeat split. Qed.

Lemma coherent_errorResponse st msg : st <> OK -> coherent (errorResponse st msg).
Proof. intros H. repeat split; intros E; (contradiction || discriminate). Qed.

Lemma create_then_store_accounted parentChannel r rfdLink siteUrl prefix
    (w0 w : World) :
  persistence w0 = persistence w ->
  accounted w
    (mbind (createDiscussion P chat parentChannel r rfdLink siteUrl prefix)
       (fun discussion =>
          match discussion with
          | None =>
              ret (errorResponse INTERNAL_SERVER_ERROR
                     (js "Failed to create discussion"))
          | Some d =>
              mbind (storeDiscussion chat (id r) (ref_id d) (ref_url d))
                (fun _ =>
                   ret (jsonResponse
                          (successWith None
                             (Some {| ref_id := ref_id d;
                                      ref_url := ref_url d |}))))
          end) w0).
Proof.
  intros Hw0. rewrite mbind_run.
  destruct (createDiscussion P chat parentChannel r rfdLink siteUrl prefix w0)
    as [[d | e] w1] eqn:E.
  - apply createDiscussion_Ok in E.
    destruct E as (Hp & ref & tr & -> & _).
    rewrite mbind_run, storeDiscussion_run. cbv zeta.
    destruct (rejects chat (calls w1) _).
    + cbn [accounted record persistence]. congruence.
    + cbn [accounted ret]. split; [apply coherent_jsonResponse |].
      right. eexists (id r), _, _.
      split; [reflexivity |]. split; [reflexivity |].
      cbn [persistence ref_id ref_url]. rewrite Hp, Hw0. reflexivity.
  - pose proof (quiet_createDiscussion P chat parentChannel r rfdLink siteUrl
                  prefix w0) as (Hp & _).
    rewrite E in Hp. cbn [snd] in Hp. cbn [accounted]. congruence.
Qed.

Lemma handleCreated_accounted payload parentChannel siteUrl prefix w :
  accounted w (handleCreated P chat payload parentChannel siteUrl prefix w).
Proof.
  unfold handleCreated, rfdOf. rewrite mbind_run.
  destruct (rfd payload) as [r |]; [| reflexivity].
  cbn [ret].
  destruct (negb (falsy (discussion r))).
  { split; [apply coherent_jsonResponse | now left]. }
  rewrite mbind_run, getDiscussion_run.
  destruct (rejects chat (calls w) _); [reflexivity |].
  destruct (persistence w !! association (id r)) as [existing |].
  { split; [apply coherent_jsonResponse | now left]. }
  apply create_then_store_accounted. reflexivity.
Qed.

Lemma handleUpdated_accounted payload parentChannel siteUrl prefix w :
  accounted w (handleUpdated P chat payload parentChannel siteUrl prefix w).
Proof.
  unfold handleUpdated, rfdOf. rewrite mbind_run.
  destruct (rfd payload) as [r |]; [| reflexivity].
  cbn [ret]. rewrite mbind_run.
  assert (forall url rr w0,
             persistence w0 = persistence w ->
             accounted w
               (match changes payload with
                | None =>
                    ret (jsonResponse
                           (successWith (Some (js "No changes to process"))
                              None))
                | Some ch =>
                    mbind (updateDiscussion P chat url rr (link payload) ch)
                      (fun _ => ret (jsonResponse (successWith None None)))
                end w0)) as Hupdate.
  { intros url rr w0 Hw0.
    pose proof (update_path_persistence P chat payload url rr w0) as Hp.
    destruct (changes payload) as [ch |].
    - rewrite mbind_run in *.
      destruct (updateDiscussion P chat url rr (link payload) ch w0)
        as [[[] | e] w1]; cbn [accounted ret snd] in *.
      + split; [apply coherent_jsonResponse | left; congruence].
      + congruence.
    - split; [apply coherent_jsonResponse | now left]. }
  destruct (falsy (discussion r)) eqn:Hf.
  - rewrite mbind_run, getDiscussion_run.
    destruct (rejects chat (calls w) _); [reflexivity |].
    destruct (persistence w !! association (id r)) as [existing |]; cbn [ret].
    + destruct (falsy (Some (roomUrl existing))).
      * apply create_then_store_accounted. reflexivity.
      * apply Hupdate. reflexivity.
    + rewrite Hf. apply create_then_store_accounted. reflexivity.
  - cbn [ret]. rewrite Hf. apply Hupdate. reflexivity.
Qed.

(** ** Discussions created and records written by one delivery *)

Lemma tally_quiet {A} (m : M A) (w : World) :
  quiet notCreateNorStore m -> tally w (snd (m w)).
Proof.
  intros Hq. destruct (Hq w) as (_ & tr & Htr & Hall).
  exists tr. split; [exact Htr |]. left.
  rewrite (countCalls_none isCreateDiscussion notCreateNorStore tr
             notCreateNorStore_create Hall).
  rewrite (countCalls_none isUpdateByAssociation notCreateNorStore tr
             notCreateNorStore_store Hall).
  split; [lia | reflexivity].
Qed.

Lemma tally_refl (w : World) : tally w w.
Proof.
  exists []. rewrite app_nil_r. split; [reflexivity |]. left.
  split; [cbn; lia | reflexivity].
Qed.

Lemma tally_after (c : Call) (w w' : World) :
  notCreateNorStore c = true -> tally (record c w) w' -> tally w w'.
Proof.
  intros Hc (tr & Htr & Hcount). exists (c :: tr). split.
  - rewrite Htr. cbn [record calls]. now rewrite <- app_assoc.
  - change (c :: tr) with ([c] ++ tr). rewrite !countCalls_app.
    rewrite (countCalls_none isCreateDiscussion notCreateNorStore [c]
               notCreateNorStore_create)
      by (cbn [forallb]; now rewrite Hc).
    rewrite (countCalls_none isUpdateByAssociation notCreateNorStore [c]
               notCreateNorStore_store)
      by (cbn [forallb]; now rewrite Hc).
    exact Hcount.
Qed.

Lemma create_then_store_tally parentChannel r rfdLink siteUrl prefix
    (w : World) :
  tally w
    (snd (mbind (createDiscussion P chat parentChannel r rfdLink siteUrl prefix)
            (fun discussion =>
               match discussion with
               | None =>
                   ret (errorResponse INTERNAL_SERVER_ERROR
                          (js "Failed to create discussion"))
               | Some d =>
                   mbind (storeDiscussion chat (id r) (ref_id d) (ref_url d))
                     (fun _ =>
                        ret (jsonResponse
                               (successWith None
                                  (Some {| ref_id := ref_id d;
                                           ref_url := ref_url d |}))))
               end) w)).
Proof.
  rewrite mbind_run.
  destruct (createDiscussion P chat parentChannel r rfdLink siteUrl prefix w)
    as [[d | e] w1] eqn:E.
  - apply createDiscussion_Ok in E.
    destruct E as (_ & ref & tr & -> & _ & Htr & Hc & Hs).
    rewrite mbind_run, storeDiscussion_run. cbv zeta.
    match goal with
    | |- context [rejects chat (calls w1) ?c] =>
        exists (tr ++ [c]); destruct (rejects chat (calls w1) c)
    end.
    all: cbn [snd ret record calls]; rewrite Htr, <- app_assoc.
    all: split; [reflexivity |]; right; rewrite !countCalls_app, Hc, Hs.
    all: split; reflexivity.
  - destruct (atMost_createDiscussion P chat parentChannel r rfdLink siteUrl
                prefix w) as (tr & Htr & Hc).
    destruct (quiet_createDiscussion P chat parentChannel r rfdLink siteUrl
                prefix w) as (_ & tr' & Htr' & Hall).
    rewrite Htr in Htr'. apply app_inv_head in Htr'. subst tr'.
    rewrite E in Htr. cbn [snd] in *.
    exists tr. split; [exact Htr |]. left. split; [exact Hc |].
    apply (countCalls_none isUpdateByAssociation notStore); [| exact Hall].
    intros c. unfold notStore. apply negb_true_iff.
Qed.

Lemma handleCreated_tally payload parentChannel siteUrl prefix w :
  tally w
    (snd (handleCreated P chat payload parentChannel siteUrl prefix w)).
Proof.
  unfold handleCreated, rfdOf. rewrite mbind_run.
  destruct (rfd payload) as [r |]; [| apply tally_refl].
  cbn [ret].
  destruct (negb (falsy (discussion r))); [apply tally_refl |].
  rewrite mbind_run, getDiscussion_run.
  apply (tally_after (ReadByAssociation (association (id r))));
    [reflexivity |].
  destruct (rejects chat (calls w) _); [apply tally_refl |].
  destruct (persistence w !! association (id r)) as [existing |];
    [apply tally_refl |].
  apply create_then_store_tally.
Qed.

Lemma handleUpdated_tally payload parentChannel siteUrl prefix w :
  tally w
    (snd (handleUpdated P chat payload parentChannel siteUrl prefix w)).
Proof.
  unfold handleUpdated, rfdOf. rewrite mbind_run.
  destruct (rfd payload) as [r |]; [| apply tally_refl].
  cbn [ret]. rewrite mbind_run.
  assert (forall url rr w0,
             tally w0
               (snd (match changes payload with
                     | None =>
                         ret (jsonResponse
                                (successWith
                                   (Some (js "No changes to process")) None))
                     | Some ch =>
                         mbind
                           (updateDiscussion P chat url rr (link payload) ch)
                           (fun _ =>
                              ret (jsonResponse (successWith None None)))
                     end w0))) as Hupdate.
  { intros url rr w0. apply tally_quiet.
    destruct (changes payload) as [ch |]; [| apply quiet_ret].
    apply quiet_mbind; [apply quiet_updateDiscussion |].
    intros _. apply quiet_ret. }
  destruct (falsy (discussion r)) eqn:Hf.
  - rewrite mbind_run, getDiscussion_run.
    apply (tally_after (ReadByAssociation (association (id r))));
      [reflexivity |].
    destruct (rejects chat (calls w) _); [apply tally_refl |].
    destruct (persistence w !! association (id r)) as [existing |]; cbn [ret].
    + destruct (falsy (Some (roomUrl existing)));
        [apply create_then_store_tally | apply Hupdate].
    + rewrite Hf. apply create_then_store_tally.
  - cbn [ret]. rewrite Hf. apply Hupdate.
Qed.

Section Verifier.
Variable verifySignature :
  jsstring -> option jsstring -> jsstring -> result bool.

(** X21.  [post] never throws: it always answers.  In its answer the
    status is 200 exactly when [success] is set, and exactly when there
    is no [error].  The store is left as it was unless the answer is a
    200 that carries a discussion, and then the one record written is
    that discussion's. *)
Theorem post_accounts_for_the_store (settings : Settings)
    (serverSiteUrl : result jsstring) (request : IApiRequest) (w : World) :
  exists resp w',
    post verifySignature P chat settings serverSiteUrl request w = (Ok resp, w')
    /\ (status resp = OK <-> success (resp_content resp) = true)
    /\ (status resp = OK <-> error (resp_content resp) = None)
    /\ (persistence w' = persistence w
        \/ exists rfdId ref at_,
             status resp = OK
             /\ resp_discussion (resp_content resp) = Some ref
             /\ persistence w'
                = <[association rfdId :=
                      {| rfdId := rfdId; roomId := ref_id ref;
                         roomUrl := ref_url ref;
                         stored_createdAt := at_ |}]> (persistence w)).
Proof.
  assert (forall out : result IApiResponse * World,
             accounted w out ->
             exists resp w',
               (match out with
                | (Ok a, w1) => (Ok a, w1)
                | (Throw e, w1) =>
                    ret (errorResponse INTERNAL_SERVER_ERROR (messageOf P e)) w1
                end) = (Ok resp, w')
               /\ (status resp = OK <-> success (resp_content resp) = true)
               /\ (status resp = OK <-> error (resp_content resp) = None)
               /\ (persistence w' = persistence w
                   \/ exists rfdId ref at_,
                        status resp = OK
                        /\ resp_discussion (resp_content resp) = Some ref
                        /\ persistence w'
                           = <[association rfdId :=
                                 {| rfdId := rfdId; roomId := ref_id ref;
                                    roomUrl := ref_url ref;
                                    stored_createdAt := at_ |}]>
                               (persistence w))) as Hcatch.
  { intros [[resp | e] w1] Hacc; cbn [accounted] in Hacc.
    - destruct Hacc as [[Hc1 Hc2] Hstore]. eexists _, _.
      split; [reflexivity |]. auto.
    - eexists _, _. split; [reflexivity |].
      destruct (coherent_errorResponse INTERNAL_SERVER_ERROR (messageOf P e))
        as [Hc1 Hc2]; [discriminate |].
      cbn [ret]. auto. }
  assert (forall st msg, st <> OK ->
             accounted w (Ok (errorResponse st msg), w)) as Herr.
  { intros st msg Hst. split; [now apply coherent_errorResponse | now left]. }
  unfold post, try_catch. apply Hcatch.
  set (prefix' := match WebhookEndpoint.prefix settings with
                  | [] => js "RFD" | _ => _ end).
  destruct (falsy (Some (webhook_secret settings)));
    [apply Herr; discriminate |].
  destruct (falsy (Some (parent_channel settings)));
    [apply Herr; discriminate |].
  rewrite mbind_run. unfold lift.
  destruct (verifySignature _ _ _) as [[|] | e]; cbn [negb ret];
    [| apply Herr; discriminate | reflexivity].
  destruct (req_content request) as [payload |]; [| apply Herr; discriminate].
  destruct (falsy (event payload) || negb (truthy (rfd payload)));
    [apply Herr; discriminate |].
  set (siteUrl := if falsy (Some (site_url settings)) then _ else _).
  destruct (str_eqb _ (js "rfd.created")); [apply handleCreated_accounted |].
  destruct (str_eqb _ (js "rfd.updated")); [apply handleUpdated_accounted |].
  apply Herr. discriminate.
Qed.

(** X22.  [post] leaves the world as it found it (no call, nothing
    stored) unless both settings are there, the signature was verified
    and the payload is an [rfd.created] or [rfd.updated] event with
    an RFD. *)
Theorem post_acts_only_on_verified_events (settings : Settings)
    (serverSiteUrl : result jsstring) (request : IApiRequest) (w : World) :
  snd (post verifySignature P chat settings serverSiteUrl request w) <> w ->
  webhook_secret settings <> []
  /\ parent_channel settings <> []
  /\ verifySignature (JSON_stringify P (req_content request))
       (x_rfd_signature request) (webhook_secret settings) = Ok true
  /\ exists payload r,
       req_content request = Some payload
       /\ rfd payload = Some r
       /\ (event payload = Some (js "rfd.created")
           \/ event payload = Some (js "rfd.updated")).
Proof.
  intros H. unfold post, try_catch in H.
  destruct (webhook_secret settings) as [| c1 s1] eqn:E1;
    [exfalso; apply H; reflexivity |].
  destruct (parent_channel settings) as [| c2 s2] eqn:E2;
    [exfalso; apply H; reflexivity |].
  cbn [falsy] in H. rewrite mbind_run in H. unfold lift in H.
  destruct (verifySignature _ _ _) as [[|] | e] eqn:Ev;
    try (exfalso; apply H; reflexivity).
  cbn [negb] in H.
  destruct (req_content request) as [payload |] eqn:Ec;
    [| exfalso; apply H; reflexivity].
  destruct (event payload) as [[| c ev] |] eqn:Ee;
    try (exfalso; apply H; reflexivity).
  destruct (rfd payload) as [r |] eqn:Er;
    [| exfalso; apply H; reflexivity].
  cbn [falsy truthy negb orb] in H.
  split; [discriminate |]. split; [discriminate |].
  split; [reflexivity |].
  exists payload, r. split; [reflexivity |]. split; [exact Er |].
  rewrite Ee.
  destruct (str_eqb (c :: ev) (js "rfd.created")) eqn:Ecr.
  { left. unfold str_eqb in Ecr. apply bool_decide_eq_true in Ecr.
    f_equal. exact Ecr. }
  destruct (str_eqb (c :: ev) (js "rfd.updated")) eqn:Eup.
  { right. unfold str_eqb in Eup. apply bool_decide_eq_true in Eup.
    f_equal. exact Eup. }
  exfalso. apply H. reflexivity.
Qed.

(** X23.  One delivery creates at most one discussion, and it writes to
    the store only when it has created one, and then once: every
    record written belongs to a discussion created by the same
    delivery. *)
Theorem post_stores_only_what_it_created (settings : Settings)
    (serverSiteUrl : result jsstring) (request : IApiRequest) (w : World) :
  exists tr,
    calls (snd (post verifySignature P chat settings serverSiteUrl request w))
    = calls w ++ tr
    /\ (((countCalls isCreateDiscussion tr <= 1)%nat
         /\ countCalls isUpdateByAssociation tr = 0%nat)
        \/ (countCalls isCreateDiscussion tr = 1%nat
            /\ countCalls isUpdateByAssociation tr = 1%nat)).
Proof.
  change (tally w
            (snd (post verifySignature P chat settings serverSiteUrl request w))).
  assert (forall out : result IApiResponse * World,
             tally w (snd out) ->
             tally w
               (snd (match out with
                     | (Ok a, w1) => (Ok a, w1)
                     | (Throw e, w1) =>
                         ret (errorResponse INTERNAL_SERVER_ERROR
                                (messageOf P e)) w1
                     end))) as Hcatch
    by (intros [[resp | e] w1] Ht; exact Ht).
  unfold post, try_catch. apply Hcatch.
  destruct (falsy (Some (webhook_secret settings))); [apply tally_refl |].
  destruct (falsy (Some (parent_channel settings))); [apply tally_refl |].
  rewrite mbind_run. unfold lift.
  destruct (verifySignature _ _ _) as [[|] | e]; cbn [negb ret];
    [| apply tally_refl | apply tally_refl].
  destruct (req_content request) as [payload |]; [| apply tally_refl].
  destruct (falsy (event payload) || negb (truthy (rfd payload)));
    [apply tally_refl |].
  destruct (str_eqb _ (js "rfd.created")); [apply handleCreated_tally |].
  destruct (str_eqb _ (js "rfd.updated")); [apply handleUpdated_tally |].
  apply tally_refl.
Qed.

End Verifier.

(** X24.  With [verifySignature] of the crypto module as the verifier
    the endpoint processes nothing: every request is answered 401 or
    500, no call is made and nothing is stored, however many requests
    are served. *)
Theorem post_with_sha256_verifier_processes_nothing (settings : Settings)
    (serverSiteUrl : result jsstring) (request : IApiRequest) (w : World) :
  (exists resp,
      post Crypto.verifySignature P chat settings serverSiteUrl request w
      = (Ok resp, w)
      /\ (status resp = UNAUTHORIZED \/ status resp = INTERNAL_SERVER_ERROR))
  /\ forall ds, serve Crypto.verifySignature P chat ds w = w.
Proof.
  assert (forall settings serverSiteUrl request w,
             exists resp,
               post Crypto.verifySignature P chat settings serverSiteUrl
                 request w = (Ok resp, w)
               /\ (status resp = UNAUTHORIZED
                   \/ status resp = INTERNAL_SERVER_ERROR)) as Hpost.
  { clear. intros settings serverSiteUrl request w. unfold post, try_catch.
    destruct (falsy (Some (webhook_secret settings)));
      [eexists; split; [reflexivity | now right] |].
    destruct (falsy (Some (parent_channel settings)));
      [eexists; split; [reflexivity | now right] |].
    rewrite mbind_run. unfold lift.
    destruct (x_rfd_signature request) as [sig |].
    - destruct (startsWith sig (js "sha256=")) eqn:Hs.
      + rewrite verifySignature_prefixed_throws by assumption.
        eexists; split; [reflexivity | now right].
      + rewrite verifySignature_rejects_unprefixed by assumption.
        eexists; split; [reflexivity | now left].
    - rewrite verifySignature_rejects_unprefixed by exact I.
      eexists; split; [reflexivity | now left]. }
  split; [apply Hpost |].
  intros ds. induction ds as [| d ds IH]; [reflexivity |].
  cbn [serve].
  destruct (Hpost (d_settings d) (d_serverSiteUrl d) (d_request d) w)
    as (resp & -> & _).
  exact IH.
Qed.

End EndpointProperties.

(* ===================================================================== *)
(** * The further properties at concrete inputs *)
(* ===================================================================== *)

Section Examples.
Import Crypto Shapes Traces Deliveries DiscussionStore DiscussionManager
  WebhookEndpoint.

Lemma padMessage_layout_witness :
  exists (totalLength : Q) (zeros : nat),
    padMessage [97; 98; 99]
    = Ok (totalLength,
          [97; 98; 99] ++ [128] ++ repeat 0 zeros
            ++ bytesOfUint32 (len [97; 98; 99] * 8))
    /\ (4 <= zeros < 68)%nat
    /\ (len [97; 98; 99] + 1 + Z.of_nat zeros + 4) mod 64 = 0.
Proof.
  apply (padMessage_layout [97; 98; 99]).
  repeat constructor; lia.
Defined.

Lemma timingSafeEqual_decides_equality_witness :
  (timingSafeEqual (js "abc") (js "abd") = true <-> js "abc" = js "abd")
  /\ (length (js "abc") <> length (js "abd") ->
      timingSafeEqual_cost (js "abc") (js "abd") = (false, 0%nat)).
Proof.
  apply (timingSafeEqual_decides_equality (js "abc") (js "abd"));
    apply wf_jsstring_forallb; reflexivity.
Defined.

Lemma bytesToHex_two_digits_per_byte_witness :
  length (bytesToHex [0; 171; 255]) = (2 * length [0; 171; 255])%nat
  /\ forallb isLowerHexDigit (bytesToHex [0; 171; 255]) = true
  /\ (bytesToHex [0; 171; 255] = bytesToHex [10] -> [0; 171; 255] = [10]).
Proof.
  apply (bytesToHex_two_digits_per_byte [0; 171; 255] [10]);
    repeat constructor; lia.
Defined.

Lemma rotr_is_ROTR_witness :
  ToUint32 (rotr 2147483649 7) = ROTR 7 (ToUint32 2147483649).
Proof. apply (rotr_is_ROTR 2147483649 7). lia. Defined.

Lemma storeDiscussion_then_getDiscussion_witness :
  let w1 :=
    snd (storeDiscussion Fixtures.chat (js "0042") (js "ROOM123")
           Fixtures.directUrl Fixtures.emptyWorld) in
  fst (getDiscussion Fixtures.chat (js "0042") w1)
  = Ok (Some {| rfdId := js "0042"; roomId := js "ROOM123";
                roomUrl := Fixtures.directUrl;
                stored_createdAt :=
                  toISOString_now Fixtures.chat (calls Fixtures.emptyWorld) |})
  /\ fst (hasDiscussion Fixtures.chat (js "0042") w1) = Ok true.
Proof.
  apply (storeDiscussion_then_getDiscussion Fixtures.chat (js "0042")
           (js "ROOM123") Fixtures.directUrl Fixtures.emptyWorld);
    reflexivity.
Defined.

Lemma storeDiscussion_other_record_witness :
  fst (getDiscussion Fixtures.chat (js "0042")
         (snd (storeDiscussion Fixtures.chat (js "0043") (js "ROOM456")
                 Fixtures.directUrl Fixtures.storedWorld)))
  = Ok (persistence Fixtures.storedWorld !! association (js "0042")).
Proof.
  apply (storeDiscussion_other_record Fixtures.chat (js "0043") (js "0042")
           (js "ROOM456") Fixtures.directUrl Fixtures.storedWorld).
  - vm_compute. discriminate.
  - reflexivity.
Defined.

Lemma extractRoomIdFromUrl_direct_witness :
  DiscussionManager.extractRoomIdFromUrl
    (js "https://" ++ js "chat.example.com" ++ js "/group/" ++ js "ROOM123"
       ++ js "?msg=xyz")
  = Ok (Some (js "ROOM123"))
  /\ WebhookEndpoint.extractRoomIdFromUrl
       (js "https://" ++ js "chat.example.com" ++ js "/group/" ++ js "ROOM123"
          ++ js "?msg=xyz")
     = Some (js "ROOM123").
Proof.
  apply (extractRoomIdFromUrl_direct (js "chat.example.com") (js "ROOM123")
           (js "?msg=xyz")).
  - apply urlSafe_forallb. reflexivity.
  - vm_compute. discriminate.
  - apply urlSafe_forallb. reflexivity.
  - vm_compute. discriminate.
  - reflexivity.
Defined.

Lemma buildDeepLink_fallback_host_witness :
  buildDeepLink Unreliable.platform
    (js "https://" ++ js "chat example.com:3000" ++ js "/path?query")
    (js "group/ROOM123")
  = let! encodedHost := URI.encodeURIComponent (js "chat example.com:3000") in
    let! encodedPath := URI.encodeURIComponent (js "group/ROOM123") in
    Ok (js "https://go.rocket.chat/room?host=" ++ encodedHost
          ++ js "&path=" ++ encodedPath).
Proof.
  apply (buildDeepLink_fallback_host Unreliable.platform (js "https://")
           (js "chat example.com:3000") (js "/path?query")
           (js "group/ROOM123")).
  - left. reflexivity.
  - vm_compute. repeat constructor.
  - vm_compute. discriminate.
  - reflexivity.
  - reflexivity.
Defined.

Lemma addAuthorsToDiscussion_tolerates_failures_witness :
  let room := {| room_id := js "ROOM123"; slugifiedName := js "rfd-0042";
                 parentRoom := Some (js "PARENT") |} in
  let parent := {| room_id := js "PARENT"; slugifiedName := js "adrs";
                   parentRoom := None |} in
  let authorEmails := [js "Alice <alice@example.com>"; js "bob"] in
  let out :=
    addAuthorsToDiscussion Fixtures.platform Unreliable.chat room parent
      authorEmails Fixtures.emptyWorld in
  fst out = Ok tt
  /\ persistence (snd out) = persistence Fixtures.emptyWorld
  /\ exists tr,
       calls (snd out) = calls Fixtures.emptyWorld ++ tr
       /\ forallb isAuthorCall tr = true
       /\ (countCalls isAddMember tr <= length authorEmails)%nat.
Proof.
  cbv zeta.
  apply (addAuthorsToDiscussion_tolerates_failures Fixtures.platform
           Unreliable.chat).
  - eexists. reflexivity.
  - eexists. reflexivity.
Defined.

Lemma applyChanges_nothing_to_report_witness :
  let room := {| room_id := js "ROOM123"; slugifiedName := js "rfd-0042";
                 parentRoom := Some (js "PARENT") |} in
  let ch :=
    {| ch_title := None; ch_state := None;
       ch_authors := Some {| old := [js "alice"; js "bob"];
                             new := [js "bob"] |};
       ch_tags := Some {| old := [js "a"; js "b"]; new := [js "b"; js "a"] |};
       ch_discussion := Some {| old := []; new := Fixtures.directUrl |};
       ch_content := Some false |} in
  applyChanges Fixtures.platform Fixtures.chat room Fixtures.bot
    (Fixtures.sampleRfd None) (js "https://adrs.example.com/rfd/0042") ch
    Fixtures.emptyWorld
  = (Ok tt, Fixtures.emptyWorld).
Proof.
  cbv zeta.
  apply (applyChanges_nothing_to_report Fixtures.platform Fixtures.chat).
  vm_compute. reflexivity.
Defined.

Lemma applyChanges_reports_last_witness :
  let room := {| room_id := js "ROOM123"; slugifiedName := js "rfd-0042";
                 parentRoom := Some (js "PARENT") |} in
  let w' :=
    snd (applyChanges Fixtures.platform Fixtures.chat room Fixtures.bot
           (Fixtures.sampleRfd None) (js "https://adrs.example.com/rfd/0042")
           Fixtures.stateChange Fixtures.emptyWorld) in
  exists tr text,
    calls w'
    = calls Fixtures.emptyWorld ++ tr
        ++ [PostMessage (room_id room) Fixtures.bot text]
    /\ countCalls isPostMessage tr = 0%nat.
Proof.
  cbv zeta.
  apply (applyChanges_reports_last Fixtures.platform Fixtures.chat _ _
           (Fixtures.sampleRfd None) (js "https://adrs.example.com/rfd/0042")
           Fixtures.stateChange Fixtures.emptyWorld).
  - reflexivity.
  - vm_compute. reflexivity.
Defined.

Lemma createDiscussion_result_witness :
  let out :=
    createDiscussion Fixtures.platform Fixtures.chat (js "adrs")
      (Fixtures.sampleRfd None) (js "https://adrs.example.com/rfd/0042")
      Fixtures.siteUrl (js "RFD") Fixtures.emptyWorld in
  exists i u tr room user text,
    Some {| ref_id := js "ROOM02";
            ref_url :=
              js "https://go.rocket.chat/room?host=chat.example.com&path=group%2FROOM02" |}
    = Some {| ref_id := i; ref_url := u |}
    /\ i <> []
    /\ buildDeepLink Fixtures.platform Fixtures.siteUrl (js "group/" ++ i)
       = Ok u
    /\ calls (snd out)
       = calls Fixtures.emptyWorld ++ tr ++ [PostMessage room user text]
    /\ In (GetRoomById i) tr
    /\ countCalls isCreateDiscussion tr = 1%nat.
Proof.
  cbv zeta.
  apply (createDiscussion_result Fixtures.platform Fixtures.chat (js "adrs")
           (Fixtures.sampleRfd None) (js "https://adrs.example.com/rfd/0042")
           Fixtures.siteUrl (js "RFD") Fixtures.emptyWorld).
  vm_compute. reflexivity.
Defined.

Lemma handleUpdated_unknown_rfd_is_handleCreated_witness :
  handleUpdated Fixtures.platform Fixtures.chat
    (Fixtures.samplePayload "rfd.updated" None (Some Fixtures.stateChange))
    (js "adrs") Fixtures.siteUrl (js "RFD") Fixtures.emptyWorld
  = handleCreated Fixtures.platform Fixtures.chat
      (Fixtures.samplePayload "rfd.updated" None (Some Fixtures.stateChange))
      (js "adrs") Fixtures.siteUrl (js "RFD") Fixtures.emptyWorld.
Proof.
  apply (handleUpdated_unknown_rfd_is_handleCreated Fixtures.platform
           Fixtures.chat).
  intros r [= <-]. split; reflexivity.
Defined.

Lemma post_acts_only_on_verified_events_witness :
  let d := Fixtures.sampleDelivery "rfd.created" None in
  webhook_secret (d_settings d) <> []
  /\ parent_channel (d_settings d) <> []
  /\ CryptoPlaceholder.verifySignature
       (JSON_stringify Fixtures.platform (req_content (d_request d)))
       (x_rfd_signature (d_request d)) (webhook_secret (d_settings d))
     = Ok true
  /\ exists payload r,
       req_content (d_request d) = Some payload
       /\ rfd payload = Some r
       /\ (event payload = Some (js "rfd.created")
           \/ event payload = Some (js "rfd.updated")).
Proof.
  cbv zeta.
  apply (post_acts_only_on_verified_events Fixtures.platform Fixtures.chat
           CryptoPlaceholder.verifySignature
           (d_settings (Fixtures.sampleDelivery "rfd.created" None))
           (d_serverSiteUrl (Fixtures.sampleDelivery "rfd.created" None))
           (d_request (Fixtures.sampleDelivery "rfd.created" None))
           Fixtures.emptyWorld).
  intros E. apply (f_equal calls) in E. vm_compute in E. discriminate.
Defined.

Lemma deep_link_leads_back_to_room_witness :
  DiscussionManager.extractRoomIdFromUrl
    (js "https://go.rocket.chat/room?host=chat.example.com&path=group%2Froom%2042%2F%C3%A9")
  = Ok (Some (js "room 42/é"))
  /\ WebhookEndpoint.extractRoomIdFromUrl
       (js "https://go.rocket.chat/room?host=chat.example.com&path=group%2Froom%2042%2F%C3%A9")
     = None.
Proof.
  apply (deep_link_leads_back_to_room Fixtures.platform Fixtures.siteUrl
           (js "room 42/é")).
  - apply wf_jsstring_forallb. reflexivity.
  - vm_compute. discriminate.
  - change (wf_jsstring (js "chat.example.com")).
    apply wf_jsstring_forallb. reflexivity.
  - vm_compute. reflexivity.
Defined.

Lemma createDiscussion_url_leads_back_witness :
  let d :=
    Some {| ref_id := js "ROOM02";
            ref_url :=
              js "https://go.rocket.chat/room?host=chat.example.com&path=group%2FROOM02" |} in
  exists ref,
    d = Some ref
    /\ DiscussionManager.extractRoomIdFromUrl (ref_url ref)
       = Ok (Some (ref_id ref))
    /\ forall r' rfdLink' ch w0,
         exists tr,
           calls (snd (updateDiscussion Fixtures.platform Fixtures.chat
                         (ref_url ref) r' rfdLink' ch w0))
           = calls w0 ++ GetRoomById (ref_id ref) :: tr.
Proof.
  cbv zeta.
  apply (createDiscussion_url_leads_back Fixtures.platform Fixtures.chat
           (js "adrs") (Fixtures.sampleRfd None)
           (js "https://adrs.example.com/rfd/0042") Fixtures.siteUrl (js "RFD")
           Fixtures.emptyWorld
           (snd (createDiscussion Fixtures.platform Fixtures.chat (js "adrs")
                   (Fixtures.sampleRfd None)
                   (js "https://adrs.example.com/rfd/0042") Fixtures.siteUrl
                   (js "RFD") Fixtures.emptyWorld))).
  - vm_compute. reflexivity.
  - change (wf_jsstring (js "chat.example.com")).
    apply wf_jsstring_forallb. reflexivity.
  - intros ref [= <-]. apply wf_jsstring_forallb. reflexivity.
Defined.

Lemma handleCreated_deep_link_reference_witness :
  let link :=
    js "https://go.rocket.chat/room?host=chat.example.com&path=group%2FROOM03" in
  handleCreated Fixtures.platform Fixtures.chat
    (Fixtures.samplePayload "rfd.created" (Some link) None)
    (js "adrs") Fixtures.siteUrl (js "RFD") Fixtures.storedWorld
  = (Ok (jsonResponse
           (successWith (Some (js "Discussion already exists"))
              (Some {| ref_id := []; ref_url := link |}))),
     Fixtures.storedWorld).
Proof.
  cbv zeta.
  apply (handleCreated_deep_link_reference Fixtures.platform Fixtures.chat
           _ (Fixtures.sampleRfd
                (Some (js "https://go.rocket.chat/room?host=chat.example.com&path=group%2FROOM03")))
           (js "adrs") Fixtures.siteUrl (js "RFD") Fixtures.siteUrl
           (js "ROOM03")).
  - reflexivity.
  - reflexivity.
  - apply wf_jsstring_forallb. reflexivity.
  - vm_compute. discriminate.
  - change (wf_jsstring (js "chat.example.com")).
    apply wf_jsstring_forallb. reflexivity.
  - vm_compute. reflexivity.
Defined.

End Examples.
